(** * The detection-engine lifecycle of [detect-engine.c]

    A shallow embedding of the reload latch, the application-layer inspection
    registry, the configuration-driven part of the engine-context build, the
    thread-keyword lookup and the master registry of engine contexts, followed
    by the properties established about them.

    Conventions.
    - C integers are values of [Z]; where the source does arithmetic on a
      fixed-width field the wrap-around is written out.
    - A pointer to an engine context is [option loc] ([None] is [NULL]); the
      contexts themselves live in a heap [gmap loc DetectEngineCtx], so the
      intrusive [next] links and their aliasing are the ones of the source.
    - A call either returns, terminates the process ([exit], [BUG_ON]),
      touches memory it must not, or runs out of the fuel given to a loop
      over a heap list (such a list may be cyclic). *)

From Stdlib Require Import ZArith String Ascii Bool Lia.
From stdpp Require Import base option list gmap.

Local Open Scope Z_scope.

(** ** Outcomes of a call *)

Inductive outcome (A : Type) : Type :=
| Ret (a : A)      (* the call returns [a] *)
| Exit             (* exit(EXIT_FAILURE) or a failed BUG_ON *)
| Undef            (* access outside an object or through a dangling pointer *)
| OutOfFuel.         (* the loop fuel of the model ran out *)

Arguments Ret {A} a.
Arguments Exit {A}.
Arguments Undef {A}.
Arguments OutOfFuel {A}.

Definition obind {A B : Type} (o : outcome A) (k : A -> outcome B) : outcome B :=
  match o with
  | Ret a => k a
  | Exit => Exit
  | Undef => Undef
  | OutOfFuel => OutOfFuel
  end.

Notation "'let!' x ':=' o 'in' k" := (obind o (fun x => k))
  (at level 10, x name, o at level 200, k at level 200, only parsing).

(** ** The reload latch (lines 429-488)

    [detect_sync] is a process-wide object protected by its own mutex; every
    operation runs with the mutex held from its first to its last access, so
    an operation is a function from the latch to a result and a latch. *)

Inductive DetectEngineSyncState : Type :=
| IDLE     (* ready to start a reload *)
| RELOAD   (* command main thread to do the reload *)
| DONE.    (* main thread telling us reload is done *)

#[global] Instance DetectEngineSyncState_eq_dec : EqDecision DetectEngineSyncState.
Proof. solve_decision. Defined.

Record DetectEngineSyncer : Type := { state : DetectEngineSyncState }.

Definition detect_sync_init : DetectEngineSyncer := {| state := IDLE |}.

Definition DetectEngineReloadStart (detect_sync : DetectEngineSyncer)
  : Z * DetectEngineSyncer :=
  if decide (state detect_sync = IDLE)
  then (0, {| state := RELOAD |})
  else (-1, detect_sync).

Definition DetectEngineReloadIsStart (detect_sync : DetectEngineSyncer)
  : Z * DetectEngineSyncer :=
  if decide (state detect_sync = RELOAD)
  then (1, detect_sync)
  else (0, detect_sync).

Definition DetectEngineReloadSetDone (detect_sync : DetectEngineSyncer)
  : DetectEngineSyncer :=
  {| state := DONE |}.

Definition DetectEngineReloadIsDone (detect_sync : DetectEngineSyncer)
  : Z * DetectEngineSyncer :=
  if decide (state detect_sync = DONE)
  then (1, {| state := IDLE |})
  else (0, detect_sync).

(** Sequences of latch operations, as issued by the requester
    ([ReloadStart]), the executor ([ReloadIsStart], [ReloadSetDone]) and the
    poller ([ReloadIsDone]).  [ReloadSetDone] returns [void]. *)

Inductive latch_op : Type :=
| ReloadStart | ReloadIsStart | ReloadSetDone | ReloadIsDone.

#[global] Instance latch_op_eq_dec : EqDecision latch_op.
Proof. solve_decision. Defined.

Definition latch_step (op : latch_op) (s : DetectEngineSyncer)
  : option Z * DetectEngineSyncer :=
  match op with
  | ReloadStart => let '(r, s') := DetectEngineReloadStart s in (Some r, s')
  | ReloadIsStart => let '(r, s') := DetectEngineReloadIsStart s in (Some r, s')
  | ReloadSetDone => (None, DetectEngineReloadSetDone s)
  | ReloadIsDone => let '(r, s') := DetectEngineReloadIsDone s in (Some r, s')
  end.

(** One call in a run: the operation, the state it found, what it returned
    and the state it left. *)
Record latch_event : Type := {
  ev_op : latch_op;
  ev_before : DetectEngineSyncState;
  ev_result : option Z;
  ev_after : DetectEngineSyncState
}.

(** The calls of a sequence, in order, and the final latch. *)
Fixpoint latch_run (ops : list latch_op) (s : DetectEngineSyncer)
  : list latch_event * DetectEngineSyncer :=
  match ops with
  | [] => ([], s)
  | op :: ops' =>
      let '(r, s1) := latch_step op s in
      let '(evs, s2) := latch_run ops' s1 in
      ({| ev_op := op; ev_before := state s; ev_result := r;
          ev_after := state s1 |} :: evs, s2)
  end.

(** What the poller saw: the results of the [ReloadIsDone] calls. *)
Definition IsDone_results (evs : list latch_event) : list (option Z) :=
  ev_result <$> filter (fun e => ev_op e = ReloadIsDone) evs.

(** The number of [ReloadIsDone] calls in a sequence. *)
Definition polls (ops : list latch_op) : nat :=
  length (filter (fun op => op = ReloadIsDone) ops).

(** The three transitions of the latch as the data model lists them, each
    with the operation that may take it. *)
Inductive listed_transition
  : latch_op -> DetectEngineSyncState -> DetectEngineSyncState -> Prop :=
| lt_request : listed_transition ReloadStart IDLE RELOAD
| lt_execute : listed_transition ReloadSetDone RELOAD DONE
| lt_poll : listed_transition ReloadIsDone DONE IDLE.

(** What a call does, operation by operation: the requester moves the latch
    from [IDLE] to [RELOAD] or fails with [-1]; the executor's query changes
    nothing; the executor's [ReloadSetDone] leaves the latch [DONE] whatever
    it was; the poller moves it from [DONE] to [IDLE] or reports [0]. *)
Definition event_ok (e : latch_event) : Prop :=
  match ev_op e with
  | ReloadStart =>
      (ev_before e = IDLE /\ ev_after e = RELOAD /\ ev_result e = Some 0) \/
      (ev_before e <> IDLE /\ ev_after e = ev_before e /\ ev_result e = Some (-1))
  | ReloadIsStart =>
      ev_after e = ev_before e /\
      ev_result e = Some (if decide (ev_before e = RELOAD) then 1 else 0)
  | ReloadSetDone =>
      ev_after e = DONE /\ ev_result e = None
  | ReloadIsDone =>
      (ev_before e = DONE /\ ev_after e = IDLE /\ ev_result e = Some 1) \/
      (ev_before e <> DONE /\ ev_after e = ev_before e /\ ev_result e = Some 0)
  end.

(** ** The application-layer inspection registry (lines 350-425)

    The table [list[][ALPROTO_MAX][2]] holds, for each cell
    [(FlowGetProtoMapping(ipproto), alproto, dir)], the head of a chain of
    engines linked through [next].  A chain is only ever read from its head
    and extended at its tail with a freshly allocated node, so a chain is the
    sequence of its nodes, and the table maps a cell to its chain; a cell that
    was never written holds [NULL], the empty chain.

    A function pointer is its address, [0] for [NULL]. *)

Record DetectEngineAppInspectionEngine : Type := {
  ipproto : Z;         (* uint8_t *)
  alproto : Z;         (* AppProto *)
  dir : Z;             (* uint16_t *)
  sm_list : Z;         (* int32_t *)
  inspect_flags : Z;   (* uint32_t *)
  Callback : Z
}.

Abbreviation chain := (list DetectEngineAppInspectionEngine) (only parsing).
Abbreviation app_table := (gmap (Z * Z * Z) (list DetectEngineAppInspectionEngine))
  (only parsing).

(** [list[p][a][d]] *)
Definition cell (list : app_table) (p a d : Z) : chain :=
  default [] (list !! (p, a, d)).

(** The [while] loop of [AppendAppInspectionEngine] together with the link
    step after it: the chain with [engine] linked after its last node, unless
    a node of the chain stops the process. *)
Fixpoint append_chain (engine : DetectEngineAppInspectionEngine) (tmp : chain)
  : outcome chain :=
  match tmp with
  | [] => Ret [engine]
  | t :: rest =>
      if (dir t =? dir engine) &&
         ((sm_list t =? sm_list engine) || (inspect_flags t =? inspect_flags engine))
      then Exit
      else let! rest' := append_chain engine rest in Ret (t :: rest')
  end.

(** The loop at lines 403-408: is there a node with this list and callback? *)
Definition already_registered (sm : Z) (cb : Z) (tmp : chain) : bool :=
  existsb (fun t => (sm_list t =? sm) && (Callback t =? cb)) tmp.

Section AppInspection.

(** Constants and the inline helper of headers that are not among the
    sources. *)
Variable FlowGetProtoMapping : Z -> Z.
Variables ALPROTO_UNKNOWN ALPROTO_FAILED : Z.
Variables DETECT_SM_LIST_MATCH DETECT_SM_LIST_MAX : Z.

Definition AppendAppInspectionEngine
    (engine : DetectEngineAppInspectionEngine) (list : app_table)
  : outcome app_table :=
  let p := FlowGetProtoMapping (ipproto engine) in
  let! c := append_chain engine (cell list p (alproto engine) (dir engine)) in
  Ret (<[(p, alproto engine, dir engine) := c]> list).

(** [list] is [None] for a [NULL] table; [malloc_ok] tells whether the
    [SCMalloc] of the new node succeeds. *)
Definition DetectEngineRegisterAppInspectionEngine
    (ipproto alproto dir sm_list inspect_flags Callback : Z)
    (malloc_ok : bool) (list : option app_table)
  : outcome app_table :=
  match list with
  | None => Exit
  | Some list =>
      if (alproto <=? ALPROTO_UNKNOWN) || (alproto >=? ALPROTO_FAILED) ||
         (dir >? 1) ||
         (sm_list <? DETECT_SM_LIST_MATCH) || (sm_list >=? DETECT_SM_LIST_MAX) ||
         (Callback =? 0)
      then Exit
      else if already_registered sm_list Callback
                (cell list (FlowGetProtoMapping ipproto) alproto dir)
      then Ret list
      else if negb malloc_ok then Exit
      else AppendAppInspectionEngine
             {| ipproto := ipproto; alproto := alproto; dir := dir;
                sm_list := sm_list; inspect_flags := inspect_flags;
                Callback := Callback |} list
  end.

(** One call of the registration function, with its arguments. *)
Record register_call : Type := {
  rc_ipproto : Z; rc_alproto : Z; rc_dir : Z; rc_sm_list : Z;
  rc_inspect_flags : Z; rc_Callback : Z; rc_malloc_ok : bool
}.

Definition RegisterEngine (c : register_call) (list : app_table) : outcome app_table :=
  DetectEngineRegisterAppInspectionEngine
    (rc_ipproto c) (rc_alproto c) (rc_dir c) (rc_sm_list c)
    (rc_inspect_flags c) (rc_Callback c) (rc_malloc_ok c) (Some list).

(** The argument check at lines 392-396 passes. *)
Definition valid_args (c : register_call) : Prop :=
  ALPROTO_UNKNOWN < rc_alproto c < ALPROTO_FAILED /\
  rc_dir c <= 1 /\
  DETECT_SM_LIST_MATCH <= rc_sm_list c < DETECT_SM_LIST_MAX /\
  rc_Callback c <> 0.

(** The chain a call works on. *)
Definition call_chain (c : register_call) (list : app_table) : chain :=
  cell list (FlowGetProtoMapping (rc_ipproto c)) (rc_alproto c) (rc_dir c).

(** Tables built from the zero-initialised table by calls that returned. *)
Inductive registered : app_table -> Prop :=
| registered_empty : registered ∅
| registered_call list c list' :
    registered list -> RegisterEngine c list = Ret list' -> registered list'.

End AppInspection.

(** ** C strings and the configuration tree

    A [char *] that may be [NULL] is an [option string]. *)

Definition strcmp_eq (a b : string) : bool := String.eqb a b.

Definition isspace (c : ascii) : bool :=
  let n := nat_of_ascii c in
  (Nat.eqb n 32 || (Nat.leb 9 n && Nat.leb n 13))%bool.

Definition digit_of (c : ascii) : option Z :=
  let n := nat_of_ascii c in
  if (Nat.leb 48 n && Nat.leb n 57)%bool then Some (Z.of_nat (n - 48)) else None.

Fixpoint skip_spaces (s : string) : string :=
  match s with
  | String c s' => if isspace c then skip_spaces s' else s
  | EmptyString => s
  end.

(** The value of the longest prefix of decimal digits, continuing [acc]. *)
Fixpoint decimal_prefix (s : string) (acc : Z) : Z :=
  match s with
  | String c s' =>
      match digit_of c with
      | Some d => decimal_prefix s' (10 * acc + d)
      | None => acc
      end
  | EmptyString => acc
  end.

(** [atoi] of the C library: white space, an optional sign, decimal digits.
    Where the value does not fit an [int] the C standard leaves the result
    open; the model keeps the mathematical value. *)
Definition atoi (s : string) : Z :=
  match skip_spaces s with
  | String "-"%char r => - decimal_prefix r 0
  | String "+"%char r => decimal_prefix r 0
  | r => decimal_prefix r 0
  end.

(** Modelled from the spec: [conf.c] is not among the sources.  The
    configuration is a tree looked up by string keys; a node has a name, a
    value that may be missing, and the queue [head] of its children, which
    the engine walks itself with [TAILQ_FOREACH] and [tqh_first].  An entry
    [- key: value] of a YAML sequence is a node whose value is [key] and
    whose first child is named [key] and carries [value]. *)
Local Unset Elimination Schemes.
Inductive ConfNode : Type :=
  MkConfNode (name : string) (val : option string) (head : list ConfNode).
Local Set Elimination Schemes.

Definition conf_name (n : ConfNode) : string :=
  match n with MkConfNode name _ _ => name end.
Definition conf_val (n : ConfNode) : option string :=
  match n with MkConfNode _ val _ => val end.
Definition conf_head (n : ConfNode) : list ConfNode :=
  match n with MkConfNode _ _ head => head end.

(** [head.tqh_first] *)
Definition tqh_first (n : ConfNode) : option ConfNode :=
  match conf_head n with
  | [] => None
  | c :: _ => Some c
  end.

(** Modelled from the spec: the first child with the given name. *)
Definition ConfNodeLookupChild (node : ConfNode) (name : string) : option ConfNode :=
  find (fun child => strcmp_eq (conf_name child) name) (conf_head node).

(** Modelled from the spec: the value of that child; the node itself is
    dereferenced. *)
Definition ConfNodeLookupChildValue (node : option ConfNode) (name : string)
  : outcome (option string) :=
  match node with
  | None => Undef
  | Some node =>
      match ConfNodeLookupChild node name with
      | Some child => Ret (conf_val child)
      | None => Ret None
      end
  end.

Fixpoint split_on (sep : ascii) (s : string) : list string :=
  match s with
  | EmptyString => [EmptyString]
  | String c s' =>
      if Ascii.eqb c sep then EmptyString :: split_on sep s'
      else match split_on sep s' with
           | [] => [String c EmptyString]
           | w :: ws => String c w :: ws
           end
  end.

(** Modelled from the spec: lookup of a dotted path from the root. *)
Definition ConfGetNode (root : ConfNode) (key : string) : option ConfNode :=
  fold_left (fun node k =>
               match node with
               | Some n => ConfNodeLookupChild n k
               | None => None
               end)
            (split_on "."%char key) (Some root).

(** A sequence entry [- key: value] and a sequence entry [- key:] followed
    by a nested mapping, as the YAML loader stores them ([idx] is the
    position in the sequence, which names the entry). *)
Definition yaml_scalar_entry (idx key value : string) : ConfNode :=
  MkConfNode idx (Some key) [MkConfNode key (Some value) []].

Definition yaml_mapping_entry (idx key : string) (fields : list (string * string))
  : ConfNode :=
  MkConfNode idx (Some key)
    [MkConfNode key None
       (map (fun kv => MkConfNode (fst kv) (Some (snd kv)) []) fields)].

Definition yaml_root (detect_engine : list ConfNode) : ConfNode :=
  MkConfNode EmptyString None [MkConfNode "detect-engine" None detect_engine].

(** ** Engine contexts

    The fields of [DetectEngineCtx] that the functions below read or write.
    [SCMalloc] followed by [memset] to zero gives [DetectEngineCtx_zero]. *)

Abbreviation loc := positive (only parsing).

Inductive sgh_mpm_context_t : Type :=
| ENGINE_SGH_MPM_FACTORY_CONTEXT_FULL
| ENGINE_SGH_MPM_FACTORY_CONTEXT_SINGLE
| ENGINE_SGH_MPM_FACTORY_CONTEXT_AUTO.

Inductive engine_profile : Type :=
| ENGINE_PROFILE_UNKNOWN
| ENGINE_PROFILE_LOW
| ENGINE_PROFILE_MEDIUM
| ENGINE_PROFILE_HIGH
| ENGINE_PROFILE_CUSTOM.

(** An item of the thread-keyword list.  [InitFunc] is the function the
    pointer designates: from the [data] pointer to the pointer it returns. *)
Record DetectEngineThreadKeywordCtxItem : Type := {
  InitFunc : Z -> Z;
  item_data : Z;
  item_name : string;
  item_id : Z
}.

Record DetectEngineCtx : Type := {
  minimal : Z;
  ctx_id : Z;                              (* uint32_t id *)
  config_prefix : string;
  failure_fatal : Z;
  inspection_recursion_limit : Z;          (* int *)
  mpm_matcher : Z;
  sgh_mpm_context : sgh_mpm_context_t;
  max_uniq_toclient_src_groups : Z;        (* uint16_t, as the seven below *)
  max_uniq_toclient_dst_groups : Z;
  max_uniq_toclient_sp_groups : Z;
  max_uniq_toclient_dp_groups : Z;
  max_uniq_toserver_src_groups : Z;
  max_uniq_toserver_dst_groups : Z;
  max_uniq_toserver_sp_groups : Z;
  max_uniq_toserver_dp_groups : Z;
  keyword_id : Z;                          (* int *)
  keyword_list : list DetectEngineThreadKeywordCtxItem;
  ref_cnt : Z;                             (* uint32_t *)
  next : option loc
}.

Definition DetectEngineCtx_zero : DetectEngineCtx := {|
  minimal := 0; ctx_id := 0; config_prefix := EmptyString; failure_fatal := 0;
  inspection_recursion_limit := 0; mpm_matcher := 0;
  sgh_mpm_context := ENGINE_SGH_MPM_FACTORY_CONTEXT_FULL;
  max_uniq_toclient_src_groups := 0; max_uniq_toclient_dst_groups := 0;
  max_uniq_toclient_sp_groups := 0; max_uniq_toclient_dp_groups := 0;
  max_uniq_toserver_src_groups := 0; max_uniq_toserver_dst_groups := 0;
  max_uniq_toserver_sp_groups := 0; max_uniq_toserver_dp_groups := 0;
  keyword_id := 0; keyword_list := []; ref_cnt := 0; next := None
|}.

(** The eight group limits of a context, in the order
    toclient src, dst, sp, dp, toserver src, dst, sp, dp. *)
Definition group_limits (c : DetectEngineCtx) : list Z :=
  [ max_uniq_toclient_src_groups c; max_uniq_toclient_dst_groups c;
    max_uniq_toclient_sp_groups c; max_uniq_toclient_dp_groups c;
    max_uniq_toserver_src_groups c; max_uniq_toserver_dst_groups c;
    max_uniq_toserver_sp_groups c; max_uniq_toserver_dp_groups c ].

(** Assignments to fields. *)
Definition set_identity (minimal' ctx_id' : Z) (c : DetectEngineCtx) : DetectEngineCtx :=
  {| minimal := minimal'; ctx_id := ctx_id'; config_prefix := config_prefix c;
     failure_fatal := failure_fatal c;
     inspection_recursion_limit := inspection_recursion_limit c;
     mpm_matcher := mpm_matcher c; sgh_mpm_context := sgh_mpm_context c;
     max_uniq_toclient_src_groups := max_uniq_toclient_src_groups c;
     max_uniq_toclient_dst_groups := max_uniq_toclient_dst_groups c;
     max_uniq_toclient_sp_groups := max_uniq_toclient_sp_groups c;
     max_uniq_toclient_dp_groups := max_uniq_toclient_dp_groups c;
     max_uniq_toserver_src_groups := max_uniq_toserver_src_groups c;
     max_uniq_toserver_dst_groups := max_uniq_toserver_dst_groups c;
     max_uniq_toserver_sp_groups := max_uniq_toserver_sp_groups c;
     max_uniq_toserver_dp_groups := max_uniq_toserver_dp_groups c;
     keyword_id := keyword_id c; keyword_list := keyword_list c;
     ref_cnt := ref_cnt c; next := next c |}.

Definition set_config (prefix : string) (fatal limit matcher : Z)
    (c : DetectEngineCtx) : DetectEngineCtx :=
  {| minimal := minimal c; ctx_id := ctx_id c; config_prefix := prefix;
     failure_fatal := fatal;
     inspection_recursion_limit := limit;
     mpm_matcher := matcher; sgh_mpm_context := sgh_mpm_context c;
     max_uniq_toclient_src_groups := max_uniq_toclient_src_groups c;
     max_uniq_toclient_dst_groups := max_uniq_toclient_dst_groups c;
     max_uniq_toclient_sp_groups := max_uniq_toclient_sp_groups c;
     max_uniq_toclient_dp_groups := max_uniq_toclient_dp_groups c;
     max_uniq_toserver_src_groups := max_uniq_toserver_src_groups c;
     max_uniq_toserver_dst_groups := max_uniq_toserver_dst_groups c;
     max_uniq_toserver_sp_groups := max_uniq_toserver_sp_groups c;
     max_uniq_toserver_dp_groups := max_uniq_toserver_dp_groups c;
     keyword_id := keyword_id c; keyword_list := keyword_list c;
     ref_cnt := ref_cnt c; next := next c |}.

Definition set_sgh_mpm_context (v : sgh_mpm_context_t) (c : DetectEngineCtx)
  : DetectEngineCtx :=
  {| minimal := minimal c; ctx_id := ctx_id c; config_prefix := config_prefix c;
     failure_fatal := failure_fatal c;
     inspection_recursion_limit := inspection_recursion_limit c;
     mpm_matcher := mpm_matcher c; sgh_mpm_context := v;
     max_uniq_toclient_src_groups := max_uniq_toclient_src_groups c;
     max_uniq_toclient_dst_groups := max_uniq_toclient_dst_groups c;
     max_uniq_toclient_sp_groups := max_uniq_toclient_sp_groups c;
     max_uniq_toclient_dp_groups := max_uniq_toclient_dp_groups c;
     max_uniq_toserver_src_groups := max_uniq_toserver_src_groups c;
     max_uniq_toserver_dst_groups := max_uniq_toserver_dst_groups c;
     max_uniq_toserver_sp_groups := max_uniq_toserver_sp_groups c;
     max_uniq_toserver_dp_groups := max_uniq_toserver_dp_groups c;
     keyword_id := keyword_id c; keyword_list := keyword_list c;
     ref_cnt := ref_cnt c; next := next c |}.

Definition set_group_limits (tc_src tc_dst tc_sp tc_dp ts_src ts_dst ts_sp ts_dp : Z)
    (c : DetectEngineCtx) : DetectEngineCtx :=
  {| minimal := minimal c; ctx_id := ctx_id c; config_prefix := config_prefix c;
     failure_fatal := failure_fatal c;
     inspection_recursion_limit := inspection_recursion_limit c;
     mpm_matcher := mpm_matcher c; sgh_mpm_context := sgh_mpm_context c;
     max_uniq_toclient_src_groups := tc_src;
     max_uniq_toclient_dst_groups := tc_dst;
     max_uniq_toclient_sp_groups := tc_sp;
     max_uniq_toclient_dp_groups := tc_dp;
     max_uniq_toserver_src_groups := ts_src;
     max_uniq_toserver_dst_groups := ts_dst;
     max_uniq_toserver_sp_groups := ts_sp;
     max_uniq_toserver_dp_groups := ts_dp;
     keyword_id := keyword_id c; keyword_list := keyword_list c;
     ref_cnt := ref_cnt c; next := next c |}.

Definition set_ref_cnt (v : Z) (c : DetectEngineCtx) : DetectEngineCtx :=
  {| minimal := minimal c; ctx_id := ctx_id c; config_prefix := config_prefix c;
     failure_fatal := failure_fatal c;
     inspection_recursion_limit := inspection_recursion_limit c;
     mpm_matcher := mpm_matcher c; sgh_mpm_context := sgh_mpm_context c;
     max_uniq_toclient_src_groups := max_uniq_toclient_src_groups c;
     max_uniq_toclient_dst_groups := max_uniq_toclient_dst_groups c;
     max_uniq_toclient_sp_groups := max_uniq_toclient_sp_groups c;
     max_uniq_toclient_dp_groups := max_uniq_toclient_dp_groups c;
     max_uniq_toserver_src_groups := max_uniq_toserver_src_groups c;
     max_uniq_toserver_dst_groups := max_uniq_toserver_dst_groups c;
     max_uniq_toserver_sp_groups := max_uniq_toserver_sp_groups c;
     max_uniq_toserver_dp_groups := max_uniq_toserver_dp_groups c;
     keyword_id := keyword_id c; keyword_list := keyword_list c;
     ref_cnt := v; next := next c |}.

Definition set_next (v : option loc) (c : DetectEngineCtx) : DetectEngineCtx :=
  {| minimal := minimal c; ctx_id := ctx_id c; config_prefix := config_prefix c;
     failure_fatal := failure_fatal c;
     inspection_recursion_limit := inspection_recursion_limit c;
     mpm_matcher := mpm_matcher c; sgh_mpm_context := sgh_mpm_context c;
     max_uniq_toclient_src_groups := max_uniq_toclient_src_groups c;
     max_uniq_toclient_dst_groups := max_uniq_toclient_dst_groups c;
     max_uniq_toclient_sp_groups := max_uniq_toclient_sp_groups c;
     max_uniq_toclient_dp_groups := max_uniq_toclient_dp_groups c;
     max_uniq_toserver_src_groups := max_uniq_toserver_src_groups c;
     max_uniq_toserver_dst_groups := max_uniq_toserver_dst_groups c;
     max_uniq_toserver_sp_groups := max_uniq_toserver_sp_groups c;
     max_uniq_toserver_dp_groups := max_uniq_toserver_dp_groups c;
     keyword_id := keyword_id c; keyword_list := keyword_list c;
     ref_cnt := ref_cnt c; next := v |}.

Definition UINT32_MAX : Z := 4294967295.
Definition wrap_uint32 (z : Z) : Z := z mod 4294967296.
Definition wrap_uint16 (z : Z) : Z := z mod 65536.

(** ** Building an engine context from the configuration (lines 705-805,
    914-1171)

    What the build obtains from code outside the sources is gathered in one
    record: results of helper calls, constants of headers, and the run mode. *)

Record externals : Type := {
  (* what ConfGetBool stores through its pointer, when it returns 1 *)
  ConfGetBool : string -> option Z;
  PatternMatchDefaultMatcher : Z;
  DEFAULT_MPM : Z;
  MPM_AC_GFBS : Z;
  MPM_AC_BS : Z;
  (* run_mode == RUNMODE_UNITTEST *)
  run_mode_is_unittest : bool;
  (* base, len, str to the return value and the value stored through the
     result pointer, if one is stored *)
  ByteExtractStringUint16 : Z -> Z -> string -> Z * option Z;
  (* does the SCMalloc of the context succeed *)
  malloc_de_ctx_ok : bool;
  (* is the table returned by MpmPatternIdTableInitHash non-NULL *)
  mpm_pattern_id_store_ok : bool;
  ActionInitConfig : Z;
  (* sizeof(de_ctx->config_prefix) *)
  sizeof_config_prefix : nat
}.

(** [strlen(s)] passed for a [uint16_t] parameter. *)
Definition strlen16 (s : string) : Z := wrap_uint16 (Z.of_nat (String.length s)).

(** [strlcpy(dst, src, size)]: the copy is cut to [size - 1] characters. *)
Definition strlcpy (src : string) (size : nat) : string :=
  substring 0 (size - 1) src.

(** The loop at lines 736-751: the value string of the first sequence entry
    for [inspection-recursion-limit], [None] where the pointer stays [NULL]. *)
Fixpoint find_insp_recursion_limit (seq : list ConfNode) : outcome (option string) :=
  match seq with
  | [] => Ret None
  | seq_node :: rest =>
      match conf_val seq_node with
      | None => Undef
      | Some v =>
          if negb (strcmp_eq v "inspection-recursion-limit")
          then find_insp_recursion_limit rest
          else match ConfNodeLookupChild seq_node v with
               | None => Ret None
               | Some insp_recursion_limit_node =>
                   Ret (conf_val insp_recursion_limit_node)
               end
      end
  end.

(** The loop at lines 935-941, from the values [de_ctx_profile] and
    [sgh_mpm_context] have on entry to the values they have on exit. *)
Fixpoint scan_profile (opts : list ConfNode)
    (de_ctx_profile sgh_mpm_context : option string)
  : outcome (option string * option string) :=
  match opts with
  | [] => Ret (de_ctx_profile, sgh_mpm_context)
  | opt :: rest =>
      match conf_val opt with
      | None => Undef
      | Some v =>
          if strcmp_eq v "profile" then
            match tqh_first opt with
            | None => Undef
            | Some f => scan_profile rest (conf_val f) sgh_mpm_context
            end
          else if strcmp_eq v "sgh-mpm-context" then
            match tqh_first opt with
            | None => Undef
            | Some f => scan_profile rest de_ctx_profile (conf_val f)
            end
          else scan_profile rest de_ctx_profile sgh_mpm_context
      end
  end.

Definition profile_of (de_ctx_profile : option string) : engine_profile :=
  match de_ctx_profile with
  | None => ENGINE_PROFILE_UNKNOWN
  | Some p =>
      if strcmp_eq p "low" then ENGINE_PROFILE_LOW
      else if strcmp_eq p "medium" then ENGINE_PROFILE_MEDIUM
      else if strcmp_eq p "high" then ENGINE_PROFILE_HIGH
      else if strcmp_eq p "custom" then ENGINE_PROFILE_CUSTOM
      else ENGINE_PROFILE_UNKNOWN
  end.

(** The eight [max_uniq_*_groups_str] locals, in the order of
    [group_limits]. *)
Definition custom_keys : list string :=
  [ "toclient-src-groups"; "toclient-dst-groups"; "toclient-sp-groups";
    "toclient-dp-groups"; "toserver-src-groups"; "toserver-dst-groups";
    "toserver-sp-groups"; "toserver-dp-groups" ]%string.

Fixpoint lookup_custom (first : option ConfNode) (keys : list string)
  : outcome (list (option string)) :=
  match keys with
  | [] => Ret []
  | k :: ks =>
      let! v := ConfNodeLookupChildValue first k in
      let! vs := lookup_custom first ks in
      Ret (v :: vs)
  end.

(** The loop at lines 1026-1045. *)
Fixpoint scan_custom (opts : list ConfNode) (strs : list (option string))
  : outcome (list (option string)) :=
  match opts with
  | [] => Ret strs
  | opt :: rest =>
      match conf_val opt with
      | None => Undef
      | Some v =>
          if strcmp_eq v "custom-values" then
            let! strs' := lookup_custom (tqh_first opt) custom_keys in
            scan_custom rest strs'
          else scan_custom rest strs
      end
  end.

(** One of the eight blocks at lines 1046-1149: the value of the field
    after the block, [old] being its value before. *)
Definition load_custom_limit (ext : externals) (str : option string)
    (medium old : Z) : Z :=
  match str with
  | Some s =>
      let '(r, stored) := ByteExtractStringUint16 ext 10 (strlen16 s) s in
      if r <=? 0 then medium
      else match stored with
           | Some v => v
           | None => old
           end
  | None => medium
  end.

Definition medium_limits : list Z := [4; 4; 4; 6; 4; 8; 4; 30].

Definition set_group_limits_list (l : list Z) (c : DetectEngineCtx) : DetectEngineCtx :=
  match l with
  | [a; b; c0; d; e; f; g; h] => set_group_limits a b c0 d e f g h c
  | _ => c
  end.

Fixpoint load_custom_limits (ext : externals) (strs : list (option string))
    (mediums olds : list Z) : list Z :=
  match strs, mediums, olds with
  | s :: strs', m :: mediums', o :: olds' =>
      load_custom_limit ext s m o :: load_custom_limits ext strs' mediums' olds'
  | _, _, _ => []
  end.

(** The return value and the context after the call, for a build without
    [__SC_CUDA_SUPPORT__]. *)
Definition DetectEngineCtxLoadConf (ext : externals) (conf : ConfNode)
    (de_ctx : DetectEngineCtx) : outcome (Z * DetectEngineCtx) :=
  let de_ctx_custom := ConfGetNode conf "detect-engine" in
  let! found :=
    match de_ctx_custom with
    | Some n => scan_profile (conf_head n) None None
    | None => Ret (None, None)
    end in
  let de_ctx_profile := fst found in
  let sgh_mpm_context := snd found in
  let profile := profile_of de_ctx_profile in
  let auto :=
    if (mpm_matcher de_ctx =? DEFAULT_MPM ext) ||
       (mpm_matcher de_ctx =? MPM_AC_GFBS ext) ||
       (mpm_matcher de_ctx =? MPM_AC_BS ext)
    then ENGINE_SGH_MPM_FACTORY_CONTEXT_SINGLE
    else ENGINE_SGH_MPM_FACTORY_CONTEXT_FULL in
  let! sgh :=
    match sgh_mpm_context with
    | None => Ret auto
    | Some s =>
        if strcmp_eq s "auto" then Ret auto
        else if strcmp_eq s "single" then Ret ENGINE_SGH_MPM_FACTORY_CONTEXT_SINGLE
        else if strcmp_eq s "full" then Ret ENGINE_SGH_MPM_FACTORY_CONTEXT_FULL
        else Exit
    end in
  let sgh := if run_mode_is_unittest ext
             then ENGINE_SGH_MPM_FACTORY_CONTEXT_FULL else sgh in
  let de_ctx := set_sgh_mpm_context sgh de_ctx in
  let! de_ctx :=
    match profile with
    | ENGINE_PROFILE_LOW => Ret (set_group_limits 2 2 2 3 2 2 2 3 de_ctx)
    | ENGINE_PROFILE_HIGH => Ret (set_group_limits 15 15 15 20 15 15 15 40 de_ctx)
    | ENGINE_PROFILE_CUSTOM =>
        match de_ctx_custom with
        | None => Undef
        | Some n =>
            let! strs := scan_custom (conf_head n) (repeat None 8) in
            Ret (set_group_limits_list
                   (load_custom_limits ext strs medium_limits (group_limits de_ctx))
                   de_ctx)
        end
    | ENGINE_PROFILE_MEDIUM | ENGINE_PROFILE_UNKNOWN =>
        Ret (set_group_limits 4 4 4 6 4 8 4 30 de_ctx)
    end in
  match profile with
  | ENGINE_PROFILE_UNKNOWN => Ret (0, de_ctx)
  | _ => Ret (1, de_ctx)
  end.

Definition DETECT_ENGINE_DEFAULT_INSPECTION_RECURSION_LIMIT : Z := 3000.

(** The context returned ([None] for [NULL]) and the counter
    [detect_engine_ctx_id] after the call. *)
Definition DetectEngineCtxInitReal (ext : externals) (conf : ConfNode)
    (minimal_arg : Z) (prefix : option string) (detect_engine_ctx_id : Z)
  : outcome (option DetectEngineCtx * Z) :=
  if negb (malloc_de_ctx_ok ext) then Ret (None, detect_engine_ctx_id)
  else
    let de_ctx := DetectEngineCtx_zero in
    if negb (minimal_arg =? 0) then
      Ret (Some (set_identity 1 detect_engine_ctx_id de_ctx),
           wrap_uint32 (detect_engine_ctx_id + 1))
    else
      let config_prefix :=
        match prefix with
        | Some p => strlcpy p (sizeof_config_prefix ext)
        | None => config_prefix de_ctx
        end in
      let failure_fatal :=
        match ConfGetBool ext "engine.init-failure-fatal" with
        | Some v => v
        | None => failure_fatal de_ctx
        end in
      let! insp_recursion_limit :=
        match ConfGetNode conf "detect-engine" with
        | Some de_engine_node => find_insp_recursion_limit (conf_head de_engine_node)
        | None => Ret None
        end in
      let limit :=
        match insp_recursion_limit with
        | Some s => atoi s
        | None => DETECT_ENGINE_DEFAULT_INSPECTION_RECURSION_LIMIT
        end in
      let limit := if limit =? 0 then -1 else limit in
      let de_ctx :=
        set_config config_prefix failure_fatal limit
                   (PatternMatchDefaultMatcher ext) de_ctx in
      let! loaded := DetectEngineCtxLoadConf ext conf de_ctx in
      let de_ctx := snd loaded in
      if negb (mpm_pattern_id_store_ok ext) then Ret (None, detect_engine_ctx_id)
      else if ActionInitConfig ext <? 0 then Ret (None, detect_engine_ctx_id)
      else Ret (Some (set_identity (minimal de_ctx) detect_engine_ctx_id de_ctx),
                wrap_uint32 (detect_engine_ctx_id + 1)).

Definition DetectEngineCtxInitMinimal (ext : externals) (conf : ConfNode)
    (detect_engine_ctx_id : Z) : outcome (option DetectEngineCtx * Z) :=
  DetectEngineCtxInitReal ext conf 1 None detect_engine_ctx_id.

Definition DetectEngineCtxInit (ext : externals) (conf : ConfNode)
    (detect_engine_ctx_id : Z) : outcome (option DetectEngineCtx * Z) :=
  DetectEngineCtxInitReal ext conf 0 None detect_engine_ctx_id.

(** Modelled from the spec: [util-byte.c] is not among the sources.  The
    helper parses the first [len] characters of [str] as an unsigned number
    in the given base that must fit 16 bits; it returns the number of
    characters it consumed, or [-1] when there is no digit to read or the
    number does not fit. *)
Fixpoint digits_prefix (base : Z) (s : string) (acc : Z) (n : Z) : Z * Z :=
  match s with
  | String c s' =>
      match digit_of c with
      | Some d => if d <? base then digits_prefix base s' (base * acc + d) (n + 1)
                  else (acc, n)
      | None => (acc, n)
      end
  | EmptyString => (acc, n)
  end.

Definition ByteExtractStringUint16_model (base len : Z) (str : string)
  : Z * option Z :=
  let '(v, n) := digits_prefix base (substring 0 (Z.to_nat len) str) 0 0 in
  if n =? 0 then (-1, None)
  else if v <=? 65535 then (n, Some v)
  else (-1, None).

(** ** Thread contexts and their keyword slots (lines 1187-1212, 1564-1570)

    [keyword_ctxs_array] is [None] for [NULL], else the allocated array of
    pointers, a pointer being its address and [0] for [NULL]. *)

Inductive TmEcode : Type := TM_ECODE_OK | TM_ECODE_FAILED | TM_ECODE_DONE.

Record DetectEngineThreadCtx : Type := {
  keyword_ctxs_size : Z;                       (* int *)
  keyword_ctxs_array : option (list Z)
}.

Definition DetectEngineThreadCtx_zero : DetectEngineThreadCtx :=
  {| keyword_ctxs_size := 0; keyword_ctxs_array := None |}.

(** [array[i]] read and written; outside the array both are undefined. *)
Definition array_get (a : list Z) (i : Z) : outcome Z :=
  if i <? 0 then Undef
  else match a !! Z.to_nat i with
       | Some v => Ret v
       | None => Undef
       end.

Definition array_set (a : list Z) (i : Z) (v : Z) : outcome (list Z) :=
  if (i <? 0) || (Z.of_nat (length a) <=? i) then Undef
  else Ret (<[Z.to_nat i := v]> a).

(** The [while (item)] loop of [DetectEngineThreadCtxInitKeywords]. *)
Fixpoint init_keyword_items (items : list DetectEngineThreadKeywordCtxItem)
    (a : list Z) : outcome (TmEcode * list Z) :=
  match items with
  | [] => Ret (TM_ECODE_OK, a)
  | item :: rest =>
      let v := InitFunc item (item_data item) in
      let! a' := array_set a (item_id item) v in
      if v =? 0 then Ret (TM_ECODE_FAILED, a')
      else init_keyword_items rest a'
  end.

Definition DetectEngineThreadCtxInitKeywords (malloc_ok : bool)
    (de_ctx : DetectEngineCtx) (det_ctx : DetectEngineThreadCtx)
  : outcome (TmEcode * DetectEngineThreadCtx) :=
  if keyword_id de_ctx >? 0 then
    if negb malloc_ok then Ret (TM_ECODE_FAILED, det_ctx)
    else
      let a := replicate (Z.to_nat (keyword_id de_ctx)) 0 in
      let! r := init_keyword_items (keyword_list de_ctx) a in
      Ret (fst r, {| keyword_ctxs_size := keyword_id de_ctx;
                     keyword_ctxs_array := Some (snd r) |})
  else Ret (TM_ECODE_OK, det_ctx).

Definition DetectThreadCtxGetKeywordThreadCtx (det_ctx : DetectEngineThreadCtx)
    (id : Z) : outcome Z :=
  if (id <? 0) || (id >? keyword_ctxs_size det_ctx) ||
     bool_decide (keyword_ctxs_array det_ctx = None)
  then Ret 0
  else match keyword_ctxs_array det_ctx with
       | Some a => array_get a id
       | None => Undef
       end.

(** Assignment to the two keyword fields of an engine context. *)
Definition set_keywords (kid : Z) (kl : list DetectEngineThreadKeywordCtxItem)
    (c : DetectEngineCtx) : DetectEngineCtx :=
  {| minimal := minimal c; ctx_id := ctx_id c; config_prefix := config_prefix c;
     failure_fatal := failure_fatal c;
     inspection_recursion_limit := inspection_recursion_limit c;
     mpm_matcher := mpm_matcher c; sgh_mpm_context := sgh_mpm_context c;
     max_uniq_toclient_src_groups := max_uniq_toclient_src_groups c;
     max_uniq_toclient_dst_groups := max_uniq_toclient_dst_groups c;
     max_uniq_toclient_sp_groups := max_uniq_toclient_sp_groups c;
     max_uniq_toclient_dp_groups := max_uniq_toclient_dp_groups c;
     max_uniq_toserver_src_groups := max_uniq_toserver_src_groups c;
     max_uniq_toserver_dst_groups := max_uniq_toserver_dst_groups c;
     max_uniq_toserver_sp_groups := max_uniq_toserver_sp_groups c;
     max_uniq_toserver_dp_groups := max_uniq_toserver_dp_groups c;
     keyword_id := kid; keyword_list := kl;
     ref_cnt := ref_cnt c; next := next c |}.

(** [DetectRegisterThreadCtxFuncs] (lines 1524-1554): the id returned and
    the context after the call.  [de_ctx] and [InitFunc] are [None] for
    [NULL]; [FreeFunc] and [data] are addresses. *)
Definition DetectRegisterThreadCtxFuncs (malloc_ok : bool)
    (de_ctx : option DetectEngineCtx) (name : string)
    (InitFunc : option (Z -> Z)) (data : Z) (FreeFunc : Z) (mode : Z)
  : outcome (Z * option DetectEngineCtx) :=
  match de_ctx, InitFunc with
  | Some c, Some init =>
      if (FreeFunc =? 0) || (data =? 0) then Exit
      else
        match (if mode =? 0 then None
               else find (fun item => strcmp_eq name (item_name item))
                         (keyword_list c)) with
        | Some item => Ret (item_id item, Some c)
        | None =>
            if negb malloc_ok then Ret (-1, Some c)
            else
              let item := {| InitFunc := init; item_data := data;
                             item_name := name; item_id := keyword_id c |} in
              Ret (keyword_id c,
                   Some (set_keywords (keyword_id c + 1) (item :: keyword_list c) c))
        end
  | _, _ => Exit
  end.

(** A context with one registered keyword, whose init function returns the
    address after its data, and the thread context set up for it. *)
Definition example_keyword_ctx : DetectEngineCtx :=
  match DetectRegisterThreadCtxFuncs true (Some DetectEngineCtx_zero) "example"
          (Some (fun data => data + 1)) 4096 8192 0 with
  | Ret (_, Some c) => c
  | _ => DetectEngineCtx_zero
  end.

Definition example_det_ctx : DetectEngineThreadCtx :=
  match DetectEngineThreadCtxInitKeywords true example_keyword_ctx
          DetectEngineThreadCtx_zero with
  | Ret (_, d) => d
  | _ => DetectEngineThreadCtx_zero
  end.

(** ** The master registry (lines 1588-1731)

    [g_master_de_ctx] holds the heads of the active list and of the free
    list; the nodes are engine contexts in the heap, linked through [next].
    Every operation below runs with the master lock held, so it is a function
    of the registry and the heap. *)

Record DetectEngineMasterCtx : Type := {
  m_list : option loc;         (* master->list *)
  m_free_list : option loc     (* master->free_list *)
}.

Abbreviation heap := (gmap positive DetectEngineCtx) (only parsing).

Definition master_init : DetectEngineMasterCtx :=
  {| m_list := None; m_free_list := None |}.

(** Reading through a pointer to a context. *)
Definition load (h : heap) (p : loc) : outcome DetectEngineCtx :=
  match h !! p with
  | Some c => Ret c
  | None => Undef
  end.

Definition DetectEngineEnabled (master : DetectEngineMasterCtx) : Z :=
  match m_list master with
  | None => 0
  | Some _ => 1
  end.

Definition DetectEngineGetCurrent (master : DetectEngineMasterCtx) (h : heap)
  : outcome (option loc * heap) :=
  match m_list master with
  | None => Ret (None, h)
  | Some p =>
      let! c := load h p in
      Ret (Some p, <[p := set_ref_cnt (wrap_uint32 (ref_cnt c + 1)) c]> h)
  end.

Definition DetectEngineReference (de_ctx : option loc) (h : heap)
  : outcome (option loc * heap) :=
  match de_ctx with
  | None => Ret (None, h)
  | Some p =>
      let! c := load h p in
      Ret (Some p, <[p := set_ref_cnt (wrap_uint32 (ref_cnt c + 1)) c]> h)
  end.

(** The caller's pointer is set to [NULL]; the heap after the call. *)
Definition DetectEngineDeReference (de_ctx : option loc) (h : heap) : outcome heap :=
  match de_ctx with
  | None => Undef
  | Some p =>
      let! c := load h p in
      if ref_cnt c =? 0 then Exit
      else Ret (<[p := set_ref_cnt (wrap_uint32 (ref_cnt c - 1)) c]> h)
  end.

Definition DetectEngineAddToList (instance : option loc)
    (master : DetectEngineMasterCtx) (h : heap)
  : outcome (Z * DetectEngineMasterCtx * heap) :=
  match instance with
  | None => Ret (-1, master, h)
  | Some i =>
      match m_list master with
      | None =>
          Ret (0, {| m_list := Some i; m_free_list := m_free_list master |}, h)
      | Some l =>
          let! c := load h i in
          Ret (0, {| m_list := Some i; m_free_list := m_free_list master |},
               <[i := set_next (Some l) c]> h)
      end
  end.

Definition DetectEngineAddToMaster (de_ctx : option loc)
    (master : DetectEngineMasterCtx) (h : heap)
  : outcome (Z * DetectEngineMasterCtx * heap) :=
  match de_ctx with
  | None => Ret (-1, master, h)
  | Some _ => DetectEngineAddToList de_ctx master h
  end.

(** The [while (instance)] loop at lines 1670-1680: the heap and the value of
    [instance] when the loop is left. *)
Fixpoint unlink_loop (fuel : nat) (de_ctx : option loc) (prev : loc)
    (instance : option loc) (h : heap) : outcome (option loc * heap) :=
  match fuel with
  | O => OutOfFuel
  | S fuel' =>
      match instance with
      | None => Ret (None, h)
      | Some i =>
          let! c := load h i in
          let next_ := next c in
          if decide (Some i = de_ctx) then
            let! pc := load h prev in
            Ret (Some i, <[prev := set_next (next c) pc]> h)
          else unlink_loop fuel' de_ctx i next_ h
      end
  end.

(** Lines 1687-1700: the detached [instance] becomes the head of the free
    list. *)
Definition add_to_free_list (instance : loc)
    (master : DetectEngineMasterCtx) (h : heap)
  : outcome (Z * DetectEngineMasterCtx * heap) :=
  (* instance is now detached from list *)
  let! c := load h instance in
  let h1 := <[instance := set_next None c]> h in
  match m_free_list master with
  | None =>
      Ret (0, {| m_list := m_list master; m_free_list := Some instance |}, h1)
  | Some f =>
      let! c1 := load h1 instance in
      Ret (0, {| m_list := m_list master; m_free_list := Some instance |},
           <[instance := set_next (Some f) c1]> h1)
  end.

Definition DetectEngineMoveToFreeList (fuel : nat) (de_ctx : option loc)
    (master : DetectEngineMasterCtx) (h : heap)
  : outcome (Z * DetectEngineMasterCtx * heap) :=
  match m_list master with
  | None => Ret (-1, master, h)
  | Some first =>
      (* remove from active list *)
      let! detached :=
        if decide (Some first = de_ctx) then
          let! c := load h first in
          Ret (Some first,
               {| m_list := next c; m_free_list := m_free_list master |}, h)
        else
          let! c := load h first in
          let! r := unlink_loop fuel de_ctx first (next c) h in
          Ret (fst r, master, snd r) in
      match detached with
      | (None, _, _) => Ret (-1, master, h)
      | (Some instance, master1, h1) => add_to_free_list instance master1 h1
      end
  end.

(** [DetectEngineCtxFree] releases the storage of the context. *)
Definition DetectEngineCtxFree (instance : loc) (h : heap) : heap :=
  delete instance h.

(** The [while (instance)] loop of [DetectEnginePruneFreeList]. *)
Fixpoint prune_loop (fuel : nat) (prev instance : option loc)
    (master : DetectEngineMasterCtx) (h : heap)
  : outcome (DetectEngineMasterCtx * heap) :=
  match fuel with
  | O => OutOfFuel
  | S fuel' =>
      match instance with
      | None => Ret (master, h)
      | Some i =>
          let! c := load h i in
          let next_ := next c in
          if ref_cnt c =? 0 then
            let! unlinked :=
              match prev with
              | None =>
                  Ret ({| m_list := m_list master; m_free_list := next_ |}, h)
              | Some p =>
                  let! pc := load h p in
                  Ret (master, <[p := set_next next_ pc]> h)
              end in
            let h' := DetectEngineCtxFree i (snd unlinked) in
            (* instance = NULL; prev = instance; instance = next; *)
            prune_loop fuel' None next_ (fst unlinked) h'
          else
            prune_loop fuel' (Some i) next_ master h
      end
  end.

Definition DetectEnginePruneFreeList (fuel : nat)
    (master : DetectEngineMasterCtx) (h : heap)
  : outcome (DetectEngineMasterCtx * heap) :=
  prune_loop fuel None (m_free_list master) master h.

(** A heap list: [p] is the head of the [NULL]-terminated list whose nodes
    are, in order, at the locations [l]. *)
Fixpoint is_list (h : heap) (p : option loc) (l : list loc) : Prop :=
  match l with
  | [] => p = None
  | x :: l' => p = Some x /\ exists c, h !! x = Some c /\ is_list h (next c) l'
  end.

(** The nodes reached from [p] in at most [fuel] steps, for running the
    model on a concrete heap. *)
Fixpoint list_nodes (fuel : nat) (h : heap) (p : option loc) : list loc :=
  match fuel, p with
  | S fuel', Some x =>
      x :: match h !! x with
           | Some c => list_nodes fuel' h (next c)
           | None => []
           end
  | _, _ => []
  end.

(** The registry invariant: both lists are well formed and no context is on
    both. *)
Definition registry_lists (master : DetectEngineMasterCtx) (h : heap)
    (active free : list loc) : Prop :=
  is_list h (m_list master) active /\
  is_list h (m_free_list master) free /\
  forall x, x ∈ active -> x ∈ free -> False.

(** The same call with another outcome of its allocation. *)
Definition with_malloc (b : bool) (c : register_call) : register_call :=
  {| rc_ipproto := rc_ipproto c; rc_alproto := rc_alproto c; rc_dir := rc_dir c;
     rc_sm_list := rc_sm_list c; rc_inspect_flags := rc_inspect_flags c;
     rc_Callback := rc_Callback c; rc_malloc_ok := b |}.

(** An instance of the missing constants for running the registry on
    concrete calls: the protocol numbers 6, 17, 1 and 132 have a table row of
    their own and all others share one; application protocols range over
    1..15 and sub-match lists over 0..26. *)
Definition example_proto_mapping (proto : Z) : Z :=
  if proto =? 6 then 0
  else if proto =? 17 then 1
  else if proto =? 1 then 2
  else if proto =? 132 then 3
  else 4.

Definition example_Register : register_call -> app_table -> outcome app_table :=
  RegisterEngine example_proto_mapping 0 16 0 27.

Definition example_call (d sm flags cb : Z) : register_call :=
  {| rc_ipproto := 6; rc_alproto := 1; rc_dir := d; rc_sm_list := sm;
     rc_inspect_flags := flags; rc_Callback := cb; rc_malloc_ok := true |}.

Definition example_engine (d sm flags cb : Z) : DetectEngineAppInspectionEngine :=
  {| ipproto := 6; alproto := 1; dir := d; sm_list := sm;
     inspect_flags := flags; Callback := cb |}.

(** The table after the single registration of scenario S4. *)
Definition example_table : app_table :=
  <[(0, 1, 0) := [example_engine 0 2 1 100]]> ∅.

(** The value a mapping gives to a key: that of its first field of this
    name. *)
Definition field_value (key : string) (fields : list (string * string))
  : option string :=
  snd <$> find (fun kv => strcmp_eq (fst kv) key) fields.

(** The key of a sequence entry is not [key]. *)
Definition other_key (key : string) (n : ConfNode) : Prop :=
  conf_val n <> Some key.

(** An instance of what the build takes from outside, for running it on
    the configurations of the unit tests: no [engine.init-failure-fatal]
    key, the default matcher, no allocation failure, and the parser modelled
    above. *)
Definition example_externals : externals := {|
  ConfGetBool := fun _ => None;
  PatternMatchDefaultMatcher := 1;
  DEFAULT_MPM := 1;
  MPM_AC_GFBS := 5;
  MPM_AC_BS := 6;
  run_mode_is_unittest := true;
  ByteExtractStringUint16 := ByteExtractStringUint16_model;
  malloc_de_ctx_ok := true;
  mpm_pattern_id_store_ok := true;
  ActionInitConfig := 0;
  sizeof_config_prefix := 64
|}.

Definition test_custom_values_medium : ConfNode :=
  yaml_mapping_entry "1" "custom-values"
    [ ("toclient_src_groups", "2"); ("toclient_dst_groups", "2");
      ("toclient_sp_groups", "2"); ("toclient_dp_groups", "3");
      ("toserver_src_groups", "2"); ("toserver_dst_groups", "4");
      ("toserver_sp_groups", "2"); ("toserver_dp_groups", "25") ]%string.

(** The configurations of DetectEngineTest01, 03, 04, 08 and 09. *)
Definition conf_test01 : ConfNode :=
  yaml_root [ yaml_scalar_entry "0" "profile" "medium";
              test_custom_values_medium;
              yaml_scalar_entry "2" "inspection-recursion-limit" "0" ].

Definition conf_test03 : ConfNode :=
  yaml_root [ yaml_scalar_entry "0" "profile" "medium";
              test_custom_values_medium ].

Definition conf_test04 : ConfNode :=
  yaml_root [ yaml_scalar_entry "0" "profile" "medium";
              test_custom_values_medium;
              yaml_scalar_entry "2" "inspection-recursion-limit" "10" ].

Definition fields_test08 : list (string * string) :=
  [ ("toclient-src-groups", "20"); ("toclient-dst-groups", "21");
    ("toclient-sp-groups", "22"); ("toclient-dp-groups", "23");
    ("toserver-src-groups", "24"); ("toserver-dst-groups", "25");
    ("toserver-sp-groups", "26"); ("toserver-dp-groups", "27") ]%string.

Definition conf_test08 : ConfNode :=
  yaml_root [ yaml_scalar_entry "0" "profile" "custom";
              yaml_mapping_entry "1" "custom-values" fields_test08 ].

Definition fields_test09 : list (string * string) :=
  [ ("toclient-src-groups", "BA"); ("toclient-dst-groups", "BA");
    ("toclient-sp-groups", "BA"); ("toclient-dp-groups", "BA");
    ("toserver-src-groups", "BA"); ("toserver-dst-groups", "BA");
    ("toserver-sp-groups", "BA"); ("toserver-dp-groups", "BA") ]%string.

Definition conf_test09 : ConfNode :=
  yaml_root [ yaml_scalar_entry "0" "profile" "custom";
              yaml_mapping_entry "1" "custom-values" fields_test09;
              yaml_scalar_entry "2" "inspection-recursion-limit" "10" ].

(** The context a build returned, with a dummy where it returned none. *)
Definition built (o : outcome (option DetectEngineCtx * Z)) : DetectEngineCtx :=
  match o with
  | Ret (Some c, _) => c
  | _ => DetectEngineCtx_zero
  end.

(** Every node of a chain carries the direction of its cell. *)
Definition table_dirs (list : app_table) : Prop :=
  forall p a d e, e ∈ cell list p a d -> dir e = d.

(** No chain holds two nodes with the same [sm_list], nor two with the same
    [inspect_flags]. *)
Definition table_nodup (list : app_table) : Prop :=
  forall p a d,
    NoDup (sm_list <$> cell list p a d) /\
    NoDup (inspect_flags <$> cell list p a d).

(** The limit stored for the value string found in the configuration, [None]
    where none was found (lines 754-762). *)
Definition limit_of (r : option string) : Z :=
  let limit := match r with
               | Some s => atoi s
               | None => DETECT_ENGINE_DEFAULT_INSPECTION_RECURSION_LIMIT
               end in
  if limit =? 0 then -1 else limit.

(** A context with the given reference count and link, for concrete heaps. *)
Definition example_node (refs : Z) (nx : option loc) : DetectEngineCtx :=
  set_next nx (set_ref_cnt refs DetectEngineCtx_zero).

(** A registry whose free list holds a context still referenced once,
    followed by two that are not referenced any more. *)
Definition prune_example_master : DetectEngineMasterCtx :=
  {| m_list := None; m_free_list := Some 1%positive |}.

Definition prune_example_heap : heap :=
  <[1%positive := example_node 1 (Some 2%positive)]>
    (<[2%positive := example_node 0 (Some 3%positive)]>
       (<[3%positive := example_node 0 None]> ∅)).

(** A registry with two active contexts and one retired, for running the
    list operations. *)
Definition move_example_master : DetectEngineMasterCtx :=
  {| m_list := Some 1%positive; m_free_list := Some 3%positive |}.

Definition move_example_heap : heap :=
  <[1%positive := example_node 2 (Some 2%positive)]>
    (<[2%positive := example_node 1 None]>
       (<[3%positive := example_node 1 None]> ∅)).

(** ** Further notions for the master registry *)

(** The reference count of the context at [x], 0 where there is none. *)
Definition ref_of (h : heap) (x : loc) : Z :=
  match h !! x with
  | Some c => ref_cnt c
  | None => 0
  end.

(** The nodes of a list that are still referenced. *)
Definition referenced (refs : loc -> Z) (l : list loc) : list loc :=
  filter (fun x => refs x <> 0) l.

(** The free lists on which the prune is exact: once a referenced context
    has been met ([seen]), an unreferenced context is never directly
    followed by another unreferenced one. *)
Fixpoint prune_exact_on (refs : loc -> Z) (seen : bool) (l : list loc) : Prop :=
  match l with
  | [] => True
  | x :: t =>
      if decide (refs x = 0) then
        match t with
        | y :: _ => seen = true -> refs y <> 0
        | [] => True
        end /\ prune_exact_on refs seen t
      else prune_exact_on refs true t
  end.

(** The registry calls of [DetectEngineReload] (lines 1773, 1795, 1798 and
    1799) in their order, for a new context [new_de_ctx] that the build in
    between has allocated: take a reference to the current context, add the
    new one to the master, move the old one to the free list and drop the
    reference again.  [None] where the reload stops for want of a current
    context. *)
Definition reload_swap (fuel : nat) (new_de_ctx : loc)
    (master : DetectEngineMasterCtx) (h : heap)
  : outcome (option (DetectEngineMasterCtx * heap)) :=
  let! cur := DetectEngineGetCurrent master h in
  match fst cur with
  | None => Ret None
  | Some old_de_ctx =>
      let! added := DetectEngineAddToMaster (Some new_de_ctx) master (snd cur) in
      let! moved := DetectEngineMoveToFreeList fuel (Some old_de_ctx)
                      (snd (fst added)) (snd added) in
      let! h' := DetectEngineDeReference (Some old_de_ctx) (snd moved) in
      Ret (Some (snd (fst moved), h'))
  end.

(** A registry with one active context referenced by one worker, and a
    freshly built context that is on no list yet. *)
Definition reload_example_master : DetectEngineMasterCtx :=
  {| m_list := Some 1%positive; m_free_list := None |}.

Definition reload_example_heap : heap :=
  <[1%positive := example_node 1 None]>
    (<[2%positive := example_node 0 None]> ∅).

(** A free list with a referenced context between two unreferenced ones. *)
Definition prune_mixed_master : DetectEngineMasterCtx :=
  {| m_list := Some 4%positive; m_free_list := Some 1%positive |}.

Definition prune_mixed_heap : heap :=
  <[1%positive := example_node 0 (Some 2%positive)]>
    (<[2%positive := example_node 3 (Some 3%positive)]>
       (<[3%positive := example_node 0 None]>
          (<[4%positive := example_node 1 None]> ∅))).

(** ** Further notions for the thread keywords *)

(** The ids [n-1], ..., [0], as the keyword list of a context carries them
    after [n] items were put in front one by one. *)
Fixpoint ids_below (n : nat) : list Z :=
  match n with
  | O => []
  | S k => Z.of_nat k :: ids_below k
  end.

(** Engine contexts as keyword registrations leave them, starting from a
    context without keywords. *)
Inductive keywords_registered : DetectEngineCtx -> Prop :=
| keywords_none c :
    keyword_id c = 0 -> keyword_list c = [] -> keywords_registered c
| keywords_call c malloc_ok name init data free_fn mode id c' :
    keywords_registered c ->
    DetectRegisterThreadCtxFuncs malloc_ok (Some c) name init data free_fn mode
    = Ret (id, Some c') ->
    keywords_registered c'.

(** The [while (item)] loop of [DetectEngineThreadCtxDeinitKeywords] (lines
    1214-1228): the calls [item->FreeFunc(ptr)] it makes, each as the id of
    the item and the pointer handed over.  [a] is the array, [None] for
    [NULL], which the loop reads for every item. *)
Fixpoint deinit_keyword_items (items : list DetectEngineThreadKeywordCtxItem)
    (a : option (list Z)) : outcome (list (Z * Z)) :=
  match items with
  | [] => Ret []
  | item :: rest =>
      match a with
      | None => Undef
      | Some arr =>
          let! v := array_get arr (item_id item) in
          let! freed := deinit_keyword_items rest a in
          Ret (if v =? 0 then freed else (item_id item, v) :: freed)
      end
  end.

(** The [FreeFunc] calls made and the thread context after the call. *)
Definition DetectEngineThreadCtxDeinitKeywords
    (de_ctx : DetectEngineCtx) (det_ctx : DetectEngineThreadCtx)
  : outcome (list (Z * Z) * DetectEngineThreadCtx) :=
  if keyword_id de_ctx >? 0 then
    let! freed := deinit_keyword_items (keyword_list de_ctx)
                    (keyword_ctxs_array det_ctx) in
    Ret (freed, {| keyword_ctxs_size := 0; keyword_ctxs_array := None |})
  else Ret ([], det_ctx).

(** [DetectEngineCtxFreeThreadKeywordData] (lines 825-834). *)
Definition DetectEngineCtxFreeThreadKeywordData (de_ctx : DetectEngineCtx)
  : DetectEngineCtx :=
  set_keywords (keyword_id de_ctx) [] de_ctx.

(** A context with two keywords, the first registered twice in shared
    mode. *)
Definition example_two_keywords : DetectEngineCtx :=
  match
    (let! r1 := DetectRegisterThreadCtxFuncs true (Some DetectEngineCtx_zero)
                  "first" (Some (fun data => data + 1)) 4096 8192 1 in
     let! r2 := DetectRegisterThreadCtxFuncs true (snd r1)
                  "second" (Some (fun data => data + 2)) 4100 8192 0 in
     DetectRegisterThreadCtxFuncs true (snd r2)
       "first" (Some (fun data => data + 3)) 4200 8192 1)
  with
  | Ret (_, Some c) => c
  | _ => DetectEngineCtx_zero
  end.

(** ** Further notions for the build *)

(** [DetectEngineCtxInitWithPrefix] (lines 817-823). *)
Definition DetectEngineCtxInitWithPrefix (ext : externals) (conf : ConfNode)
    (prefix : option string) (detect_engine_ctx_id : Z)
  : outcome (option DetectEngineCtx * Z) :=
  match prefix with
  | None => DetectEngineCtxInit ext conf detect_engine_ctx_id
  | Some p =>
      if Nat.eqb (String.length p) 0
      then DetectEngineCtxInit ext conf detect_engine_ctx_id
      else DetectEngineCtxInitReal ext conf 0 (Some p) detect_engine_ctx_id
  end.

(** The group-sharing mode that [DetectEngineCtxLoadConf] derives from the
    matcher and the configured [sgh-mpm-context] value (lines 962-995),
    before the run mode is looked at. *)
Definition sgh_mpm_context_of (ext : externals) (matcher : Z)
    (sgh_mpm_context : option string) : outcome sgh_mpm_context_t :=
  let auto :=
    if (matcher =? DEFAULT_MPM ext) || (matcher =? MPM_AC_GFBS ext) ||
       (matcher =? MPM_AC_BS ext)
    then ENGINE_SGH_MPM_FACTORY_CONTEXT_SINGLE
    else ENGINE_SGH_MPM_FACTORY_CONTEXT_FULL in
  match sgh_mpm_context with
  | None => Ret auto
  | Some s =>
      if strcmp_eq s "auto" then Ret auto
      else if strcmp_eq s "single" then Ret ENGINE_SGH_MPM_FACTORY_CONTEXT_SINGLE
      else if strcmp_eq s "full" then Ret ENGINE_SGH_MPM_FACTORY_CONTEXT_FULL
      else Exit
  end.

(** A sequence entry as the YAML loader makes it: it has a value (its key)
    and at least one child. *)
Definition entry_ok (n : ConfNode) : Prop :=
  is_Some (conf_val n) /\ is_Some (tqh_first n).

(** The group limits of the profiles [low] and [high]. *)
Definition low_limits : list Z := [2; 2; 2; 3; 2; 2; 2; 3].
Definition high_limits : list Z := [15; 15; 15; 20; 15; 15; 15; 40].

(** The configuration of DetectEngineTest02: the key with an empty value. *)
Definition conf_test02 : ConfNode :=
  yaml_root [ yaml_scalar_entry "0" "profile" "medium";
              test_custom_values_medium;
              yaml_scalar_entry "2" "inspection-recursion-limit" EmptyString ].

Definition conf_profile (v : string) : ConfNode :=
  yaml_root [ yaml_scalar_entry "0" "profile" v ].

Definition conf_sgh (v : string) : ConfNode :=
  yaml_root [ yaml_scalar_entry "0" "sgh-mpm-context" v ].

(** The build outside the unit-test run mode. *)
Definition example_externals_live : externals := {|
  ConfGetBool := fun _ => None;
  PatternMatchDefaultMatcher := 1;
  DEFAULT_MPM := 1;
  MPM_AC_GFBS := 5;
  MPM_AC_BS := 6;
  run_mode_is_unittest := false;
  ByteExtractStringUint16 := ByteExtractStringUint16_model;
  malloc_de_ctx_ok := true;
  mpm_pattern_id_store_ok := true;
  ActionInitConfig := 0;
  sizeof_config_prefix := 64
|}.

(** ** The built-in inspection engines (lines 142-348)

    The constants of the two tables come from headers that are not among
    the sources (protocol numbers, application protocols, sub-match lists,
    inspect flags) or are addresses of functions of other files; they are
    gathered in one record. *)

Record builtin_consts : Type := {
  IPPROTO_TCP : Z; IPPROTO_UDP : Z;
  ALPROTO_HTTP : Z; ALPROTO_DNS : Z; ALPROTO_SMTP : Z; ALPROTO_MODBUS : Z;
  DETECT_SM_LIST_UMATCH : Z; DETECT_SM_LIST_HRLMATCH : Z;
  DETECT_SM_LIST_HCBDMATCH : Z; DETECT_SM_LIST_HHDMATCH : Z;
  DETECT_SM_LIST_HRHDMATCH : Z; DETECT_SM_LIST_HMDMATCH : Z;
  DETECT_SM_LIST_HCDMATCH : Z; DETECT_SM_LIST_HRUDMATCH : Z;
  DETECT_SM_LIST_FILEMATCH : Z; DETECT_SM_LIST_HUADMATCH : Z;
  DETECT_SM_LIST_HHHDMATCH : Z; DETECT_SM_LIST_HRHHDMATCH : Z;
  DETECT_SM_LIST_DNSQUERY_MATCH : Z; DETECT_SM_LIST_MODBUS_MATCH : Z;
  DETECT_SM_LIST_FILEDATA : Z; DETECT_SM_LIST_HSMDMATCH : Z;
  DETECT_SM_LIST_HSCDMATCH : Z;
  DE_STATE_FLAG_URI_INSPECT : Z; DE_STATE_FLAG_HRL_INSPECT : Z;
  DE_STATE_FLAG_HCBD_INSPECT : Z; DE_STATE_FLAG_HHD_INSPECT : Z;
  DE_STATE_FLAG_HRHD_INSPECT : Z; DE_STATE_FLAG_HMD_INSPECT : Z;
  DE_STATE_FLAG_HCD_INSPECT : Z; DE_STATE_FLAG_HRUD_INSPECT : Z;
  DE_STATE_FLAG_FILE_TS_INSPECT : Z; DE_STATE_FLAG_HUAD_INSPECT : Z;
  DE_STATE_FLAG_HHHD_INSPECT : Z; DE_STATE_FLAG_HRHHD_INSPECT : Z;
  DE_STATE_FLAG_DNSQUERY_INSPECT : Z; DE_STATE_FLAG_MODBUS_INSPECT : Z;
  DE_STATE_FLAG_FD_SMTP_INSPECT : Z; DE_STATE_FLAG_HSBD_INSPECT : Z;
  DE_STATE_FLAG_FILE_TC_INSPECT : Z; DE_STATE_FLAG_HSMD_INSPECT : Z;
  DE_STATE_FLAG_HSCD_INSPECT : Z;
  DetectEngineInspectPacketUris : Z; DetectEngineInspectHttpRequestLine : Z;
  DetectEngineInspectHttpClientBody : Z; DetectEngineInspectHttpHeader : Z;
  DetectEngineInspectHttpRawHeader : Z; DetectEngineInspectHttpMethod : Z;
  DetectEngineInspectHttpCookie : Z; DetectEngineInspectHttpRawUri : Z;
  DetectFileInspectHttp : Z; DetectEngineInspectHttpUA : Z;
  DetectEngineInspectHttpHH : Z; DetectEngineInspectHttpHRH : Z;
  DetectEngineInspectDnsQueryName : Z; DetectFileInspectSmtp : Z;
  DetectEngineInspectModbus : Z; DetectEngineInspectSMTPFiledata : Z;
  DetectEngineInspectHttpServerBody : Z; DetectEngineInspectHttpStatMsg : Z;
  DetectEngineInspectHttpStatCode : Z
}.

(** One initialiser of [struct tmp_t], as the call made for it; [ok] is
    the outcome of the allocation in that call. *)
Definition tmp_t (ok : bool) (ipproto alproto sm_list inspect_flags dir Callback : Z)
  : register_call :=
  {| rc_ipproto := ipproto; rc_alproto := alproto; rc_dir := dir;
     rc_sm_list := sm_list; rc_inspect_flags := inspect_flags;
     rc_Callback := Callback; rc_malloc_ok := ok |}.

Definition data_toserver (k : builtin_consts) (ok : bool) : list register_call :=
  [ tmp_t ok (IPPROTO_TCP k) (ALPROTO_HTTP k) (DETECT_SM_LIST_UMATCH k)
      (DE_STATE_FLAG_URI_INSPECT k) 0 (DetectEngineInspectPacketUris k);
    tmp_t ok (IPPROTO_TCP k) (ALPROTO_HTTP k) (DETECT_SM_LIST_HRLMATCH k)
      (DE_STATE_FLAG_HRL_INSPECT k) 0 (DetectEngineInspectHttpRequestLine k);
    tmp_t ok (IPPROTO_TCP k) (ALPROTO_HTTP k) (DETECT_SM_LIST_HCBDMATCH k)
      (DE_STATE_FLAG_HCBD_INSPECT k) 0 (DetectEngineInspectHttpClientBody k);
    tmp_t ok (IPPROTO_TCP k) (ALPROTO_HTTP k) (DETECT_SM_LIST_HHDMATCH k)
      (DE_STATE_FLAG_HHD_INSPECT k) 0 (DetectEngineInspectHttpHeader k);
    tmp_t ok (IPPROTO_TCP k) (ALPROTO_HTTP k) (DETECT_SM_LIST_HRHDMATCH k)
      (DE_STATE_FLAG_HRHD_INSPECT k) 0 (DetectEngineInspectHttpRawHeader k);
    tmp_t ok (IPPROTO_TCP k) (ALPROTO_HTTP k) (DETECT_SM_LIST_HMDMATCH k)
      (DE_STATE_FLAG_HMD_INSPECT k) 0 (DetectEngineInspectHttpMethod k);
    tmp_t ok (IPPROTO_TCP k) (ALPROTO_HTTP k) (DETECT_SM_LIST_HCDMATCH k)
      (DE_STATE_FLAG_HCD_INSPECT k) 0 (DetectEngineInspectHttpCookie k);
    tmp_t ok (IPPROTO_TCP k) (ALPROTO_HTTP k) (DETECT_SM_LIST_HRUDMATCH k)
      (DE_STATE_FLAG_HRUD_INSPECT k) 0 (DetectEngineInspectHttpRawUri k);
    tmp_t ok (IPPROTO_TCP k) (ALPROTO_HTTP k) (DETECT_SM_LIST_FILEMATCH k)
      (DE_STATE_FLAG_FILE_TS_INSPECT k) 0 (DetectFileInspectHttp k);
    tmp_t ok (IPPROTO_TCP k) (ALPROTO_HTTP k) (DETECT_SM_LIST_HUADMATCH k)
      (DE_STATE_FLAG_HUAD_INSPECT k) 0 (DetectEngineInspectHttpUA k);
    tmp_t ok (IPPROTO_TCP k) (ALPROTO_HTTP k) (DETECT_SM_LIST_HHHDMATCH k)
      (DE_STATE_FLAG_HHHD_INSPECT k) 0 (DetectEngineInspectHttpHH k);
    tmp_t ok (IPPROTO_TCP k) (ALPROTO_HTTP k) (DETECT_SM_LIST_HRHHDMATCH k)
      (DE_STATE_FLAG_HRHHD_INSPECT k) 0 (DetectEngineInspectHttpHRH k);
    (* DNS *)
    tmp_t ok (IPPROTO_TCP k) (ALPROTO_DNS k) (DETECT_SM_LIST_DNSQUERY_MATCH k)
      (DE_STATE_FLAG_DNSQUERY_INSPECT k) 0 (DetectEngineInspectDnsQueryName k);
    (* specifically for UDP, register again *)
    tmp_t ok (IPPROTO_UDP k) (ALPROTO_DNS k) (DETECT_SM_LIST_DNSQUERY_MATCH k)
      (DE_STATE_FLAG_DNSQUERY_INSPECT k) 0 (DetectEngineInspectDnsQueryName k);
    tmp_t ok (IPPROTO_TCP k) (ALPROTO_SMTP k) (DETECT_SM_LIST_FILEMATCH k)
      (DE_STATE_FLAG_FILE_TS_INSPECT k) 0 (DetectFileInspectSmtp k);
    (* Modbus *)
    tmp_t ok (IPPROTO_TCP k) (ALPROTO_MODBUS k) (DETECT_SM_LIST_MODBUS_MATCH k)
      (DE_STATE_FLAG_MODBUS_INSPECT k) 0 (DetectEngineInspectModbus k);
    (* file_data smtp *)
    tmp_t ok (IPPROTO_TCP k) (ALPROTO_SMTP k) (DETECT_SM_LIST_FILEDATA k)
      (DE_STATE_FLAG_FD_SMTP_INSPECT k) 0 (DetectEngineInspectSMTPFiledata k) ].

Definition data_toclient (k : builtin_consts) (ok : bool) : list register_call :=
  [ tmp_t ok (IPPROTO_TCP k) (ALPROTO_HTTP k) (DETECT_SM_LIST_FILEDATA k)
      (DE_STATE_FLAG_HSBD_INSPECT k) 1 (DetectEngineInspectHttpServerBody k);
    tmp_t ok (IPPROTO_TCP k) (ALPROTO_HTTP k) (DETECT_SM_LIST_HHDMATCH k)
      (DE_STATE_FLAG_HHD_INSPECT k) 1 (DetectEngineInspectHttpHeader k);
    tmp_t ok (IPPROTO_TCP k) (ALPROTO_HTTP k) (DETECT_SM_LIST_HRHDMATCH k)
      (DE_STATE_FLAG_HRHD_INSPECT k) 1 (DetectEngineInspectHttpRawHeader k);
    tmp_t ok (IPPROTO_TCP k) (ALPROTO_HTTP k) (DETECT_SM_LIST_HCDMATCH k)
      (DE_STATE_FLAG_HCD_INSPECT k) 1 (DetectEngineInspectHttpCookie k);
    tmp_t ok (IPPROTO_TCP k) (ALPROTO_HTTP k) (DETECT_SM_LIST_FILEMATCH k)
      (DE_STATE_FLAG_FILE_TC_INSPECT k) 1 (DetectFileInspectHttp k);
    tmp_t ok (IPPROTO_TCP k) (ALPROTO_HTTP k) (DETECT_SM_LIST_HSMDMATCH k)
      (DE_STATE_FLAG_HSMD_INSPECT k) 1 (DetectEngineInspectHttpStatMsg k);
    tmp_t ok (IPPROTO_TCP k) (ALPROTO_HTTP k) (DETECT_SM_LIST_HSCDMATCH k)
      (DE_STATE_FLAG_HSCD_INSPECT k) 1 (DetectEngineInspectHttpStatCode k);
    (* Modbus *)
    tmp_t ok (IPPROTO_TCP k) (ALPROTO_MODBUS k) (DETECT_SM_LIST_MODBUS_MATCH k)
      (DE_STATE_FLAG_MODBUS_INSPECT k) 0 (DetectEngineInspectModbus k) ].

(** The node a call allocates. *)
Definition engine_of (c : register_call) : DetectEngineAppInspectionEngine :=
  {| ipproto := rc_ipproto c; alproto := rc_alproto c; dir := rc_dir c;
     sm_list := rc_sm_list c; inspect_flags := rc_inspect_flags c;
     Callback := rc_Callback c |}.

(** What a call that returns makes of its chain. *)
Definition chain_after (c : register_call) (ch : chain) : chain :=
  if already_registered (rc_sm_list c) (rc_Callback c) ch then ch
  else ch ++ [engine_of c].

Section BuiltinEngines.

Variable FlowGetProtoMapping : Z -> Z.
Variables ALPROTO_UNKNOWN ALPROTO_FAILED : Z.
Variables DETECT_SM_LIST_MATCH DETECT_SM_LIST_MAX : Z.

(** A [for] loop over a table: the calls one after the other. *)
Fixpoint register_all (calls : list register_call) (list : app_table)
  : outcome app_table :=
  match calls with
  | [] => Ret list
  | c :: rest =>
      let! list' := RegisterEngine FlowGetProtoMapping ALPROTO_UNKNOWN
                      ALPROTO_FAILED DETECT_SM_LIST_MATCH DETECT_SM_LIST_MAX
                      c list in
      register_all rest list'
  end.

(** [DetectEngineRegisterAppInspectionEngines], on the table given ([ok]
    tells whether the allocations succeed). *)
Definition DetectEngineRegisterAppInspectionEngines
    (k : builtin_consts) (ok : bool) (list : app_table) : outcome app_table :=
  let! list' := register_all (data_toserver k ok) list in
  register_all (data_toclient k ok) list'.

(** The cell a call works on. *)
Definition call_cell (c : register_call) : Z * Z * Z :=
  (FlowGetProtoMapping (rc_ipproto c), rc_alproto c, rc_dir c).

(** The chain of a cell after the calls that returned: the calls for other
    cells do not count. *)
Definition cell_after (key : Z * Z * Z) (calls : list register_call) (ch : chain)
  : chain :=
  fold_left (fun ch c => if decide (call_cell c = key) then chain_after c ch else ch)
            calls ch.

End BuiltinEngines.

(** An instance of the constants on which the built-in registration
    returns. *)
Definition example_builtin_consts : builtin_consts := {|
  IPPROTO_TCP := 6; IPPROTO_UDP := 17;
  ALPROTO_HTTP := 1; ALPROTO_DNS := 10; ALPROTO_SMTP := 3; ALPROTO_MODBUS := 13;
  DETECT_SM_LIST_UMATCH := 2; DETECT_SM_LIST_HRLMATCH := 15;
  DETECT_SM_LIST_HCBDMATCH := 4; DETECT_SM_LIST_HHDMATCH := 6;
  DETECT_SM_LIST_HRHDMATCH := 7; DETECT_SM_LIST_HMDMATCH := 12;
  DETECT_SM_LIST_HCDMATCH := 13; DETECT_SM_LIST_HRUDMATCH := 3;
  DETECT_SM_LIST_FILEMATCH := 19; DETECT_SM_LIST_HUADMATCH := 14;
  DETECT_SM_LIST_HHHDMATCH := 10; DETECT_SM_LIST_HRHHDMATCH := 11;
  DETECT_SM_LIST_DNSQUERY_MATCH := 20; DETECT_SM_LIST_MODBUS_MATCH := 21;
  DETECT_SM_LIST_FILEDATA := 5; DETECT_SM_LIST_HSMDMATCH := 8;
  DETECT_SM_LIST_HSCDMATCH := 9;
  DE_STATE_FLAG_URI_INSPECT := 1; DE_STATE_FLAG_HRL_INSPECT := 2;
  DE_STATE_FLAG_HCBD_INSPECT := 4; DE_STATE_FLAG_HHD_INSPECT := 8;
  DE_STATE_FLAG_HRHD_INSPECT := 16; DE_STATE_FLAG_HMD_INSPECT := 32;
  DE_STATE_FLAG_HCD_INSPECT := 64; DE_STATE_FLAG_HRUD_INSPECT := 128;
  DE_STATE_FLAG_FILE_TS_INSPECT := 256; DE_STATE_FLAG_HUAD_INSPECT := 512;
  DE_STATE_FLAG_HHHD_INSPECT := 1024; DE_STATE_FLAG_HRHHD_INSPECT := 2048;
  DE_STATE_FLAG_DNSQUERY_INSPECT := 4096; DE_STATE_FLAG_MODBUS_INSPECT := 8192;
  DE_STATE_FLAG_FD_SMTP_INSPECT := 16384; DE_STATE_FLAG_HSBD_INSPECT := 32768;
  DE_STATE_FLAG_FILE_TC_INSPECT := 65536; DE_STATE_FLAG_HSMD_INSPECT := 131072;
  DE_STATE_FLAG_HSCD_INSPECT := 262144;
  DetectEngineInspectPacketUris := 1001; DetectEngineInspectHttpRequestLine := 1002;
  DetectEngineInspectHttpClientBody := 1003; DetectEngineInspectHttpHeader := 1004;
  DetectEngineInspectHttpRawHeader := 1005; DetectEngineInspectHttpMethod := 1006;
  DetectEngineInspectHttpCookie := 1007; DetectEngineInspectHttpRawUri := 1008;
  DetectFileInspectHttp := 1009; DetectEngineInspectHttpUA := 1010;
  DetectEngineInspectHttpHH := 1011; DetectEngineInspectHttpHRH := 1012;
  DetectEngineInspectDnsQueryName := 1013; DetectFileInspectSmtp := 1014;
  DetectEngineInspectModbus := 1015; DetectEngineInspectSMTPFiledata := 1016;
  DetectEngineInspectHttpServerBody := 1017; DetectEngineInspectHttpStatMsg := 1018;
  DetectEngineInspectHttpStatCode := 1019
|}.

Definition example_builtins : outcome app_table :=
  DetectEngineRegisterAppInspectionEngines example_proto_mapping 0 16 0 27
    example_builtin_consts true ∅.

(** ** Names of the signature-match lists (lines 1813-1882)

    The enumerators are those the [switch] names, in its order; the
    enumeration itself is declared outside this file.  [None] stands for a
    value of the [enum] type that is none of them, for which the [switch]
    falls through to the final [return]. *)

Module SigmatchListNames.

Inductive DetectSigmatchListEnum : Type :=
| DETECT_SM_LIST_MATCH
| DETECT_SM_LIST_PMATCH
| DETECT_SM_LIST_UMATCH
| DETECT_SM_LIST_HRUDMATCH
| DETECT_SM_LIST_HCBDMATCH
| DETECT_SM_LIST_FILEDATA
| DETECT_SM_LIST_HHDMATCH
| DETECT_SM_LIST_HRHDMATCH
| DETECT_SM_LIST_HSMDMATCH
| DETECT_SM_LIST_HSCDMATCH
| DETECT_SM_LIST_HHHDMATCH
| DETECT_SM_LIST_HRHHDMATCH
| DETECT_SM_LIST_HMDMATCH
| DETECT_SM_LIST_HCDMATCH
| DETECT_SM_LIST_HUADMATCH
| DETECT_SM_LIST_HRLMATCH
| DETECT_SM_LIST_APP_EVENT
| DETECT_SM_LIST_AMATCH
| DETECT_SM_LIST_DMATCH
| DETECT_SM_LIST_TMATCH
| DETECT_SM_LIST_FILEMATCH
| DETECT_SM_LIST_DNSQUERY_MATCH
| DETECT_SM_LIST_MODBUS_MATCH
| DETECT_SM_LIST_POSTMATCH
| DETECT_SM_LIST_SUPPRESS
| DETECT_SM_LIST_THRESHOLD
| DETECT_SM_LIST_MAX
| DETECT_SM_LIST_NOTSET.

Definition DetectSigmatchListEnumToString (type : option DetectSigmatchListEnum)
  : string :=
  match type with
  | Some DETECT_SM_LIST_MATCH => "packet"
  | Some DETECT_SM_LIST_PMATCH => "packet/stream payload"
  | Some DETECT_SM_LIST_UMATCH => "http uri"
  | Some DETECT_SM_LIST_HRUDMATCH => "http raw uri"
  | Some DETECT_SM_LIST_HCBDMATCH => "http client body"
  | Some DETECT_SM_LIST_FILEDATA => "http server body"
  | Some DETECT_SM_LIST_HHDMATCH => "http headers"
  | Some DETECT_SM_LIST_HRHDMATCH => "http raw headers"
  | Some DETECT_SM_LIST_HSMDMATCH => "http stat msg"
  | Some DETECT_SM_LIST_HSCDMATCH => "http stat code"
  | Some DETECT_SM_LIST_HHHDMATCH => "http host"
  | Some DETECT_SM_LIST_HRHHDMATCH => "http raw host header"
  | Some DETECT_SM_LIST_HMDMATCH => "http method"
  | Some DETECT_SM_LIST_HCDMATCH => "http cookie"
  | Some DETECT_SM_LIST_HUADMATCH => "http user-agent"
  | Some DETECT_SM_LIST_HRLMATCH => "http request line"
  | Some DETECT_SM_LIST_APP_EVENT => "app layer events"
  | Some DETECT_SM_LIST_AMATCH => "generic app layer"
  | Some DETECT_SM_LIST_DMATCH => "dcerpc"
  | Some DETECT_SM_LIST_TMATCH => "tag"
  | Some DETECT_SM_LIST_FILEMATCH => "file"
  | Some DETECT_SM_LIST_DNSQUERY_MATCH => "dns query"
  | Some DETECT_SM_LIST_MODBUS_MATCH => "modbus"
  | Some DETECT_SM_LIST_POSTMATCH => "post-match"
  | Some DETECT_SM_LIST_SUPPRESS => "suppress"
  | Some DETECT_SM_LIST_THRESHOLD => "threshold"
  | Some DETECT_SM_LIST_MAX => "max (internal)"
  | Some DETECT_SM_LIST_NOTSET => "not set (internal)"
  | None => "error"
  end%string.

End SigmatchListNames.

(** * Properties *)

(** ** The reload latch *)

Example latch_cycle :
  latch_run [ReloadStart; ReloadIsStart; ReloadSetDone; ReloadIsDone] detect_sync_init
  = ([ {| ev_op := ReloadStart; ev_before := IDLE; ev_result := Some 0;
          ev_after := RELOAD |};
       {| ev_op := ReloadIsStart; ev_before := RELOAD; ev_result := Some 1;
          ev_after := RELOAD |};
       {| ev_op := ReloadSetDone; ev_before := RELOAD; ev_result := None;
          ev_after := DONE |};
       {| ev_op := ReloadIsDone; ev_before := DONE; ev_result := Some 1;
          ev_after := IDLE |} ], {| state := IDLE |}).
Proof. reflexivity. Qed.

Lemma latch_step_event_ok op s :
  event_ok {| ev_op := op; ev_before := state s;
              ev_result := fst (latch_step op s);
              ev_after := state (snd (latch_step op s)) |}.
Proof.
  destruct s as [st]; destruct op, st; unfold event_ok; simpl;
    try (left; repeat split; congruence);
    try (right; repeat split; congruence);
    repeat split; reflexivity.
Qed.

Lemma latch_run_cons op ops s :
  latch_run (op :: ops) s =
  ({| ev_op := op; ev_before := state s; ev_result := fst (latch_step op s);
      ev_after := state (snd (latch_step op s)) |}
     :: fst (latch_run ops (snd (latch_step op s))),
   snd (latch_run ops (snd (latch_step op s)))).
Proof.
  simpl. destruct (latch_step op s) as [r s1]. simpl.
  destruct (latch_run ops s1) as [evs s2]. reflexivity.
Qed.

(** C3, as the code has it: in every run of latch operations each call is
    one of: the requester's [IDLE] to [RELOAD] (returning 0) or its failure
    [-1] with the state kept; the executor's query, which changes nothing;
    the executor's [ReloadSetDone], which leaves the latch [DONE] from any
    state and returns nothing; the poller's [DONE] to [IDLE] (returning 1) or
    its 0 with the state kept. *)
Theorem latch_run_events_ok (ops : list latch_op) (s : DetectEngineSyncer) :
  Forall event_ok (fst (latch_run ops s)).
Proof.
  revert s. induction ops as [|op ops IH]; intros s.
  - constructor.
  - rewrite latch_run_cons. simpl. constructor.
    + apply latch_step_event_ok.
    + apply IH.
Qed.

(** C3, as stated, fails: [ReloadSetDone] called on an idle latch does not
    fail and moves it from [IDLE] to [DONE], which is none of the three
    listed transitions. *)
Lemma latch_SetDone_from_IDLE :
  latch_step ReloadSetDone {| state := IDLE |} = (None, {| state := DONE |}) /\
  ~ listed_transition ReloadSetDone IDLE DONE.
Proof.
  split; [reflexivity|]. intros H. inversion H.
Qed.

Lemma polls_cons op ops :
  polls (op :: ops) = if decide (op = ReloadIsDone) then S (polls ops) else polls ops.
Proof.
  unfold polls. rewrite filter_cons. destruct (decide (op = ReloadIsDone)); reflexivity.
Qed.

Lemma IsDone_results_cons e evs :
  IsDone_results (e :: evs) =
  if decide (ev_op e = ReloadIsDone) then ev_result e :: IsDone_results evs
  else IsDone_results evs.
Proof.
  unfold IsDone_results. rewrite filter_cons.
  destruct (decide (ev_op e = ReloadIsDone)); reflexivity.
Qed.

(** Without a [ReloadSetDone] in it, a run never reaches [DONE] again once
    it has left it: the poller gets 1 at most once, on its first call, and
    only if the run started in [DONE]. *)
Lemma IsDone_results_no_SetDone ops s :
  ReloadSetDone ∉ ops ->
  IsDone_results (fst (latch_run ops s)) =
  if decide (state s = DONE)
  then match polls ops with
       | O => []
       | S n => Some 1 :: replicate n (Some 0)
       end
  else replicate (polls ops) (Some 0).
Proof.
  revert s. induction ops as [|op ops IH]; intros s Hno.
  - simpl. destruct (decide (state s = DONE)); reflexivity.
  - assert (Hop : op <> ReloadSetDone) by (intros ->; apply Hno; left).
    assert (Hops : ReloadSetDone ∉ ops) by (intros Hin; apply Hno; right; exact Hin).
    rewrite latch_run_cons, polls_cons. cbn [fst].
    rewrite IsDone_results_cons. cbn [ev_op ev_result].
    rewrite (IH _ Hops).
    destruct s as [st]; destruct op, st; try congruence; simpl;
      try reflexivity; destruct (polls ops); reflexivity.
Qed.

(** C8: [DetectEngineReloadIsDone] returns 1 and resets the latch to [IDLE]
    when it finds it [DONE], and otherwise returns 0 and changes nothing; so
    in any run that follows a [ReloadSetDone] and holds no further
    [ReloadSetDone], the first poll returns 1 and every later poll 0. *)
Theorem ReloadIsDone_once (s : DetectEngineSyncer) (ops : list latch_op)
    (Hno : ReloadSetDone ∉ ops) :
  (state s = DONE ->
   DetectEngineReloadIsDone s = (1, {| state := IDLE |})) /\
  (state s <> DONE -> DetectEngineReloadIsDone s = (0, s)) /\
  IsDone_results (fst (latch_run (ReloadSetDone :: ops) s)) =
  match polls ops with
  | O => []
  | S n => Some 1 :: replicate n (Some 0)
  end.
Proof.
  split; [|split].
  - intros H. unfold DetectEngineReloadIsDone. rewrite decide_True by exact H.
    reflexivity.
  - intros H. unfold DetectEngineReloadIsDone. rewrite decide_False by exact H.
    reflexivity.
  - rewrite latch_run_cons. cbn [fst]. rewrite IsDone_results_cons.
    cbn [ev_op]. rewrite decide_False by discriminate.
    rewrite (IsDone_results_no_SetDone _ _ Hno). reflexivity.
Qed.

Lemma ReloadIsDone_once_witness :
  IsDone_results
    (fst (latch_run [ReloadSetDone; ReloadIsDone; ReloadStart; ReloadIsDone;
                     ReloadIsStart; ReloadIsDone] detect_sync_init))
  = [Some 1; Some 0; Some 0].
Proof.
  refine (proj2 (proj2 (ReloadIsDone_once detect_sync_init
            [ReloadIsDone; ReloadStart; ReloadIsDone; ReloadIsStart; ReloadIsDone]
            _))).
  intros H. repeat (apply elem_of_cons in H as [H|H]; [discriminate H|]).
  apply elem_of_nil in H. exact H.
Defined.

(** ** The application-layer inspection registry *)

Lemma cell_insert (list : app_table) k c p a d :
  cell (<[k := c]> list) p a d = if decide (k = (p, a, d)) then c else cell list p a d.
Proof.
  unfold cell. destruct (decide (k = (p, a, d))) as [->|Hne].
  - rewrite lookup_insert_eq. reflexivity.
  - rewrite lookup_insert_ne by exact Hne. reflexivity.
Qed.

Lemma cell_empty p a d : cell ∅ p a d = [].
Proof. unfold cell. rewrite lookup_empty. reflexivity. Qed.

Lemma already_registered_true sm cb (tmp : chain) :
  already_registered sm cb tmp = true <->
  exists e, e ∈ tmp /\ sm_list e = sm /\ Callback e = cb.
Proof.
  unfold already_registered. rewrite existsb_exists. split.
  - intros (e & Hin & He). apply andb_true_iff in He as [H1 H2].
    exists e. rewrite list_elem_of_In. split; [exact Hin|]. lia.
  - intros (e & Hin & H1 & H2). exists e. rewrite <- list_elem_of_In.
    split; [exact Hin|]. apply andb_true_iff. lia.
Qed.

Lemma append_chain_Ret engine (tmp c : chain) :
  append_chain engine tmp = Ret c ->
  c = tmp ++ [engine] /\
  forall t, t ∈ tmp -> dir t = dir engine ->
            sm_list t <> sm_list engine /\ inspect_flags t <> inspect_flags engine.
Proof.
  revert c. induction tmp as [|t rest IH]; intros c; simpl.
  - intros [= <-]. split; [reflexivity|]. intros t Ht. inversion Ht.
  - destruct ((dir t =? dir engine) &&
              ((sm_list t =? sm_list engine) ||
               (inspect_flags t =? inspect_flags engine))) eqn:Hdup;
      [discriminate|].
    destruct (append_chain engine rest) as [rest'| | |] eqn:Hrest; simpl;
      try discriminate.
    intros [= <-]. destruct (IH _ eq_refl) as [-> Hall].
    split; [reflexivity|]. intros t' Ht' Hdir.
    apply elem_of_cons in Ht' as [->|Ht'].
    + apply andb_false_iff in Hdup as [Hd|Hd]; [lia|].
      apply orb_false_iff in Hd as [H1 H2]. lia.
    + apply Hall; assumption.
Qed.

Lemma append_chain_Exit engine (tmp : chain) t :
  t ∈ tmp -> dir t = dir engine ->
  sm_list t = sm_list engine \/ inspect_flags t = inspect_flags engine ->
  append_chain engine tmp = Exit.
Proof.
  intros Hin Hdir Hdup. induction tmp as [|t0 rest IH]; [inversion Hin|].
  simpl.
  destruct ((dir t0 =? dir engine) &&
            ((sm_list t0 =? sm_list engine) ||
             (inspect_flags t0 =? inspect_flags engine))) eqn:Hc;
    [reflexivity|].
  apply elem_of_cons in Hin as [->|Hin].
  - exfalso. apply andb_false_iff in Hc as [Hc|Hc]; [lia|].
    apply orb_false_iff in Hc as [H1 H2]. lia.
  - rewrite (IH Hin). reflexivity.
Qed.

Lemma append_chain_fresh engine (tmp : chain) :
  (forall t, t ∈ tmp ->
     sm_list t <> sm_list engine /\ inspect_flags t <> inspect_flags engine) ->
  append_chain engine tmp = Ret (tmp ++ [engine]).
Proof.
  induction tmp as [|t0 rest IH]; intros Hall; [reflexivity|].
  simpl. destruct (Hall t0 ltac:(left)) as [H1 H2].
  replace ((sm_list t0 =? sm_list engine) ||
           (inspect_flags t0 =? inspect_flags engine)) with false
    by (symmetry; apply orb_false_iff; lia).
  rewrite andb_false_r. rewrite IH; [reflexivity|].
  intros t Ht. apply Hall. right. exact Ht.
Qed.

Section AppInspectionProperties.

Variable FlowGetProtoMapping : Z -> Z.
Variables ALPROTO_UNKNOWN ALPROTO_FAILED : Z.
Variables DETECT_SM_LIST_MATCH DETECT_SM_LIST_MAX : Z.

Local Abbreviation Reg :=
  (RegisterEngine FlowGetProtoMapping ALPROTO_UNKNOWN ALPROTO_FAILED
                  DETECT_SM_LIST_MATCH DETECT_SM_LIST_MAX).
Local Abbreviation reachable :=
  (registered FlowGetProtoMapping ALPROTO_UNKNOWN ALPROTO_FAILED
              DETECT_SM_LIST_MATCH DETECT_SM_LIST_MAX).
Local Abbreviation valid :=
  (valid_args ALPROTO_UNKNOWN ALPROTO_FAILED
              DETECT_SM_LIST_MATCH DETECT_SM_LIST_MAX).
Local Abbreviation chain_of := (call_chain FlowGetProtoMapping).

(** The argument check, as a boolean and as a proposition. *)
Lemma valid_args_check c :
  valid c ->
  (rc_alproto c <=? ALPROTO_UNKNOWN) || (rc_alproto c >=? ALPROTO_FAILED) ||
  (rc_dir c >? 1) ||
  (rc_sm_list c <? DETECT_SM_LIST_MATCH) || (rc_sm_list c >=? DETECT_SM_LIST_MAX) ||
  (rc_Callback c =? 0) = false.
Proof.
  intros (H1 & H2 & H3 & H4).
  repeat (apply orb_false_iff; split); lia.
Qed.

(** The three ways a call ends. *)
Lemma Register_cases (c : register_call) (list : app_table) :
  Reg c list = Exit \/
  (Reg c list = Ret list /\
   already_registered (rc_sm_list c) (rc_Callback c) (chain_of c list) = true) \/
  (already_registered (rc_sm_list c) (rc_Callback c) (chain_of c list) = false /\
   exists e,
     dir e = rc_dir c /\ sm_list e = rc_sm_list c /\
     inspect_flags e = rc_inspect_flags c /\ Callback e = rc_Callback c /\
     alproto e = rc_alproto c /\ ipproto e = rc_ipproto c /\
     Reg c list =
     (let! ch := append_chain e (chain_of c list) in
      Ret (<[(FlowGetProtoMapping (rc_ipproto c), rc_alproto c, rc_dir c) := ch]>
             list))).
Proof.
  unfold RegisterEngine, DetectEngineRegisterAppInspectionEngine,
    call_chain.
  destruct (_ || _ || _ || _ || _ || _); [left; reflexivity|].
  destruct (already_registered _ _ _) eqn:Hreg.
  - right; left. split; reflexivity.
  - destruct (rc_malloc_ok c); simpl; [|left; reflexivity].
    right; right. split; [reflexivity|].
    eexists. repeat split; try reflexivity.
Qed.

Lemma registered_inv (list : app_table) :
  reachable list -> table_dirs list /\ table_nodup list.
Proof.
  induction 1 as [|list c list' Hreg [IHd IHn] Hcall].
  - split.
    + intros p a d e. rewrite cell_empty. intros He. inversion He.
    + intros p a d. rewrite cell_empty. split; constructor.
  - destruct (Register_cases c list) as [HE|[[HR _]|(_ & e & Hd & Hs & Hf & _ & _ & _ & HR)]].
    + rewrite HE in Hcall. discriminate.
    + rewrite HR in Hcall. injection Hcall as <-. split; assumption.
    + rewrite HR in Hcall.
      destruct (append_chain e (chain_of c list)) as [ch| | |] eqn:Happ;
        try discriminate.
      simpl in Hcall. injection Hcall as <-.
      apply append_chain_Ret in Happ as [-> Hfresh].
      assert (Hfresh' : forall t, t ∈ chain_of c list ->
                sm_list t <> sm_list e /\ inspect_flags t <> inspect_flags e).
      { intros t Ht. apply Hfresh; [exact Ht|]. rewrite Hd.
        apply (IHd _ _ _ _ Ht). }
      split.
      * intros p a d e'. rewrite cell_insert. case_decide as Hk.
        -- injection Hk as <- <- <-. intros He'.
           apply elem_of_app in He' as [He'|He'].
           ++ apply (IHd _ _ _ _ He').
           ++ apply list_elem_of_singleton in He'. subst e'. exact Hd.
        -- apply IHd.
      * intros p a d. rewrite cell_insert. case_decide as Hk; [|apply IHn].
        injection Hk as <- <- <-.
        destruct (IHn (FlowGetProtoMapping (rc_ipproto c)) (rc_alproto c) (rc_dir c))
          as [N1 N2].
        rewrite !fmap_app. simpl. split.
        -- apply NoDup_app. split; [exact N1|]. split; [|apply NoDup_singleton].
           intros x Hx Hx'. apply list_elem_of_singleton in Hx'. subst x.
           apply list_elem_of_fmap in Hx as (t & Ht1 & Ht2).
           destruct (Hfresh' t Ht2) as [HA _]. congruence.
        -- apply NoDup_app. split; [exact N2|]. split; [|apply NoDup_singleton].
           intros x Hx Hx'. apply list_elem_of_singleton in Hx'. subst x.
           apply list_elem_of_fmap in Hx as (t & Ht1 & Ht2).
           destruct (Hfresh' t Ht2) as [_ HB]. congruence.
Qed.

(** C4: in a table built by registrations that returned, no chain holds
    two nodes with the same [sm_list] nor two with the same
    [inspect_flags]; and a registration that finds a node with its
    [sm_list] or its [inspect_flags] in its chain, without finding its
    ([sm_list], [Callback]) pair there, ends the process. *)
Theorem registered_no_duplicates (list : app_table) (Hreg : reachable list) :
  (forall p a d,
      NoDup (sm_list <$> cell list p a d) /\
      NoDup (inspect_flags <$> cell list p a d)) /\
  (forall c e,
      e ∈ chain_of c list ->
      sm_list e = rc_sm_list c \/ inspect_flags e = rc_inspect_flags c ->
      (forall e', e' ∈ chain_of c list ->
                  ~ (sm_list e' = rc_sm_list c /\ Callback e' = rc_Callback c)) ->
      Reg c list = Exit).
Proof.
  destruct (registered_inv list Hreg) as [Hd Hn]. split; [exact Hn|].
  intros c e He Hdup Hnot.
  destruct (Register_cases c list)
    as [HE|[[_ HR]|(_ & e0 & Hd0 & Hs0 & Hf0 & _ & _ & _ & HR)]].
  - exact HE.
  - exfalso. apply already_registered_true in HR as (e' & He' & H1 & H2).
    apply (Hnot e' He'). split; assumption.
  - rewrite HR. rewrite (append_chain_Exit e0 _ e He); [reflexivity| |].
    + rewrite Hd0. apply (Hd _ _ _ _ He).
    + rewrite Hs0, Hf0. exact Hdup.
Qed.

(** C5: a valid registration that finds its ([sm_list], [Callback]) pair in
    its chain returns and leaves the table as it was; so repeating a
    registration that returned gives the table of the first call again. *)
Theorem register_idempotent (list : app_table) (c : register_call)
    (Hvalid : valid c) :
  ((exists e, e ∈ chain_of c list /\
              sm_list e = rc_sm_list c /\ Callback e = rc_Callback c) ->
   Reg c list = Ret list) /\
  (forall list1 b,
      Reg c list = Ret list1 ->
      Reg (with_malloc b c) list1 = Ret list1).
Proof.
  assert (Hhit : forall (t : app_table) b,
             (exists e, e ∈ chain_of c t /\
                        sm_list e = rc_sm_list c /\ Callback e = rc_Callback c) ->
             Reg (with_malloc b c) t = Ret t).
  { intros t b Hex. apply already_registered_true in Hex.
    unfold RegisterEngine, DetectEngineRegisterAppInspectionEngine.
    cbn [with_malloc rc_ipproto rc_alproto rc_dir rc_sm_list rc_inspect_flags
         rc_Callback rc_malloc_ok].
    rewrite (valid_args_check c Hvalid).
    unfold call_chain in Hex. rewrite Hex. reflexivity. }
  split.
  - intros Hex. specialize (Hhit list (rc_malloc_ok c) Hex).
    destruct c; exact Hhit.
  - intros list1 b Hcall. apply Hhit.
    destruct (Register_cases c list)
      as [HE|[[HR Hal]|(_ & e0 & Hd0 & Hs0 & Hf0 & Hc0 & _ & _ & HR)]].
    + rewrite HE in Hcall. discriminate.
    + rewrite HR in Hcall. injection Hcall as <-.
      apply already_registered_true. exact Hal.
    + rewrite HR in Hcall.
      destruct (append_chain e0 (chain_of c list)) as [ch| | |] eqn:Happ;
        try discriminate.
      simpl in Hcall. injection Hcall as <-.
      apply append_chain_Ret in Happ as [-> _].
      exists e0. split; [|split; assumption].
      unfold call_chain. rewrite cell_insert.
      rewrite decide_True by reflexivity.
      apply elem_of_app. right. apply list_elem_of_singleton. reflexivity.
Qed.

End AppInspectionProperties.

Example register_single :
  example_Register (example_call 0 2 1 100) ∅ = Ret example_table.
Proof. vm_compute. reflexivity. Qed.

Example register_both_directions :
  (let! t1 := example_Register (example_call 0 2 1 100) ∅ in
   example_Register (example_call 1 2 1 200) t1)
  = Ret (<[(0, 1, 1) := [example_engine 1 2 1 200]]> example_table).
Proof. vm_compute. reflexivity. Qed.

Lemma example_table_registered :
  registered example_proto_mapping 0 16 0 27 example_table.
Proof.
  apply (registered_call example_proto_mapping 0 16 0 27
           ∅ (example_call 0 2 1 100) example_table).
  - apply registered_empty.
  - vm_compute. reflexivity.
Qed.

Lemma registered_no_duplicates_witness :
  NoDup (sm_list <$> cell example_table 0 1 0) /\
  example_Register (example_call 0 2 4 200) example_table = Exit.
Proof.
  destruct (registered_no_duplicates example_proto_mapping 0 16 0 27
              example_table example_table_registered) as [Hn Hx].
  split.
  - exact (proj1 (Hn 0 1 0)).
  - apply (Hx (example_call 0 2 4 200) (example_engine 0 2 1 100)).
    + vm_compute. left.
    + left. reflexivity.
    + intros e' He' [_ Hcb]. vm_compute in He'.
      apply list_elem_of_singleton in He'. subst e'. discriminate Hcb.
Defined.

Lemma register_idempotent_witness :
  example_Register (example_call 0 2 1 100) example_table = Ret example_table /\
  (forall t1, example_Register (example_call 0 5 8 300) example_table = Ret t1 ->
              example_Register (example_call 0 5 8 300) t1 = Ret t1).
Proof.
  split.
  - apply (register_idempotent example_proto_mapping 0 16 0 27).
    + unfold valid_args. simpl. lia.
    + exists (example_engine 0 2 1 100). split; [vm_compute; left|].
      split; reflexivity.
  - intros t1 H.
    apply (proj2 (register_idempotent example_proto_mapping 0 16 0 27
                    example_table (example_call 0 5 8 300)
                    ltac:(unfold valid_args; simpl; lia)) t1 true H).
Defined.

(** ** Building an engine context *)

Example test01_limit :
  inspection_recursion_limit (built (DetectEngineCtxInit example_externals conf_test01 1)) = -1.
Proof. vm_compute. reflexivity. Qed.

Example test03_limit :
  inspection_recursion_limit (built (DetectEngineCtxInit example_externals conf_test03 1)) = 3000.
Proof. vm_compute. reflexivity. Qed.

Example test04_limit :
  inspection_recursion_limit (built (DetectEngineCtxInit example_externals conf_test04 1)) = 10.
Proof. vm_compute. reflexivity. Qed.

Example test08_limits :
  group_limits (built (DetectEngineCtxInit example_externals conf_test08 1))
  = [20; 21; 22; 23; 24; 25; 26; 27].
Proof. vm_compute. reflexivity. Qed.

Example test09_limits :
  group_limits (built (DetectEngineCtxInit example_externals conf_test09 1))
  = [4; 4; 4; 6; 4; 8; 4; 30].
Proof. vm_compute. reflexivity. Qed.

Lemma strcmp_eq_true a b : strcmp_eq a b = true <-> a = b.
Proof. apply String.eqb_eq. Qed.

Lemma strcmp_eq_false a b : strcmp_eq a b = false <-> a <> b.
Proof. apply String.eqb_neq. Qed.

Lemma strcmp_eq_other key n v :
  other_key key n -> conf_val n = Some v -> strcmp_eq v key = false.
Proof.
  intros Hother Hv. apply strcmp_eq_false. intros ->. apply Hother. exact Hv.
Qed.

(** *** The search for the recursion limit *)

Lemma find_insp_skip pre rest r :
  Forall (other_key "inspection-recursion-limit") pre ->
  find_insp_recursion_limit (pre ++ rest) = Ret r ->
  find_insp_recursion_limit rest = Ret r.
Proof.
  induction 1 as [|n pre Hn Hpre IH]; simpl; [tauto|].
  destruct (conf_val n) as [v|] eqn:Hv; [|discriminate].
  rewrite (strcmp_eq_other _ _ _ Hn Hv). simpl. exact IH.
Qed.

Lemma find_insp_absent entries r :
  Forall (other_key "inspection-recursion-limit") entries ->
  find_insp_recursion_limit entries = Ret r -> r = None.
Proof.
  intros Hall H. rewrite <- (app_nil_r entries) in H.
  apply (find_insp_skip _ _ _ Hall) in H. simpl in H. congruence.
Qed.

Lemma find_insp_entry idx v post :
  find_insp_recursion_limit
    (yaml_scalar_entry idx "inspection-recursion-limit" v :: post) = Ret (Some v).
Proof. reflexivity. Qed.

(** *** What a full build did *)

Lemma InitReal_full ext conf prefix id de_ctx id' :
  DetectEngineCtxInitReal ext conf 0 prefix id = Ret (Some de_ctx, id') ->
  exists r cp ff rc de1,
    match ConfGetNode conf "detect-engine" with
    | Some n => find_insp_recursion_limit (conf_head n)
    | None => Ret None
    end = Ret r /\
    DetectEngineCtxLoadConf ext conf
      (set_config cp ff (limit_of r) (PatternMatchDefaultMatcher ext)
                  DetectEngineCtx_zero) = Ret (rc, de1) /\
    de_ctx = set_identity (minimal de1) id de1.
Proof.
  unfold DetectEngineCtxInitReal.
  destruct (malloc_de_ctx_ok ext); [|discriminate].
  cbn [negb Z.eqb].
  set (found := match ConfGetNode conf "detect-engine" with
                | Some n => find_insp_recursion_limit (conf_head n)
                | None => Ret None
                end).
  destruct found as [r| | |] eqn:Hfound; cbn [obind]; try discriminate.
  fold (limit_of r).
  match goal with
  | |- context [DetectEngineCtxLoadConf ext conf ?c] =>
      destruct (DetectEngineCtxLoadConf ext conf c) as [[rc de1]| | |] eqn:Hload
  end; cbn [obind snd]; try discriminate.
  destruct (mpm_pattern_id_store_ok ext); cbn [negb]; [|discriminate].
  destruct (ActionInitConfig ext <? 0); [discriminate|].
  intros [= <- <-].
  eexists r, _, _, rc, de1. split; [reflexivity|]. split; [exact Hload|reflexivity].
Qed.

(** [DetectEngineCtxLoadConf] leaves the recursion limit alone. *)
Lemma set_group_limits_list_limit l c :
  inspection_recursion_limit (set_group_limits_list l c) = inspection_recursion_limit c.
Proof.
  unfold set_group_limits_list.
  repeat (destruct l as [|? l]; try reflexivity).
Qed.

Lemma group_limits_set_list l c :
  length l = 8%nat -> group_limits (set_group_limits_list l c) = l.
Proof.
  intros Hl. do 8 (destruct l as [|? l]; [discriminate Hl|]).
  destruct l; [reflexivity|discriminate Hl].
Qed.

Lemma LoadConf_inv ext conf c rc c' :
  DetectEngineCtxLoadConf ext conf c = Ret (rc, c') ->
  inspection_recursion_limit c' = inspection_recursion_limit c /\
  exists prof sgh,
    match ConfGetNode conf "detect-engine" with
    | Some n => scan_profile (conf_head n) None None
    | None => Ret (None, None)
    end = Ret (prof, sgh) /\
    (profile_of prof = ENGINE_PROFILE_CUSTOM ->
     exists n strs sghv,
       ConfGetNode conf "detect-engine" = Some n /\
       scan_custom (conf_head n) (repeat None 8) = Ret strs /\
       c' = set_group_limits_list
              (load_custom_limits ext strs medium_limits (group_limits c))
              (set_sgh_mpm_context sghv c)).
Proof.
  unfold DetectEngineCtxLoadConf.
  set (found := match ConfGetNode conf "detect-engine" with
                | Some n => scan_profile (conf_head n) None None
                | None => Ret (None, None)
                end).
  destruct found as [[prof sgh]| | |] eqn:Hfound; cbn [obind fst snd];
    try discriminate.
  match goal with
  | |- context [obind ?o _] => destruct o as [sghv| | |] eqn:Hsgh
  end; cbn [obind]; try discriminate.
  set (sghv' := if run_mode_is_unittest ext
                then ENGINE_SGH_MPM_FACTORY_CONTEXT_FULL else sghv).
  destruct (profile_of prof) eqn:Hprof; cbn [obind].
  - intros [= <- <-]. split; [reflexivity|]. exists prof, sgh.
    split; [reflexivity|]. congruence.
  - intros [= <- <-]. split; [reflexivity|]. exists prof, sgh.
    split; [reflexivity|]. congruence.
  - intros [= <- <-]. split; [reflexivity|]. exists prof, sgh.
    split; [reflexivity|]. congruence.
  - intros [= <- <-]. split; [reflexivity|]. exists prof, sgh.
    split; [reflexivity|]. congruence.
  - destruct (ConfGetNode conf "detect-engine") as [n|] eqn:Hn;
      cbn [obind]; [|discriminate].
    destruct (scan_custom (conf_head n) (repeat None 8)) as [strs| | |] eqn:Hs;
      cbn [obind]; try discriminate.
    intros [= <- <-]. split.
    + rewrite set_group_limits_list_limit. reflexivity.
    + exists prof, sgh. split; [reflexivity|]. intros _.
      exists n, strs, sghv'. split; [reflexivity|]. split; [exact Hs|reflexivity].
Qed.

(** C6: a full build that returns a context stores as the recursion limit
    [-1] when the configured value is [0], [10] when it is [10], and 3000
    when the configuration has no [inspection-recursion-limit] entry under
    [detect-engine] (or no [detect-engine] node). *)
Theorem recursion_limit_from_config
    (ext : externals) (conf : ConfNode) (prefix : option string) (id : Z)
    (de_ctx : DetectEngineCtx) (id' : Z)
    (Hbuild : DetectEngineCtxInitReal ext conf 0 prefix id = Ret (Some de_ctx, id')) :
  (forall n pre idx post,
      ConfGetNode conf "detect-engine" = Some n ->
      conf_head n =
        pre ++ yaml_scalar_entry idx "inspection-recursion-limit" "0" :: post ->
      Forall (other_key "inspection-recursion-limit") pre ->
      inspection_recursion_limit de_ctx = -1) /\
  (forall n pre idx post,
      ConfGetNode conf "detect-engine" = Some n ->
      conf_head n =
        pre ++ yaml_scalar_entry idx "inspection-recursion-limit" "10" :: post ->
      Forall (other_key "inspection-recursion-limit") pre ->
      inspection_recursion_limit de_ctx = 10) /\
  ((ConfGetNode conf "detect-engine" = None \/
    exists n, ConfGetNode conf "detect-engine" = Some n /\
              Forall (other_key "inspection-recursion-limit") (conf_head n)) ->
   inspection_recursion_limit de_ctx = 3000).
Proof.
  apply InitReal_full in Hbuild as (r & cp & ff & rc & de1 & Hfind & Hload & ->).
  apply LoadConf_inv in Hload as [Hlim _].
  assert (Hl : inspection_recursion_limit (set_identity (minimal de1) id de1)
               = limit_of r) by (cbn [set_identity inspection_recursion_limit];
                                 rewrite Hlim; reflexivity).
  rewrite Hl. clear Hl Hlim.
  assert (Hval : forall n pre idx v post,
             ConfGetNode conf "detect-engine" = Some n ->
             conf_head n =
               pre ++ yaml_scalar_entry idx "inspection-recursion-limit" v :: post ->
             Forall (other_key "inspection-recursion-limit") pre ->
             r = Some v).
  { intros n pre idx v post Hn Hhead Hpre. rewrite Hn, Hhead in Hfind.
    apply (find_insp_skip _ _ _ Hpre) in Hfind.
    rewrite find_insp_entry in Hfind. congruence. }
  split; [|split].
  - intros n pre idx post Hn Hhead Hpre.
    rewrite (Hval _ _ _ _ _ Hn Hhead Hpre). reflexivity.
  - intros n pre idx post Hn Hhead Hpre.
    rewrite (Hval _ _ _ _ _ Hn Hhead Hpre). reflexivity.
  - intros [Hn|(n & Hn & Hall)]; rewrite Hn in Hfind.
    + injection Hfind as <-. reflexivity.
    + rewrite (find_insp_absent _ _ Hall Hfind). reflexivity.
Qed.

Lemma recursion_limit_from_config_witness :
  inspection_recursion_limit
    (built (DetectEngineCtxInit example_externals conf_test01 1)) = -1 /\
  inspection_recursion_limit
    (built (DetectEngineCtxInit example_externals conf_test04 1)) = 10 /\
  inspection_recursion_limit
    (built (DetectEngineCtxInit example_externals conf_test03 1)) = 3000.
Proof.
  assert (Hother : Forall (other_key "inspection-recursion-limit")
                     [yaml_scalar_entry "0" "profile" "medium";
                      test_custom_values_medium]).
  { repeat constructor; intros H; discriminate H. }
  split; [|split].
  - refine (proj1 (recursion_limit_from_config example_externals conf_test01
                     None 1 _ 2 _)
              (MkConfNode "detect-engine" None _) _ "2"%string [] _ _ Hother);
      vm_compute; reflexivity.
  - refine (proj1 (proj2 (recursion_limit_from_config example_externals conf_test04
                     None 1 _ 2 _))
              (MkConfNode "detect-engine" None _) _ "2"%string [] _ _ Hother);
      vm_compute; reflexivity.
  - refine (proj2 (proj2 (recursion_limit_from_config example_externals conf_test03
                     None 1 _ 2 _)) _).
    + vm_compute. reflexivity.
    + right. eexists. split; [vm_compute; reflexivity|]. exact Hother.
Defined.

(** *** The scans of the [detect-engine] sequence *)

Lemma obind_Ret {A B : Type} (o : outcome A) (k : A -> outcome B) (b : B) :
  obind o k = Ret b -> exists a, o = Ret a /\ k a = Ret b.
Proof. destruct o; simpl; try discriminate. intros H. eauto. Qed.

Lemma scan_profile_app l1 l2 a b :
  scan_profile (l1 ++ l2) a b =
  let! r := scan_profile l1 a b in scan_profile l2 (fst r) (snd r).
Proof.
  revert a b. induction l1 as [|opt l1 IH]; intros a b; [reflexivity|].
  simpl. destruct (conf_val opt) as [v|]; [|reflexivity].
  destruct (strcmp_eq v "profile").
  - destruct (tqh_first opt); [apply IH|reflexivity].
  - destruct (strcmp_eq v "sgh-mpm-context"); [|apply IH].
    destruct (tqh_first opt); [apply IH|reflexivity].
Qed.

Lemma scan_profile_other l a b a' b' :
  Forall (other_key "profile") l ->
  scan_profile l a b = Ret (a', b') -> a' = a.
Proof.
  intros Hall. revert b. induction Hall as [|opt l Hopt Hall IH]; intros b; simpl.
  - congruence.
  - destruct (conf_val opt) as [v|] eqn:Hv; [|discriminate].
    rewrite (strcmp_eq_other _ _ _ Hopt Hv).
    destruct (strcmp_eq v "sgh-mpm-context"); [|apply IH].
    destruct (tqh_first opt); [apply IH|discriminate].
Qed.

Lemma scan_profile_last p1 idx v p2 a b prof sgh :
  Forall (other_key "profile") p2 ->
  scan_profile (p1 ++ yaml_scalar_entry idx "profile" v :: p2) a b = Ret (prof, sgh) ->
  prof = Some v.
Proof.
  intros Hall. rewrite scan_profile_app. intros H.
  apply obind_Ret in H as ([a1 b1] & _ & H). cbn [fst snd] in H.
  change (scan_profile p2 (Some v) b1 = Ret (prof, sgh)) in H.
  apply (scan_profile_other _ _ _ _ _ Hall H).
Qed.

Lemma scan_custom_app l1 l2 s :
  scan_custom (l1 ++ l2) s = let! s' := scan_custom l1 s in scan_custom l2 s'.
Proof.
  revert s. induction l1 as [|opt l1 IH]; intros s; [reflexivity|].
  cbn [app scan_custom]. destruct (conf_val opt) as [v|]; [|reflexivity].
  destruct (strcmp_eq v "custom-values"); [|apply IH].
  destruct (lookup_custom (tqh_first opt) custom_keys); cbn [obind];
    [apply IH|reflexivity..].
Qed.

Lemma scan_custom_other l s s' :
  Forall (other_key "custom-values") l ->
  scan_custom l s = Ret s' -> s' = s.
Proof.
  induction 1 as [|opt l Hopt Hall IH]; cbn [scan_custom].
  - congruence.
  - destruct (conf_val opt) as [v|] eqn:Hv; [|discriminate].
    rewrite (strcmp_eq_other _ _ _ Hopt Hv). exact IH.
Qed.

(** Looking a key up in a mapping node gives the value of its first field
    of that name. *)
Lemma LookupChildValue_mapping nm v fields key :
  ConfNodeLookupChildValue
    (Some (MkConfNode nm v
             (map (fun kv => MkConfNode (fst kv) (Some (snd kv)) []) fields))) key
  = Ret (field_value key fields).
Proof.
  unfold ConfNodeLookupChildValue, ConfNodeLookupChild, field_value. cbn [conf_head].
  induction fields as [|[k x] fields IH]; [reflexivity|].
  cbn [map find fst snd conf_name].
  destruct (strcmp_eq k key); [reflexivity|exact IH].
Qed.

Lemma lookup_custom_mapping nm v fields keys :
  lookup_custom
    (Some (MkConfNode nm v
             (map (fun kv => MkConfNode (fst kv) (Some (snd kv)) []) fields))) keys
  = Ret (map (fun key => field_value key fields) keys).
Proof.
  induction keys as [|k keys IH]; [reflexivity|].
  cbn [lookup_custom map]. rewrite LookupChildValue_mapping. cbn [obind].
  rewrite IH. reflexivity.
Qed.

Lemma scan_custom_last l1 idx fields l2 s strs :
  Forall (other_key "custom-values") l2 ->
  scan_custom (l1 ++ yaml_mapping_entry idx "custom-values" fields :: l2) s = Ret strs ->
  strs = map (fun key => field_value key fields) custom_keys.
Proof.
  intros Hall. rewrite scan_custom_app. intros H.
  apply obind_Ret in H as (s1 & _ & H).
  unfold yaml_mapping_entry in H. cbn [scan_custom conf_val] in H.
  change (strcmp_eq "custom-values" "custom-values") with true in H.
  cbn [tqh_first conf_head] in H.
  rewrite lookup_custom_mapping in H. cbn [obind] in H.
  apply (scan_custom_other _ _ _ Hall H).
Qed.

Lemma InitReal_custom_limits ext conf prefix id de_ctx id' n p1 idx p2 :
  DetectEngineCtxInitReal ext conf 0 prefix id = Ret (Some de_ctx, id') ->
  ConfGetNode conf "detect-engine" = Some n ->
  conf_head n = p1 ++ yaml_scalar_entry idx "profile" "custom" :: p2 ->
  Forall (other_key "profile") p2 ->
  exists strs,
    scan_custom (conf_head n) (repeat None 8) = Ret strs /\
    (length strs = 8%nat ->
     group_limits de_ctx =
     load_custom_limits ext strs medium_limits (repeat 0 8)).
Proof.
  intros Hbuild Hnode Hprof Hlast.
  apply InitReal_full in Hbuild as (r & cp & ff & rc & de1 & _ & Hload & ->).
  apply LoadConf_inv in Hload as [_ (prof & sgh & Hscan & Hcustom)].
  rewrite Hnode, Hprof in Hscan.
  apply (scan_profile_last _ _ _ _ _ _ _ _ Hlast) in Hscan. subst prof.
  destruct (Hcustom eq_refl) as (n' & strs & sghv & Hn' & Hstrs & ->).
  rewrite Hnode in Hn'. injection Hn' as <-.
  exists strs. split; [exact Hstrs|]. intros Hlen.
  change (group_limits (set_identity ?m id ?c)) with (group_limits c).
  rewrite group_limits_set_list; [reflexivity|].
  do 8 (destruct strs as [|? strs]; [discriminate Hlen|]).
  destruct strs; [reflexivity|discriminate Hlen].
Qed.

(** C7: in a full build that returns a context under profile [custom], each
    of the eight group limits is the medium value of its field when the
    [custom-values] mapping has no such field or the parse of its value
    fails, and the parsed number when the parse succeeds; without any
    [custom-values] entry all eight are the medium values. *)
Theorem custom_profile_group_limits
    (ext : externals) (conf : ConfNode) (prefix : option string) (id : Z)
    (de_ctx : DetectEngineCtx) (id' : Z)
    (n : ConfNode) (p1 : list ConfNode) (idx : string) (p2 : list ConfNode)
    (Hbuild : DetectEngineCtxInitReal ext conf 0 prefix id = Ret (Some de_ctx, id'))
    (Hnode : ConfGetNode conf "detect-engine" = Some n)
    (Hprof : conf_head n = p1 ++ yaml_scalar_entry idx "profile" "custom" :: p2)
    (Hlast : Forall (other_key "profile") p2) :
  (forall l1 j fields l2,
      conf_head n = l1 ++ yaml_mapping_entry j "custom-values" fields :: l2 ->
      Forall (other_key "custom-values") l2 ->
      forall (k : nat) key medium,
        custom_keys !! k = Some key ->
        medium_limits !! k = Some medium ->
        exists limit,
          group_limits de_ctx !! k = Some limit /\
          match field_value key fields with
          | None => limit = medium
          | Some s =>
              let parsed := ByteExtractStringUint16 ext 10 (strlen16 s) s in
              (fst parsed <= 0 -> limit = medium) /\
              (forall v, 0 < fst parsed -> snd parsed = Some v -> limit = v)
          end) /\
  (Forall (other_key "custom-values") (conf_head n) ->
   group_limits de_ctx = medium_limits).
Proof.
  destruct (InitReal_custom_limits _ _ _ _ _ _ _ _ _ _ Hbuild Hnode Hprof Hlast)
    as (strs & Hscan & Hlimits).
  assert (Hrule : forall s medium,
             let parsed := ByteExtractStringUint16 ext 10 (strlen16 s) s in
             (fst parsed <= 0 -> load_custom_limit ext (Some s) medium 0 = medium) /\
             (forall v, 0 < fst parsed -> snd parsed = Some v ->
                        load_custom_limit ext (Some s) medium 0 = v)).
  { intros s medium parsed. unfold load_custom_limit. fold parsed.
    destruct parsed as [r stored]. cbn [fst snd]. split.
    - intros Hr. rewrite (proj2 (Z.leb_le r 0) Hr). reflexivity.
    - intros v Hr ->. rewrite (proj2 (Z.leb_gt r 0) Hr). reflexivity. }
  split.
  - intros l1 j fields l2 Hhead Hl2 k key medium Hkey Hmedium.
    rewrite Hhead in Hscan.
    apply (scan_custom_last _ _ _ _ _ _ Hl2) in Hscan. subst strs.
    rewrite (Hlimits eq_refl).
    cbn [map custom_keys load_custom_limits medium_limits repeat].
    do 8 (destruct k as [|k];
          [ injection Hkey as <-; injection Hmedium as <-;
            eexists; split; [reflexivity|];
            match goal with
            | |- context [field_value ?key fields] =>
                destruct (field_value key fields) as [s|];
                [apply Hrule|reflexivity]
            end
          | ]).
    discriminate Hkey.
  - intros Hnone. apply (scan_custom_other _ _ _ Hnone) in Hscan. subst strs.
    rewrite (Hlimits eq_refl). reflexivity.
Qed.

Lemma custom_profile_group_limits_witness :
  group_limits (built (DetectEngineCtxInit example_externals conf_test08 1)) !! 7%nat
  = Some 27 /\
  group_limits (built (DetectEngineCtxInit example_externals conf_test09 1)) !! 7%nat
  = Some 30.
Proof.
  assert (Hnil : Forall (other_key "profile")
                   [yaml_mapping_entry "1" "custom-values" fields_test08]).
  { repeat constructor; intros H; discriminate H. }
  assert (Hnil9 : Forall (other_key "profile")
                    [yaml_mapping_entry "1" "custom-values" fields_test09;
                     yaml_scalar_entry "2" "inspection-recursion-limit" "10"]).
  { repeat constructor; intros H; discriminate H. }
  assert (Hcv : Forall (other_key "custom-values")
                  [yaml_scalar_entry "2" "inspection-recursion-limit" "10"]).
  { repeat constructor; intros H; discriminate H. }
  split.
  - destruct (proj1 (custom_profile_group_limits example_externals conf_test08
                       None 1
                       (built (DetectEngineCtxInit example_externals conf_test08 1)) 2
                       (MkConfNode "detect-engine" None
                          [yaml_scalar_entry "0" "profile" "custom";
                           yaml_mapping_entry "1" "custom-values" fields_test08])
                       [] "0"%string
                       [yaml_mapping_entry "1" "custom-values" fields_test08]
                       ltac:(vm_compute; reflexivity) eq_refl eq_refl Hnil)
                [yaml_scalar_entry "0" "profile" "custom"] "1"%string
                fields_test08 [] eq_refl (Forall_nil_2 _)
                7%nat "toserver-dp-groups"%string 30 eq_refl eq_refl)
      as (limit & Hlimit & _ & Hparsed).
    rewrite Hlimit. f_equal. apply Hparsed; [vm_compute|]; reflexivity.
  - destruct (proj1 (custom_profile_group_limits example_externals conf_test09
                       None 1
                       (built (DetectEngineCtxInit example_externals conf_test09 1)) 2
                       (MkConfNode "detect-engine" None
                          [yaml_scalar_entry "0" "profile" "custom";
                           yaml_mapping_entry "1" "custom-values" fields_test09;
                           yaml_scalar_entry "2" "inspection-recursion-limit" "10"])
                       [] "0"%string
                       [yaml_mapping_entry "1" "custom-values" fields_test09;
                        yaml_scalar_entry "2" "inspection-recursion-limit" "10"]
                       ltac:(vm_compute; reflexivity) eq_refl eq_refl Hnil9)
                [yaml_scalar_entry "0" "profile" "custom"] "1"%string
                fields_test09
                [yaml_scalar_entry "2" "inspection-recursion-limit" "10"]
                eq_refl Hcv
                7%nat "toserver-dp-groups"%string 30 eq_refl eq_refl)
      as (limit & Hlimit & Hfail & _).
    rewrite Hlimit. f_equal. apply Hfail. vm_compute. discriminate.
Defined.

(** ** Thread-keyword slots *)

Lemma array_set_length a i v a' :
  array_set a i v = Ret a' -> length a' = length a.
Proof.
  unfold array_set. destruct ((i <? 0) || (Z.of_nat (length a) <=? i));
    [discriminate|].
  intros [= <-]. apply length_insert.
Qed.

Lemma init_keyword_items_length items a r :
  init_keyword_items items a = Ret r -> length (snd r) = length a.
Proof.
  revert a. induction items as [|item items IH]; intros a; simpl.
  - intros [= <-]. reflexivity.
  - destruct (array_set a (item_id item) (InitFunc item (item_data item)))
      as [a'| | |] eqn:Hset; simpl; try discriminate.
    apply array_set_length in Hset.
    destruct (InitFunc item (item_data item) =? 0).
    + intros [= <-]. exact Hset.
    + intros H. rewrite (IH _ H). exact Hset.
Qed.

(** After a set-up that allocated the array, the array has as many slots as
    [keyword_ctxs_size] says, the registered keyword count. *)
Lemma InitKeywords_size malloc_ok de_ctx r det_ctx' a :
  DetectEngineThreadCtxInitKeywords malloc_ok de_ctx DetectEngineThreadCtx_zero
  = Ret (r, det_ctx') ->
  keyword_ctxs_array det_ctx' = Some a ->
  keyword_ctxs_size det_ctx' = keyword_id de_ctx /\
  Z.of_nat (length a) = keyword_ctxs_size det_ctx' /\
  0 < keyword_ctxs_size det_ctx'.
Proof.
  unfold DetectEngineThreadCtxInitKeywords.
  destruct (keyword_id de_ctx >? 0) eqn:Hpos.
  - destruct malloc_ok; cbn [negb].
    + destruct (init_keyword_items _ _) as [r0| | |] eqn:Hinit; simpl;
        try discriminate.
      intros [= <- <-]. simpl. intros [= <-].
      apply init_keyword_items_length in Hinit. rewrite Hinit, length_replicate.
      lia.
    + intros [= <- <-]. discriminate.
  - intros [= <- <-]. discriminate.
Qed.

(** Where the lookup answers [NULL], and where it reads the slot. *)
Lemma GetKeywordThreadCtx_null det_ctx id :
  id < 0 \/ id > keyword_ctxs_size det_ctx \/ keyword_ctxs_array det_ctx = None ->
  DetectThreadCtxGetKeywordThreadCtx det_ctx id = Ret 0.
Proof.
  intros H. unfold DetectThreadCtxGetKeywordThreadCtx.
  destruct (id <? 0) eqn:H1; [reflexivity|].
  destruct (id >? keyword_ctxs_size det_ctx) eqn:H2; [reflexivity|].
  destruct H as [H|[H|H]]; [lia|lia|].
  rewrite bool_decide_eq_true_2 by exact H. reflexivity.
Qed.

Lemma GetKeywordThreadCtx_slot det_ctx a id :
  keyword_ctxs_array det_ctx = Some a ->
  0 <= id < Z.of_nat (length a) ->
  id <= keyword_ctxs_size det_ctx ->
  exists v, a !! Z.to_nat id = Some v /\
            DetectThreadCtxGetKeywordThreadCtx det_ctx id = Ret v.
Proof.
  intros Ha Hid Hsize. unfold DetectThreadCtxGetKeywordThreadCtx.
  replace (id <? 0) with false by lia.
  replace (id >? keyword_ctxs_size det_ctx) with false by lia.
  rewrite bool_decide_eq_false_2 by congruence. rewrite Ha. simpl.
  unfold array_get. replace (id <? 0) with false by lia.
  destruct (lookup_lt_is_Some_2 a (Z.to_nat id)) as [v Hv]; [lia|].
  exists v. rewrite Hv. split; reflexivity.
Qed.

(** With the array present, the index one past the last slot passes the
    range check and the read leaves the array. *)
Lemma GetKeywordThreadCtx_at_size det_ctx a :
  keyword_ctxs_array det_ctx = Some a ->
  Z.of_nat (length a) = keyword_ctxs_size det_ctx ->
  DetectThreadCtxGetKeywordThreadCtx det_ctx (keyword_ctxs_size det_ctx) = Undef.
Proof.
  intros Ha Hlen. unfold DetectThreadCtxGetKeywordThreadCtx.
  replace (keyword_ctxs_size det_ctx <? 0) with false by lia.
  replace (keyword_ctxs_size det_ctx >? keyword_ctxs_size det_ctx) with false by lia.
  rewrite bool_decide_eq_false_2 by congruence. rewrite Ha. simpl.
  unfold array_get.
  replace (keyword_ctxs_size det_ctx <? 0) with false by lia.
  rewrite lookup_ge_None_2; [reflexivity|lia].
Qed.

(** C1 at the index equal to the keyword count: for the thread context of an
    engine with one registered keyword, the array has the single slot 0,
    index 1 is not a valid index, and the lookup at 1 does not return [NULL]
    but reads past the end of the array. *)
Theorem GetKeywordThreadCtx_past_end :
  DetectEngineThreadCtxInitKeywords true example_keyword_ctx
    DetectEngineThreadCtx_zero = Ret (TM_ECODE_OK, example_det_ctx) /\
  keyword_id example_keyword_ctx = 1 /\
  keyword_ctxs_size example_det_ctx = 1 /\
  keyword_ctxs_array example_det_ctx = Some [4097] /\
  DetectThreadCtxGetKeywordThreadCtx example_det_ctx 0 = Ret 4097 /\
  DetectThreadCtxGetKeywordThreadCtx example_det_ctx 2 = Ret 0 /\
  DetectThreadCtxGetKeywordThreadCtx example_det_ctx 1 = Undef /\
  DetectThreadCtxGetKeywordThreadCtx example_det_ctx 1 <> Ret 0.
Proof.
  repeat split; try (vm_compute; reflexivity).
  vm_compute. discriminate.
Qed.

(** ** The master registry *)

(** *** Heap lists *)

Lemma is_list_functional h p l1 l2 :
  is_list h p l1 -> is_list h p l2 -> l1 = l2.
Proof.
  revert p l2. induction l1 as [|x l1 IH]; intros p [|y l2]; simpl.
  - reflexivity.
  - intros -> [? _]. discriminate.
  - intros [-> _] ?. discriminate.
  - intros [-> (c & Hc & Hl1)] [[= <-] (c' & Hc' & Hl2)].
    rewrite Hc in Hc'. injection Hc' as <-. f_equal. eapply IH; eassumption.
Qed.

Lemma is_list_suffix h p l1 x l2 :
  is_list h p (l1 ++ x :: l2) -> is_list h (Some x) (x :: l2).
Proof.
  revert p. induction l1 as [|y l1 IH]; intros p; simpl.
  - intros [-> H]. split; [reflexivity|exact H].
  - intros [-> (c & Hc & H)]. apply (IH _ H).
Qed.

(** A [NULL]-terminated list visits no node twice. *)
Lemma is_list_NoDup h p l : is_list h p l -> NoDup l.
Proof.
  revert p. induction l as [|x l IH]; intros p; [constructor|].
  intros Hl. pose proof Hl as [-> (c & Hc & Hrest)].
  constructor; [|apply (IH _ Hrest)].
  intros Hin. apply list_elem_of_split in Hin as (l1 & l2 & ->).
  pose proof (is_list_suffix _ _ _ _ _ Hrest) as Hsuf.
  pose proof (is_list_functional _ _ _ _ Hl Hsuf) as Heq.
  apply (f_equal length) in Heq. simpl in Heq. rewrite length_app in Heq.
  simpl in Heq. lia.
Qed.

(** A list depends only on its own nodes. *)
Lemma is_list_frame (h h' : heap) p l :
  (forall x, x ∈ l -> h' !! x = h !! x) -> is_list h p l -> is_list h' p l.
Proof.
  revert p. induction l as [|x l IH]; intros p Hsame; simpl; [tauto|].
  intros [-> (c & Hc & Hrest)]. split; [reflexivity|].
  exists c. split.
  - rewrite Hsame; [exact Hc|left].
  - apply IH; [|exact Hrest]. intros y Hy. apply Hsame. right. exact Hy.
Qed.

Lemma is_list_insert_other (h : heap) p l x c :
  x ∉ l -> is_list h p l -> is_list (<[x := c]> h) p l.
Proof.
  intros Hx. apply is_list_frame. intros y Hy.
  apply lookup_insert_ne. intros ->. exact (Hx Hy).
Qed.

(** A list does not notice a change that keeps the links. *)
Lemma is_list_same_next (h : heap) p l x c c' :
  h !! x = Some c -> next c' = next c ->
  is_list h p l -> is_list (<[x := c']> h) p l.
Proof.
  intros Hc Hnext. revert p. induction l as [|y l IH]; intros p; simpl; [tauto|].
  intros [-> (cy & Hcy & Hrest)]. split; [reflexivity|].
  destruct (decide (x = y)) as [->|Hne].
  - exists c'. rewrite lookup_insert_eq. split; [reflexivity|].
    rewrite Hnext. rewrite Hc in Hcy. injection Hcy as ->. apply IH. exact Hrest.
  - exists cy. rewrite lookup_insert_ne by exact Hne. split; [exact Hcy|].
    apply IH. exact Hrest.
Qed.

Lemma is_list_head (h : heap) p x l :
  is_list h p (x :: l) -> p = Some x /\ exists c, h !! x = Some c /\ is_list h (next c) l.
Proof. simpl. tauto. Qed.

(** *** DetectEngineGetCurrent *)

Lemma wrap_uint32_succ z : 0 <= z < UINT32_MAX -> wrap_uint32 (z + 1) = z + 1.
Proof. unfold wrap_uint32, UINT32_MAX. intros H. apply Z.mod_small. lia. Qed.

Lemma AddToMaster_head s master (h : heap) c :
  h !! s = Some c ->
  exists master1 h1,
    DetectEngineAddToMaster (Some s) master h = Ret (0, master1, h1) /\
    m_list master1 = Some s /\ m_free_list master1 = m_free_list master /\
    exists c1, h1 !! s = Some c1 /\ ref_cnt c1 = ref_cnt c.
Proof.
  intros Hc. unfold DetectEngineAddToMaster, DetectEngineAddToList.
  destruct (m_list master) as [l|].
  - unfold load. rewrite Hc. cbn [obind]. eexists _, _.
    split; [reflexivity|]. split; [reflexivity|]. split; [reflexivity|].
    eexists. rewrite lookup_insert_eq. split; reflexivity.
  - eexists _, _. split; [reflexivity|]. split; [reflexivity|].
    split; [reflexivity|]. exists c. split; [exact Hc|reflexivity].
Qed.

(** C9: with no active context [DetectEngineGetCurrent] returns [NULL] and
    changes nothing; otherwise it returns the head of the active list after
    incrementing its reference count, by exactly one as long as the count is
    below the largest value of its 32-bit type, and no other context, no
    link and neither list changes; and right after
    [DetectEngineAddToMaster] succeeded for a context,
    [DetectEngineGetCurrent] returns that context. *)
Theorem GetCurrent_head
    (master : DetectEngineMasterCtx) (h : heap) (active free : list loc)
    (Hreg : registry_lists master h active free) :
  (active = [] -> DetectEngineGetCurrent master h = Ret (None, h)) /\
  (forall s rest,
      active = s :: rest ->
      exists c h',
        h !! s = Some c /\
        DetectEngineGetCurrent master h = Ret (Some s, h') /\
        h' !! s = Some (set_ref_cnt (wrap_uint32 (ref_cnt c + 1)) c) /\
        (0 <= ref_cnt c < UINT32_MAX ->
         wrap_uint32 (ref_cnt c + 1) = ref_cnt c + 1) /\
        (forall x, x <> s -> h' !! x = h !! x) /\
        registry_lists master h' active free) /\
  (forall s c,
      h !! s = Some c ->
      exists master1 h1 h2,
        DetectEngineAddToMaster (Some s) master h = Ret (0, master1, h1) /\
        DetectEngineGetCurrent master1 h1 = Ret (Some s, h2)).
Proof.
  destruct Hreg as (Hact & Hfree & Hdisj). split; [|split].
  - intros ->. simpl in Hact. unfold DetectEngineGetCurrent. rewrite Hact.
    reflexivity.
  - intros s rest ->.
    pose proof Hact as [Hhead (c & Hc & _)]. unfold DetectEngineGetCurrent.
    rewrite Hhead. unfold load. rewrite Hc. cbn [obind].
    exists c. eexists. split; [reflexivity|]. split; [reflexivity|].
    split; [apply lookup_insert_eq|]. split; [apply wrap_uint32_succ|]. split.
    + intros x Hx. apply lookup_insert_ne. congruence.
    + split; [|split; [|exact Hdisj]].
      * apply (is_list_same_next _ _ _ _ c); [exact Hc|reflexivity|exact Hact].
      * apply (is_list_same_next _ _ _ _ c); [exact Hc|reflexivity|exact Hfree].
  - intros s c Hc.
    destruct (AddToMaster_head s master h c Hc)
      as (master1 & h1 & Hadd & Hl & _ & c1 & Hc1 & _).
    exists master1, h1. eexists. split; [exact Hadd|].
    unfold DetectEngineGetCurrent. rewrite Hl. unfold load. rewrite Hc1.
    reflexivity.
Qed.

Ltac solve_is_list :=
  repeat match goal with
         | |- is_list _ _ [] => reflexivity
         | |- is_list _ _ (_ :: _) =>
             split; [reflexivity|]; eexists; split; [vm_compute; reflexivity|];
             cbn [next example_node set_next]
         end.

Lemma move_example_lists :
  registry_lists move_example_master move_example_heap
    [1%positive; 2%positive] [3%positive].
Proof.
  split; [|split].
  - solve_is_list.
  - solve_is_list.
  - intros x Hx Hf. apply list_elem_of_singleton in Hf. subst x.
    apply elem_of_cons in Hx as [Hx|Hx]; [discriminate Hx|].
    apply list_elem_of_singleton in Hx. discriminate Hx.
Qed.

Lemma GetCurrent_head_witness :
  exists h',
    DetectEngineGetCurrent move_example_master move_example_heap
    = Ret (Some 1%positive, h') /\
    ref_cnt <$> h' !! 1%positive = Some 3 /\
    registry_lists move_example_master h' [1%positive; 2%positive] [3%positive].
Proof.
  destruct (proj1 (proj2 (GetCurrent_head move_example_master move_example_heap
                            [1%positive; 2%positive] [3%positive]
                            move_example_lists))
              1%positive [2%positive] eq_refl)
    as (c & h' & Hc & Hget & Hhead & _ & _ & Hlists).
  exists h'. split; [exact Hget|]. split; [|exact Hlists].
  rewrite Hhead. vm_compute in Hc. injection Hc as <-. reflexivity.
Defined.

(** *** DetectEngineMoveToFreeList *)

Lemma unlink_loop_absent fuel de_ctx prev p (h : heap) l :
  is_list h p l ->
  (forall x, x ∈ l -> Some x <> de_ctx) ->
  (length l < fuel)%nat ->
  unlink_loop fuel de_ctx prev p h = Ret (None, h).
Proof.
  revert fuel prev p. induction l as [|y l IH]; intros fuel prev p Hl Hno Hfuel.
  - simpl in Hl. subst p. destruct fuel; [simpl in Hfuel; lia|]. reflexivity.
  - destruct Hl as [-> (c & Hc & Hrest)].
    destruct fuel as [|fuel]; [simpl in Hfuel; lia|].
    cbn [unlink_loop]. unfold load. rewrite Hc. cbn [obind].
    rewrite decide_False by (apply Hno; left).
    apply IH; [exact Hrest| |simpl in Hfuel; lia].
    intros x Hx. apply Hno. right. exact Hx.
Qed.

Lemma unlink_loop_found fuel s (h : heap) l1 l2 :
  forall prev pc,
    h !! prev = Some pc ->
    is_list h (next pc) (l1 ++ s :: l2) ->
    NoDup (prev :: l1 ++ s :: l2) ->
    (length l1 < fuel)%nat ->
    exists h1,
      unlink_loop fuel (Some s) prev (next pc) h = Ret (Some s, h1) /\
      is_list h1 (Some prev) (prev :: l1 ++ l2) /\
      (forall x, x ∉ prev :: l1 -> h1 !! x = h !! x).
Proof.
  revert fuel. induction l1 as [|y l1 IH]; intros fuel prev pc Hprev Hl Hnd Hfuel.
  - destruct fuel as [|fuel]; [simpl in Hfuel; lia|].
    simpl in Hl. destruct Hl as [Hnx (cs & Hcs & Hrest)].
    cbn [unlink_loop]. rewrite Hnx. unfold load. rewrite Hcs. cbn [obind].
    rewrite decide_True by reflexivity. rewrite Hprev. cbn [obind].
    eexists. split; [reflexivity|]. split.
    + simpl. split; [reflexivity|]. eexists. rewrite lookup_insert_eq.
      split; [reflexivity|]. cbn [set_next next].
      apply is_list_insert_other; [|exact Hrest].
      apply NoDup_cons in Hnd as [Hnotin _]. intros Hin. apply Hnotin.
      simpl. right. exact Hin.
    + intros x Hx. apply lookup_insert_ne. intros ->. apply Hx. left.
  - destruct fuel as [|fuel]; [simpl in Hfuel; lia|].
    simpl in Hl. destruct Hl as [Hnx (cy & Hcy & Hrest)].
    cbn [unlink_loop]. rewrite Hnx. unfold load. rewrite Hcy. cbn [obind].
    apply NoDup_cons in Hnd as [Hprev_notin Hnd].
    assert (Hys : y <> s).
    { simpl in Hnd. apply NoDup_cons in Hnd as [Hy _]. intros ->. apply Hy.
      apply elem_of_app. right. left. }
    rewrite decide_False by congruence.
    destruct (IH fuel y cy Hcy Hrest Hnd ltac:(simpl in Hfuel; lia))
      as (h1 & Hrun & Hlist & Hframe).
    exists h1. split; [exact Hrun|]. split.
    + simpl. split; [reflexivity|]. exists pc. split.
      * rewrite Hframe; [exact Hprev|]. intros Hin. apply Hprev_notin.
        simpl. apply elem_of_cons in Hin as [->|Hin]; [left|].
        right. apply elem_of_app. left. exact Hin.
      * rewrite Hnx. exact Hlist.
    + intros x Hx. apply Hframe. intros Hin. apply Hx. right. exact Hin.
Qed.

Lemma is_list_NULL (h : heap) l : is_list h None l -> l = [].
Proof. destruct l; [reflexivity|]. intros [H _]. discriminate H. Qed.

Lemma add_to_free_list_lists i master (h : heap) ci la lf :
  h !! i = Some ci ->
  is_list h (m_list master) la ->
  is_list h (m_free_list master) lf ->
  i ∉ la -> i ∉ lf ->
  (forall x, x ∈ la -> x ∈ lf -> False) ->
  exists master' h',
    add_to_free_list i master h = Ret (0, master', h') /\
    m_list master' = m_list master /\
    m_free_list master' = Some i /\
    registry_lists master' h' la (i :: lf) /\
    (forall x, x <> i -> h' !! x = h !! x).
Proof.
  intros Hi Hla Hlf Hia Hif Hdisj. unfold add_to_free_list, load.
  rewrite Hi. cbn [obind].
  assert (Hd : forall x, x ∈ la -> x ∈ i :: lf -> False).
  { intros x Hx Hx'. apply elem_of_cons in Hx' as [->|Hx'];
      [exact (Hia Hx)|exact (Hdisj x Hx Hx')]. }
  destruct (m_free_list master) as [f|] eqn:Hf.
  - rewrite lookup_insert_eq. cbn [obind]. eexists _, _.
    split; [reflexivity|]. split; [reflexivity|]. split; [reflexivity|].
    split; [split; [|split; [|exact Hd]]|].
    + cbn [m_list]. do 2 (apply is_list_insert_other; [exact Hia|]). exact Hla.
    + cbn [m_free_list]. split; [reflexivity|]. eexists.
      rewrite lookup_insert_eq. split; [reflexivity|]. cbn [set_next next].
      do 2 (apply is_list_insert_other; [exact Hif|]). exact Hlf.
    + intros x Hx. rewrite !lookup_insert_ne by congruence. reflexivity.
  - eexists _, _.
    split; [reflexivity|]. split; [reflexivity|]. split; [reflexivity|].
    split; [split; [|split; [|exact Hd]]|].
    + cbn [m_list]. apply is_list_insert_other; [exact Hia|]. exact Hla.
    + cbn [m_free_list]. split; [reflexivity|]. eexists.
      rewrite lookup_insert_eq. split; [reflexivity|]. cbn [set_next next].
      apply is_list_NULL in Hlf. subst lf. reflexivity.
    + intros x Hx. rewrite lookup_insert_ne by congruence. reflexivity.
Qed.

(** C10: [DetectEngineMoveToFreeList] on a context that is not on the
    active list (an empty list included) returns [-1] and leaves the
    registry and the heap as they were; on a context of the active list it
    returns 0, the active list is the old one without that context, in the
    old order, and the free list is the old one with that context put in
    front. *)
Theorem MoveToFreeList_atomic
    (fuel : nat) (de_ctx : option loc)
    (master : DetectEngineMasterCtx) (h : heap) (active free : list loc)
    (Hreg : registry_lists master h active free)
    (Hfuel : (length active <= fuel)%nat) :
  ((forall s, de_ctx = Some s -> s ∉ active) ->
   DetectEngineMoveToFreeList fuel de_ctx master h = Ret (-1, master, h)) /\
  (forall s l1 l2,
      de_ctx = Some s -> active = l1 ++ s :: l2 ->
      exists master' h',
        DetectEngineMoveToFreeList fuel de_ctx master h = Ret (0, master', h') /\
        m_free_list master' = Some s /\
        registry_lists master' h' (l1 ++ l2) (s :: free)).
Proof.
  destruct Hreg as (Hact & Hfree & Hdisj).
  pose proof (is_list_NoDup _ _ _ Hact) as Hnd.
  unfold DetectEngineMoveToFreeList. split.
  - intros Habsent. destruct active as [|first rest].
    + simpl in Hact. rewrite Hact. reflexivity.
    + destruct Hact as [-> (c & Hc & Hrest)].
      assert (Hne : forall x, x ∈ first :: rest -> Some x <> de_ctx).
      { intros x Hx Heq. apply (Habsent x); [symmetry; exact Heq|exact Hx]. }
      rewrite decide_False by (apply Hne; left).
      unfold load. rewrite Hc. cbn [obind].
      rewrite (unlink_loop_absent fuel de_ctx first (next c) h rest Hrest).
      * reflexivity.
      * intros x Hx. apply Hne. right. exact Hx.
      * simpl in Hfuel. lia.
  - intros s l1 l2 -> ->. destruct l1 as [|first l1].
    + simpl in Hact. destruct Hact as [-> (c & Hc & Hrest)].
      rewrite decide_True by reflexivity. unfold load. rewrite Hc. cbn [obind].
      apply NoDup_cons in Hnd as [Hs Hnd].
      destruct (add_to_free_list_lists s
                  {| m_list := next c; m_free_list := m_free_list master |}
                  h c l2 free Hc Hrest Hfree Hs)
        as (master' & h' & Hrun & _ & Hfl & Hlists & _).
      * intros Hin. apply (Hdisj s); [left|exact Hin].
      * intros x Hx. apply Hdisj. right. exact Hx.
      * exists master', h'. split; [exact Hrun|]. split; assumption.
    + change ((first :: l1) ++ s :: l2) with (first :: l1 ++ s :: l2) in *.
      destruct Hact as [Hm (c & Hc & Hrest)]. rewrite Hm.
      assert (Hfs : first <> s).
      { apply NoDup_cons in Hnd as [Hf _]. intros ->. apply Hf.
        apply elem_of_app. right. left. }
      rewrite decide_False by congruence.
      unfold load at 1. rewrite Hc. cbn [obind].
      destruct (unlink_loop_found fuel s h l1 l2 first c Hc Hrest Hnd)
        as (h1 & Hrun & Hlist & Hframe).
      { simpl in Hfuel. rewrite length_app in Hfuel. simpl in Hfuel. lia. }
      rewrite Hrun. cbn [obind fst snd].
      assert (Hs_notin : s ∉ first :: l1 ++ l2).
      { apply NoDup_cons in Hnd as [_ Hnd'].
        apply NoDup_app in Hnd' as (_ & Hsep & Hnd2).
        apply NoDup_cons in Hnd2 as [Hs2 _].
        intros Hin. apply elem_of_cons in Hin as [Heq|Hin]; [congruence|].
        apply elem_of_app in Hin as [Hin|Hin]; [|exact (Hs2 Hin)].
        apply (Hsep s Hin). left. }
      assert (Hs_prefix : s ∉ first :: l1).
      { intros Hin. apply Hs_notin. apply elem_of_cons in Hin as [->|Hin];
          [left|right; apply elem_of_app; left; exact Hin]. }
      pose proof (is_list_suffix _ _ _ _ _ Hrest) as [_ (cs & Hcs & _)].
      assert (Hcs1 : h1 !! s = Some cs) by (rewrite Hframe; assumption).
      assert (Hfree1 : is_list h1 (m_free_list master) free).
      { apply (is_list_frame h); [|exact Hfree]. intros x Hx. apply Hframe.
        intros Hin. apply (Hdisj x); [|exact Hx].
        apply elem_of_cons in Hin as [->|Hin]; [left|].
        right. apply elem_of_app. left. exact Hin. }
      rewrite <- Hm in Hlist.
      destruct (add_to_free_list_lists s master h1 cs (first :: l1 ++ l2) free
                  Hcs1 Hlist Hfree1 Hs_notin)
        as (master' & h' & Hadd & _ & Hfl & Hlists & _).
      * intros Hin. apply (Hdisj s); [|exact Hin].
        right. apply elem_of_app. right. left.
      * intros x Hx. apply Hdisj.
        apply elem_of_cons in Hx as [->|Hx]; [left|].
        right. apply elem_of_app in Hx as [Hx|Hx]; apply elem_of_app;
          [left; exact Hx|right; right; exact Hx].
      * exists master', h'. split; [exact Hadd|]. split; assumption.
Qed.

Lemma MoveToFreeList_atomic_witness :
  DetectEngineMoveToFreeList 2 (Some 3%positive) move_example_master move_example_heap
  = Ret (-1, move_example_master, move_example_heap) /\
  exists master' h',
    DetectEngineMoveToFreeList 2 (Some 2%positive) move_example_master
      move_example_heap = Ret (0, master', h') /\
    m_free_list master' = Some 2%positive /\
    registry_lists master' h' [1%positive] [2%positive; 3%positive].
Proof.
  split.
  - apply (proj1 (MoveToFreeList_atomic 2 (Some 3%positive) move_example_master
                    move_example_heap [1%positive; 2%positive] [3%positive]
                    move_example_lists ltac:(simpl; lia))).
    intros s [= <-] Hin.
    apply elem_of_cons in Hin as [Hin|Hin]; [discriminate Hin|].
    apply list_elem_of_singleton in Hin. discriminate Hin.
  - apply (proj2 (MoveToFreeList_atomic 2 (Some 2%positive) move_example_master
                    move_example_heap [1%positive; 2%positive] [3%positive]
                    move_example_lists ltac:(simpl; lia))
             2%positive [1%positive] [] eq_refl eq_refl).
Defined.

Example MoveToFreeList_runs :
  DetectEngineMoveToFreeList 2 (Some 2%positive) move_example_master move_example_heap
  = Ret (0, {| m_list := Some 1%positive; m_free_list := Some 2%positive |},
         <[1%positive := example_node 2 None]>
           (<[2%positive := example_node 1 (Some 3%positive)]>
              (<[3%positive := example_node 1 None]> ∅))).
Proof. vm_compute. reflexivity. Qed.

(** *** DetectEnginePruneFreeList *)

Example prune_example_free_list :
  is_list prune_example_heap (m_free_list prune_example_master)
    [1%positive; 2%positive; 3%positive].
Proof. solve_is_list. Qed.

(** C2 on a free list whose first context is still referenced and whose
    second and third are not: after the prune both unreferenced contexts
    are released, the free list is empty, and the referenced context, still
    allocated with its count of 1, is on no list. *)
Theorem PruneFreeList_loses_referenced :
  is_list prune_example_heap (m_free_list prune_example_master)
    [1%positive; 2%positive; 3%positive] /\
  list_nodes 4 prune_example_heap (m_free_list prune_example_master)
  = [1%positive; 2%positive; 3%positive] /\
  (ref_cnt <$> prune_example_heap !! 1%positive) = Some 1 /\
  DetectEnginePruneFreeList 4 prune_example_master prune_example_heap
  = Ret ({| m_list := None; m_free_list := None |},
         <[1%positive := example_node 1 (Some 3%positive)]> ∅) /\
  list_nodes 4 (<[1%positive := example_node 1 (Some 3%positive)]> ∅) None = [].
Proof.
  split; [solve_is_list|]. repeat split; vm_compute; reflexivity.
Qed.

(** What the prune does get right on every well-formed free list: it
    returns, every context of the list without references is released, and
    every context of the list with references stays allocated with its
    count.  It says nothing on whether such a context is still reachable
    from the head of the free list. *)
Lemma prune_loop_releases l :
  forall fuel prev instance master (h : heap),
    is_list h instance l ->
    (forall p, prev = Some p -> (p ∉ l) /\ is_Some (h !! p)) ->
    (length l < fuel)%nat ->
    exists master' h',
      prune_loop fuel prev instance master h = Ret (master', h') /\
      m_list master' = m_list master /\
      (forall x c, x ∈ l -> h !! x = Some c ->
         if ref_cnt c =? 0 then h' !! x = None
         else exists c', h' !! x = Some c' /\ ref_cnt c' = ref_cnt c) /\
      (forall p pc, prev = Some p -> h !! p = Some pc ->
         exists pc', h' !! p = Some pc' /\ ref_cnt pc' = ref_cnt pc) /\
      (forall x, x ∉ l -> prev <> Some x -> h' !! x = h !! x).
Proof.
  induction l as [|i l IH]; intros fuel prev instance master h Hl Hprev Hfuel.
  - simpl in Hl. subst instance. destruct fuel; [simpl in Hfuel; lia|].
    exists master, h. split; [reflexivity|]. split; [reflexivity|].
    split; [intros x c Hx; inversion Hx|]. split; [eauto|reflexivity].
  - pose proof (is_list_NoDup _ _ _ Hl) as Hnd.
    apply NoDup_cons in Hnd as [Hi Hnd].
    destruct Hl as [-> (c & Hc & Hrest)].
    destruct fuel as [|fuel]; [simpl in Hfuel; lia|].
    cbn [prune_loop]. unfold load at 1. rewrite Hc. cbn [obind].
    destruct (ref_cnt c =? 0) eqn:Hrc.
    + (* released *)
      assert (Hunl : exists m1 h1,
                 match prev with
                 | Some p => (let! pc := load h p in
                              Ret (master, <[p := set_next (next c) pc]> h))
                 | None => Ret ({| m_list := m_list master;
                                   m_free_list := next c |}, h)
                 end = Ret (m1, h1) /\
                 m_list m1 = m_list master /\
                 (forall x, prev <> Some x -> h1 !! x = h !! x) /\
                 (forall p pc, prev = Some p -> h !! p = Some pc ->
                    exists pc', h1 !! p = Some pc' /\ ref_cnt pc' = ref_cnt pc)).
      { destruct prev as [p|].
        - destruct (Hprev p eq_refl) as [_ [pc Hpc]]. unfold load. rewrite Hpc.
          eexists _, _. split; [reflexivity|]. split; [reflexivity|]. split.
          + intros x Hx. apply lookup_insert_ne. congruence.
          + intros p' pc' [= <-] Hpc'. rewrite Hpc in Hpc'. injection Hpc' as <-.
            eexists. rewrite lookup_insert_eq. split; reflexivity.
        - eexists _, _. split; [reflexivity|]. split; [reflexivity|].
          split; [reflexivity|]. intros p pc Hp. discriminate Hp. }
      destruct Hunl as (m1 & h1 & -> & Hm1 & Hh1 & Hp1). cbn [obind fst snd].
      assert (Hprev_i : prev <> Some i).
      { intros ->. destruct (Hprev i eq_refl) as [Hni _]. apply Hni. left. }
      assert (Hprev_l : forall x, x ∈ l -> prev <> Some x).
      { intros x Hx ->. destruct (Hprev x eq_refl) as [Hni _]. apply Hni.
        right. exact Hx. }
      assert (Hrest' : is_list (DetectEngineCtxFree i h1) (next c) l).
      { apply (is_list_frame h); [|exact Hrest]. intros x Hx.
        unfold DetectEngineCtxFree. rewrite lookup_delete_ne by congruence.
        apply Hh1. apply Hprev_l. exact Hx. }
      destruct (IH fuel None (next c) m1 (DetectEngineCtxFree i h1) Hrest')
        as (master' & h' & Hrun & Hm & Hrel & _ & Hframe).
      { intros p Hp. discriminate Hp. }
      { simpl in Hfuel. lia. }
      exists master', h'. split; [exact Hrun|]. split; [congruence|].
      split; [|split].
      * intros x cx Hx Hcx. apply elem_of_cons in Hx as [->|Hx].
        -- rewrite Hc in Hcx. injection Hcx as <-. rewrite Hrc.
           rewrite Hframe; [|exact Hi|discriminate].
           apply lookup_delete_eq.
        -- apply (Hrel x cx Hx). unfold DetectEngineCtxFree.
           rewrite lookup_delete_ne by congruence.
           rewrite Hh1; [exact Hcx|]. apply Hprev_l. exact Hx.
      * intros p pc -> Hpc. destruct (Hp1 p pc eq_refl Hpc) as (pc' & Hpc' & Hr).
        exists pc'. split; [|exact Hr].
        destruct (Hprev p eq_refl) as [Hnp _].
        rewrite Hframe; [| |discriminate].
        -- unfold DetectEngineCtxFree. rewrite lookup_delete_ne; [exact Hpc'|].
           intros ->. apply Hnp. left.
        -- intros Hin. apply Hnp. right. exact Hin.
      * intros x Hx Hpx. rewrite Hframe; [| |discriminate].
        -- unfold DetectEngineCtxFree. rewrite lookup_delete_ne.
           ++ apply Hh1. exact Hpx.
           ++ intros ->. apply Hx. left.
        -- intros Hin. apply Hx. right. exact Hin.
    + (* kept *)
      destruct (IH fuel (Some i) (next c) master h Hrest)
        as (master' & h' & Hrun & Hm & Hrel & Hkeep & Hframe).
      { intros p [= <-]. split; [exact Hi|]. exists c. exact Hc. }
      { simpl in Hfuel. lia. }
      exists master', h'. split; [exact Hrun|]. split; [exact Hm|].
      split; [|split].
      * intros x cx Hx Hcx. apply elem_of_cons in Hx as [->|Hx].
        -- rewrite Hc in Hcx. injection Hcx as <-. rewrite Hrc.
           apply (Hkeep i c eq_refl Hc).
        -- apply (Hrel x cx Hx Hcx).
      * intros p pc -> Hpc. exists pc. split; [|reflexivity].
        destruct (Hprev p eq_refl) as [Hnp _].
        rewrite Hframe; [exact Hpc| |].
        -- intros Hin. apply Hnp. right. exact Hin.
        -- intros [= ->]. apply Hnp. left.
      * intros x Hx Hpx. apply Hframe.
        -- intros Hin. apply Hx. right. exact Hin.
        -- intros [= ->]. apply Hx. left.
Qed.

Lemma PruneFreeList_releases fuel master (h : heap) free :
  is_list h (m_free_list master) free ->
  (length free < fuel)%nat ->
  exists master' h',
    DetectEnginePruneFreeList fuel master h = Ret (master', h') /\
    m_list master' = m_list master /\
    (forall x c, x ∈ free -> h !! x = Some c ->
       if ref_cnt c =? 0 then h' !! x = None
       else exists c', h' !! x = Some c' /\ ref_cnt c' = ref_cnt c) /\
    (forall x, x ∉ free -> h' !! x = h !! x).
Proof.
  intros Hfree Hfuel.
  destruct (prune_loop_releases free fuel None (m_free_list master) master h Hfree)
    as (master' & h' & Hrun & Hm & Hrel & _ & Hframe).
  - intros p Hp. discriminate Hp.
  - exact Hfuel.
  - exists master', h'. split; [exact Hrun|]. split; [exact Hm|].
    split; [exact Hrel|]. intros x Hx. apply Hframe; [exact Hx|discriminate].
Qed.

(** * Further properties *)

(** ** References *)

Lemma set_ref_cnt_same c r : r = ref_cnt c -> set_ref_cnt r c = c.
Proof. intros ->. destruct c; reflexivity. Qed.

Lemma set_ref_cnt_twice r1 r2 c : set_ref_cnt r2 (set_ref_cnt r1 c) = set_ref_cnt r2 c.
Proof. reflexivity. Qed.

(** Taking a reference and dropping it again gives the heap back, as long as
    the count can still grow; dropping a reference from a count of zero ends
    the process instead of wrapping the count around. *)
Theorem Reference_DeReference (h : heap) (p : loc) (c : DetectEngineCtx)
    (Hc : h !! p = Some c) :
  (0 <= ref_cnt c < UINT32_MAX ->
   exists h1,
     DetectEngineReference (Some p) h = Ret (Some p, h1) /\
     ref_of h1 p = ref_cnt c + 1 /\
     DetectEngineDeReference (Some p) h1 = Ret h) /\
  (ref_cnt c = 0 -> DetectEngineDeReference (Some p) h = Exit) /\
  (0 < ref_cnt c <= UINT32_MAX ->
   exists h2,
     DetectEngineDeReference (Some p) h = Ret h2 /\
     ref_of h2 p = ref_cnt c - 1 /\
     forall x, x <> p -> h2 !! x = h !! x).
Proof.
  split; [|split].
  - intros Hrange. unfold DetectEngineReference, load. rewrite Hc. cbn [obind].
    rewrite (wrap_uint32_succ _ Hrange). eexists. split; [reflexivity|]. split.
    + unfold ref_of. rewrite lookup_insert_eq. reflexivity.
    + unfold DetectEngineDeReference, load. rewrite lookup_insert_eq. cbn [obind].
      cbn [set_ref_cnt ref_cnt].
      replace (ref_cnt c + 1 =? 0) with false by lia.
      replace (ref_cnt c + 1 - 1) with (ref_cnt c) by lia.
      unfold wrap_uint32. rewrite Z.mod_small by (unfold UINT32_MAX in Hrange; lia).
      rewrite insert_insert_eq. f_equal. apply insert_id. rewrite Hc. f_equal.
      destruct c; reflexivity.
  - intros Hz. unfold DetectEngineDeReference, load. rewrite Hc. cbn [obind].
    rewrite Hz. reflexivity.
  - intros Hrange. unfold DetectEngineDeReference, load. rewrite Hc. cbn [obind].
    replace (ref_cnt c =? 0) with false by lia.
    eexists. split; [reflexivity|]. split.
    + unfold ref_of. rewrite lookup_insert_eq. cbn [set_ref_cnt ref_cnt].
      unfold wrap_uint32. apply Z.mod_small. unfold UINT32_MAX in Hrange. lia.
    + intros x Hx. apply lookup_insert_ne. congruence.
Qed.

Lemma Reference_DeReference_witness :
  exists h1,
    DetectEngineReference (Some 1%positive) move_example_heap
    = Ret (Some 1%positive, h1) /\
    ref_of h1 1%positive = 3 /\
    DetectEngineDeReference (Some 1%positive) h1 = Ret move_example_heap.
Proof.
  destruct (proj1 (Reference_DeReference move_example_heap 1%positive
                     (example_node 2 (Some 2%positive))
                     ltac:(vm_compute; reflexivity))
              ltac:(unfold UINT32_MAX; simpl; lia))
    as (h1 & H1 & H2 & H3).
  exists h1. split; [exact H1|]. split; [exact H2|exact H3].
Defined.

(** ** Adding to the master *)

Lemma AddToMaster_fresh
    (master : DetectEngineMasterCtx) (h : heap) (active free : list loc)
    (s : loc) (c : DetectEngineCtx) :
  registry_lists master h active free ->
  h !! s = Some c ->
  s ∉ active -> s ∉ free ->
  (active = [] -> next c = None) ->
  exists master' h',
    DetectEngineAddToMaster (Some s) master h = Ret (0, master', h') /\
    registry_lists master' h' (s :: active) free /\
    ref_of h' s = ref_cnt c /\
    forall x, x <> s -> h' !! x = h !! x.
Proof.
  intros Hreg Hc Hactive Hfree Hnext.
  destruct Hreg as (Hact & Hfr & Hdisj).
  assert (Hd : forall x, x ∈ s :: active -> x ∈ free -> False).
  { intros x Hx Hx'. apply elem_of_cons in Hx as [->|Hx];
      [exact (Hfree Hx')|exact (Hdisj x Hx Hx')]. }
  unfold DetectEngineAddToMaster, DetectEngineAddToList.
  destruct (m_list master) as [l|] eqn:Hl.
  - unfold load. rewrite Hc. cbn [obind]. eexists _, _.
    split; [reflexivity|]. split; [|split].
    + split; [|split; [|exact Hd]].
      * cbn [m_list]. split; [reflexivity|]. eexists.
        rewrite lookup_insert_eq. split; [reflexivity|]. cbn [set_next next].
        apply is_list_insert_other; assumption.
      * cbn [m_free_list]. apply is_list_insert_other; assumption.
    + unfold ref_of. rewrite lookup_insert_eq. reflexivity.
    + intros x Hx. apply lookup_insert_ne. congruence.
  - apply is_list_NULL in Hact. subst active. eexists _, _.
    split; [reflexivity|]. split; [|split].
    + split; [|split; [|exact Hd]].
      * cbn [m_list]. split; [reflexivity|]. exists c. split; [exact Hc|].
        rewrite (Hnext eq_refl). reflexivity.
      * exact Hfr.
    + unfold ref_of. rewrite Hc. reflexivity.
    + reflexivity.
Qed.

(** [DetectEngineAddToMaster] refuses [NULL] with [-1] and no change.  A
    context that is on neither list becomes the head of the active list, in
    front of the contexts that were there, and nothing else changes; when
    the active list was empty the link of the context is not written, so it
    has to be [NULL] already. *)
Theorem AddToMaster_links_head
    (master : DetectEngineMasterCtx) (h : heap) (active free : list loc)
    (s : loc) (c : DetectEngineCtx)
    (Hreg : registry_lists master h active free)
    (Hc : h !! s = Some c)
    (Hactive : s ∉ active) (Hfree : s ∉ free)
    (Hnext : active = [] -> next c = None) :
  DetectEngineAddToMaster None master h = Ret (-1, master, h) /\
  exists master' h',
    DetectEngineAddToMaster (Some s) master h = Ret (0, master', h') /\
    registry_lists master' h' (s :: active) free /\
    ref_of h' s = ref_cnt c /\
    forall x, x <> s -> h' !! x = h !! x.
Proof.
  split; [reflexivity|].
  apply (AddToMaster_fresh master h active free s c); assumption.
Qed.

Lemma reload_example_lists :
  registry_lists reload_example_master reload_example_heap [1%positive] [].
Proof.
  split; [solve_is_list|]. split; [reflexivity|].
  intros x _ Hx. inversion Hx.
Qed.

Lemma AddToMaster_links_head_witness :
  exists master' h',
    DetectEngineAddToMaster (Some 2%positive) reload_example_master
      reload_example_heap = Ret (0, master', h') /\
    registry_lists master' h' [2%positive; 1%positive] [].
Proof.
  destruct (proj2 (AddToMaster_links_head reload_example_master reload_example_heap
                     [1%positive] [] 2%positive (example_node 0 None)
                     reload_example_lists ltac:(vm_compute; reflexivity)
                     ltac:(intros H; apply list_elem_of_singleton in H;
                           discriminate H)
                     ltac:(intros H; inversion H)
                     ltac:(intros H; discriminate H)))
    as (master' & h' & Hadd & Hlists & _).
  exists master', h'. split; assumption.
Defined.

(** ** Moving to the free list keeps every count *)

Lemma ref_of_insert_same_ref (h : heap) p pc c' x :
  h !! p = Some pc -> ref_cnt c' = ref_cnt pc ->
  ref_of (<[p := c']> h) x = ref_of h x.
Proof.
  intros Hp Hr. unfold ref_of. destruct (decide (p = x)) as [->|Hne].
  - rewrite lookup_insert_eq, Hp. exact Hr.
  - rewrite lookup_insert_ne by exact Hne. reflexivity.
Qed.

Lemma dom_insert_present (h : heap) p pc c' :
  h !! p = Some pc -> dom (<[p := c']> h) = dom h.
Proof.
  intros Hp. rewrite dom_insert_L.
  assert (Hin : p ∈ dom h) by (apply elem_of_dom; eauto).
  apply set_eq. intros x. rewrite elem_of_union, elem_of_singleton.
  split; [intros [->|Hx]; assumption|intros Hx; right; exact Hx].
Qed.

Lemma unlink_loop_keeps fuel de_ctx prev p (h : heap) r h1 :
  unlink_loop fuel de_ctx prev p h = Ret (r, h1) ->
  dom h1 = dom h /\ forall x, ref_of h1 x = ref_of h x.
Proof.
  revert prev p. induction fuel as [|fuel IH]; intros prev p; [discriminate|].
  cbn [unlink_loop]. destruct p as [i|]; [|intros [= <- <-]; split; reflexivity].
  unfold load. destruct (h !! i) as [c|] eqn:Hi; cbn [obind]; [|discriminate].
  destruct (decide (Some i = de_ctx)).
  - destruct (h !! prev) as [pc|] eqn:Hp; cbn [obind]; [|discriminate].
    intros [= <- <-]. split.
    + apply (dom_insert_present _ _ pc). exact Hp.
    + intros x. apply (ref_of_insert_same_ref _ _ pc); [exact Hp|reflexivity].
  - apply IH.
Qed.

Lemma add_to_free_list_keeps i master (h : heap) r master' h' :
  add_to_free_list i master h = Ret (r, master', h') ->
  r = 0 /\ dom h' = dom h /\ forall x, ref_of h' x = ref_of h x.
Proof.
  unfold add_to_free_list, load.
  destruct (h !! i) as [c|] eqn:Hi; cbn [obind]; [|discriminate].
  destruct (m_free_list master) as [f|].
  - rewrite lookup_insert_eq. cbn [obind]. intros [= <- <- <-].
    split; [reflexivity|]. split.
    + rewrite insert_insert_eq. apply (dom_insert_present _ _ c). exact Hi.
    + intros x. rewrite insert_insert_eq.
      apply (ref_of_insert_same_ref _ _ c); [exact Hi|reflexivity].
  - intros [= <- <- <-]. split; [reflexivity|]. split.
    + apply (dom_insert_present _ _ c). exact Hi.
    + intros x. apply (ref_of_insert_same_ref _ _ c); [exact Hi|reflexivity].
Qed.

Lemma MoveToFreeList_refs
    (fuel : nat) (de_ctx : option loc)
    (master : DetectEngineMasterCtx) (h : heap)
    (r : Z) (master' : DetectEngineMasterCtx) (h' : heap) :
  DetectEngineMoveToFreeList fuel de_ctx master h = Ret (r, master', h') ->
  forall x, ref_of h' x = ref_of h x.
Proof.
  unfold DetectEngineMoveToFreeList. intros Hrun.
  destruct (m_list master) as [first|];
    [|injection Hrun as <- <- <-; reflexivity].
  apply obind_Ret in Hrun as ([[inst m1] h1] & Hdet & Hrun).
  assert (Href : forall x, ref_of h1 x = ref_of h x).
  { destruct (decide (Some first = de_ctx)).
    - apply obind_Ret in Hdet as (c & _ & Hdet). injection Hdet as <- <- <-.
      reflexivity.
    - apply obind_Ret in Hdet as (c & _ & Hdet).
      apply obind_Ret in Hdet as ([r0 h0] & Hloop & Hdet).
      injection Hdet as <- <- <-.
      apply (proj2 (unlink_loop_keeps _ _ _ _ _ _ _ Hloop)). }
  destruct inst as [i|].
  - apply add_to_free_list_keeps in Hrun as (_ & _ & Href').
    intros x. rewrite Href'. apply Href.
  - injection Hrun as <- <- <-. reflexivity.
Qed.

(** Whatever the registry looks like, a [DetectEngineMoveToFreeList] that
    returns has released no context, allocated none and changed no reference
    count; it returns 0 or [-1], and with [-1] registry and heap are
    untouched. *)
Theorem MoveToFreeList_keeps_contexts
    (fuel : nat) (de_ctx : option loc)
    (master : DetectEngineMasterCtx) (h : heap)
    (r : Z) (master' : DetectEngineMasterCtx) (h' : heap)
    (Hrun : DetectEngineMoveToFreeList fuel de_ctx master h = Ret (r, master', h')) :
  (r = 0 \/ r = -1) /\
  dom h' = dom h /\
  (forall x, ref_of h' x = ref_of h x) /\
  (r = -1 -> master' = master /\ h' = h).
Proof.
  unfold DetectEngineMoveToFreeList in Hrun.
  destruct (m_list master) as [first|];
    [|injection Hrun as <- <- <-; repeat split; auto].
  apply obind_Ret in Hrun as ([[inst m1] h1] & Hdet & Hrun).
  assert (Hkeep : dom h1 = dom h /\ forall x, ref_of h1 x = ref_of h x).
  { destruct (decide (Some first = de_ctx)).
    - apply obind_Ret in Hdet as (c & _ & Hdet). injection Hdet as <- <- <-.
      split; reflexivity.
    - apply obind_Ret in Hdet as (c & _ & Hdet).
      apply obind_Ret in Hdet as ([r0 h0] & Hloop & Hdet).
      injection Hdet as <- <- <-. apply (unlink_loop_keeps _ _ _ _ _ _ _ Hloop). }
  destruct Hkeep as [Hdom Href].
  destruct inst as [i|].
  - apply add_to_free_list_keeps in Hrun as (-> & Hdom' & Href').
    split; [left; reflexivity|]. split; [congruence|].
    split; [|discriminate]. intros x. rewrite Href'. apply Href.
  - injection Hrun as <- <- <-. repeat split; auto.
Qed.

Lemma MoveToFreeList_keeps_contexts_witness :
  ref_of (snd (match DetectEngineMoveToFreeList 2 (Some 2%positive)
                       move_example_master move_example_heap with
               | Ret r => r
               | _ => (0, move_example_master, move_example_heap)
               end)) 2%positive = 1.
Proof.
  refine (eq_trans
            (proj1 (proj2 (proj2 (MoveToFreeList_keeps_contexts 2 (Some 2%positive)
                                    move_example_master move_example_heap
                                    0 _ _ _))) 2%positive) _);
    vm_compute; reflexivity.
Defined.

(** ** Pruning the free list *)

Lemma is_list_allocated (h : heap) p l x :
  is_list h p l -> x ∈ l -> is_Some (h !! x).
Proof.
  revert p. induction l as [|y l IH]; intros p Hl Hx; [inversion Hx|].
  destruct Hl as [_ (c & Hc & Hrest)].
  apply elem_of_cons in Hx as [->|Hx]; [eauto|apply (IH _ Hrest Hx)].
Qed.

(** On every registry the prune returns; it releases each unreferenced
    context of the free list, keeps each referenced one allocated with its
    count, and touches nothing outside the free list, so the active list is
    as before. *)
Theorem PruneFreeList_releases_unreferenced
    (fuel : nat) (master : DetectEngineMasterCtx) (h : heap)
    (active free : list loc)
    (Hreg : registry_lists master h active free)
    (Hfuel : (length free < fuel)%nat) :
  exists master' h',
    DetectEnginePruneFreeList fuel master h = Ret (master', h') /\
    is_list h' (m_list master') active /\
    (forall x, x ∈ free -> ref_of h x = 0 -> h' !! x = None) /\
    (forall x, x ∈ free -> ref_of h x <> 0 ->
               is_Some (h' !! x) /\ ref_of h' x = ref_of h x) /\
    (forall x, x ∉ free -> h' !! x = h !! x).
Proof.
  destruct Hreg as (Hact & Hfree & Hdisj).
  destruct (PruneFreeList_releases fuel master h free Hfree Hfuel)
    as (master' & h' & Hrun & Hm & Hrel & Hframe).
  exists master', h'. split; [exact Hrun|]. split; [|split; [|split]].
  - rewrite Hm. apply (is_list_frame h); [|exact Hact].
    intros x Hx. apply Hframe. intros Hin. exact (Hdisj x Hx Hin).
  - intros x Hx Hz. destruct (is_list_allocated _ _ _ _ Hfree Hx) as [c Hc].
    specialize (Hrel x c Hx Hc). unfold ref_of in Hz. rewrite Hc in Hz.
    rewrite Hz in Hrel. exact Hrel.
  - intros x Hx Hnz. destruct (is_list_allocated _ _ _ _ Hfree Hx) as [c Hc].
    specialize (Hrel x c Hx Hc). unfold ref_of in Hnz |- *. rewrite Hc in Hnz |- *.
    replace (ref_cnt c =? 0) with false in Hrel by lia.
    destruct Hrel as (c' & Hc' & Hr). rewrite Hc'. split; [eauto|exact Hr].
  - exact Hframe.
Qed.

Lemma prune_mixed_lists :
  registry_lists prune_mixed_master prune_mixed_heap
    [4%positive] [1%positive; 2%positive; 3%positive].
Proof.
  split; [solve_is_list|]. split; [solve_is_list|].
  intros x Hx Hf. apply list_elem_of_singleton in Hx. subst x.
  repeat (apply elem_of_cons in Hf as [Hf|Hf]; [discriminate Hf|]).
  inversion Hf.
Qed.

Lemma PruneFreeList_releases_unreferenced_witness :
  exists master' h',
    DetectEnginePruneFreeList 4 prune_mixed_master prune_mixed_heap
    = Ret (master', h') /\
    is_list h' (m_list master') [4%positive] /\
    h' !! 1%positive = None /\ h' !! 3%positive = None /\
    ref_of h' 2%positive = 3.
Proof.
  destruct (PruneFreeList_releases_unreferenced 4 prune_mixed_master
              prune_mixed_heap [4%positive] [1%positive; 2%positive; 3%positive]
              prune_mixed_lists ltac:(simpl; lia))
    as (master' & h' & Hrun & Hact & Hrel & Hkeep & _).
  exists master', h'. split; [exact Hrun|]. split; [exact Hact|].
  split; [|split].
  - apply Hrel; [left|vm_compute; reflexivity].
  - apply Hrel; [right; right; left|vm_compute; reflexivity].
  - rewrite (proj2 (Hkeep 2%positive ltac:(right; left)
                      ltac:(vm_compute; discriminate))).
    vm_compute. reflexivity.
Defined.

(** Unlinking the node after [p] from a list, as the loop does it. *)
Lemma is_list_unlink (h : heap) q pre p i t pc c :
  is_list h q (pre ++ p :: i :: t) ->
  h !! p = Some pc -> h !! i = Some c ->
  is_list (DetectEngineCtxFree i (<[p := set_next (next c) pc]> h)) q
          (pre ++ p :: t).
Proof.
  intros Hl Hp Hi. pose proof (is_list_NoDup _ _ _ Hl) as Hnd.
  revert q Hl Hnd. induction pre as [|y pre IH]; intros q Hl Hnd.
  - simpl in Hl, Hnd |- *. destruct Hl as [-> (pc' & Hpc' & Hl)].
    rewrite Hp in Hpc'. injection Hpc' as <-.
    destruct Hl as [Hnx (c' & Hc' & Hl)]. rewrite Hi in Hc'. injection Hc' as <-.
    apply NoDup_cons in Hnd as [Hp_notin Hnd].
    apply NoDup_cons in Hnd as [Hi_notin _].
    split; [reflexivity|]. unfold DetectEngineCtxFree. eexists. split.
    + rewrite lookup_delete_ne; [apply lookup_insert_eq|].
      intros ->. apply Hp_notin. left.
    + cbn [set_next next]. apply (is_list_frame h); [|exact Hl].
      intros x Hx. rewrite lookup_delete_ne by (intros ->; exact (Hi_notin Hx)).
      apply lookup_insert_ne. intros ->. apply Hp_notin. right. exact Hx.
  - simpl in Hl, Hnd |- *. destruct Hl as [-> (cy & Hcy & Hl)].
    apply NoDup_cons in Hnd as [Hy Hnd].
    split; [reflexivity|]. exists cy. split.
    + unfold DetectEngineCtxFree.
      rewrite lookup_delete_ne, lookup_insert_ne; [exact Hcy| |].
      * intros ->. apply Hy. apply elem_of_app. right. left.
      * intros ->. apply Hy. apply elem_of_app. right. right. left.
    + apply IH; assumption.
Qed.

Lemma referenced_cons refs x l :
  referenced refs (x :: l) =
  if decide (refs x <> 0) then x :: referenced refs l else referenced refs l.
Proof. unfold referenced. rewrite filter_cons. reflexivity. Qed.

Lemma prune_loop_exact refs l :
  forall fuel pre prev instance master (h : heap) seen,
    is_list h (m_free_list master) (pre ++ l) ->
    is_list h instance l ->
    (forall p, prev = Some p -> exists pre', pre = pre' ++ [p]) ->
    (prev = None -> pre = [] \/ forall y t, l = y :: t -> refs y <> 0) ->
    (pre <> [] -> seen = true) ->
    prune_exact_on refs seen l ->
    (forall x, x ∈ pre ++ l -> ref_of h x = refs x) ->
    (length l < fuel)%nat ->
    exists master' h',
      prune_loop fuel prev instance master h = Ret (master', h') /\
      m_list master' = m_list master /\
      is_list h' (m_free_list master') (pre ++ referenced refs l) /\
      (forall x, x ∈ pre ++ referenced refs l -> ref_of h' x = refs x) /\
      (forall x, x ∈ l -> refs x = 0 -> h' !! x = None) /\
      (forall x, x ∉ pre ++ l -> h' !! x = h !! x).
Proof.
  induction l as [|i t IH];
    intros fuel pre prev instance master h seen Hall Hl Hprev Hnone Hseen Hsafe
           Hrefs Hfuel.
  - simpl in Hl. subst instance. destruct fuel; [simpl in Hfuel; lia|].
    exists master, h. split; [reflexivity|]. split; [reflexivity|].
    split; [exact Hall|]. split; [exact Hrefs|].
    split; [intros x Hx; inversion Hx|reflexivity].
  - pose proof (is_list_NoDup _ _ _ Hall) as Hnd.
    destruct Hl as [-> (c & Hc & Hrest)].
    destruct fuel as [|fuel]; [simpl in Hfuel; lia|].
    assert (Hri : refs i = ref_cnt c).
    { rewrite <- Hrefs by (apply elem_of_app; right; left).
      unfold ref_of. rewrite Hc. reflexivity. }
    assert (Hi_t : i ∉ t).
    { apply NoDup_app in Hnd as (_ & _ & Hnd). apply NoDup_cons in Hnd as [H _].
      exact H. }
    assert (Hi_pre : i ∉ pre).
    { apply NoDup_app in Hnd as (_ & Hsep & _). intros Hin.
      apply (Hsep i Hin). left. }
    cbn [prune_loop]. unfold load at 1. rewrite Hc. cbn [obind].
    cbn [prune_exact_on] in Hsafe. rewrite referenced_cons.
    destruct (ref_cnt c =? 0) eqn:Hz.
    + (* released *)
      assert (Hz' : refs i = 0) by lia.
      rewrite decide_True in Hsafe by exact Hz'.
      rewrite decide_False by lia.
      destruct Hsafe as [Hnext Hsafe].
      destruct prev as [p|].
      * destruct (Hprev p eq_refl) as (pre' & ->).
        rewrite <- app_assoc in Hall. cbn [app] in Hall.
        pose proof (is_list_suffix _ _ _ _ _ Hall) as [_ (pc & Hpc & _)].
        unfold load. rewrite Hpc. cbn [obind fst snd].
        pose proof (is_list_unlink _ _ _ _ _ _ _ _ Hall Hpc Hc) as Hall'.
        assert (Hp_t : p ∉ i :: t).
        { rewrite <- app_assoc in Hnd. cbn [app] in Hnd.
          apply NoDup_app in Hnd as (_ & _ & Hnd).
          apply NoDup_cons in Hnd as [H _]. exact H. }
        set (h1 := DetectEngineCtxFree i (<[p := set_next (next c) pc]> h)) in *.
        assert (Hsame : forall x, x <> i -> x <> p -> h1 !! x = h !! x).
        { intros x Hxi Hxp. unfold h1, DetectEngineCtxFree.
          rewrite lookup_delete_ne, lookup_insert_ne; congruence. }
        assert (Hrest' : is_list h1 (next c) t).
        { apply (is_list_frame h); [|exact Hrest]. intros x Hx. apply Hsame.
          - intros ->. exact (Hi_t Hx).
          - intros ->. apply Hp_t. right. exact Hx. }
        destruct (IH fuel (pre' ++ [p]) None (next c) master h1 seen)
          as (master' & h' & Hrun & Hm & Hlist & Href & Hrel & Hframe).
        { rewrite <- app_assoc. exact Hall'. }
        { exact Hrest'. }
        { intros q Hq. discriminate Hq. }
        { intros _. right. intros y t' ->. apply Hnext. apply Hseen.
          destruct pre'; discriminate. }
        { exact Hseen. }
        { exact Hsafe. }
        { intros x Hx. rewrite <- Hrefs.
          - unfold ref_of, h1, DetectEngineCtxFree.
            assert (Hxi : x <> i).
            { intros ->. apply elem_of_app in Hx as [Hx|Hx];
                [exact (Hi_pre Hx)|exact (Hi_t Hx)]. }
            rewrite lookup_delete_ne by congruence.
            destruct (decide (p = x)) as [->|Hpx].
            + rewrite lookup_insert_eq, Hpc. reflexivity.
            + rewrite lookup_insert_ne by exact Hpx. reflexivity.
          - apply elem_of_app in Hx as [Hx|Hx]; apply elem_of_app;
              [left; exact Hx|right; right; exact Hx]. }
        { simpl in Hfuel. lia. }
        exists master', h'. split; [exact Hrun|]. split; [exact Hm|].
        split; [exact Hlist|]. split; [exact Href|]. split.
        -- intros x Hx Hx0. apply elem_of_cons in Hx as [->|Hx].
           ++ rewrite Hframe.
              ** unfold h1, DetectEngineCtxFree. apply lookup_delete_eq.
              ** intros Hin. apply elem_of_app in Hin as [Hin|Hin];
                   [exact (Hi_pre Hin)|exact (Hi_t Hin)].
           ++ apply Hrel; assumption.
        -- intros x Hx. rewrite Hframe.
           ++ apply Hsame.
              ** intros ->. apply Hx. apply elem_of_app. right. left.
              ** intros ->. apply Hx. apply elem_of_app. left.
                 apply elem_of_app. right. left.
           ++ intros Hin. apply Hx. apply elem_of_app in Hin as [Hin|Hin];
                apply elem_of_app; [left; exact Hin|right; right; exact Hin].
      * destruct (Hnone eq_refl) as [->|Hhead];
          [|exfalso; apply (Hhead i t eq_refl); exact Hz'].
        cbn [obind fst snd app] in *.
        set (h1 := DetectEngineCtxFree i h) in *.
        assert (Hsame : forall x, x <> i -> h1 !! x = h !! x).
        { intros x Hxi. unfold h1, DetectEngineCtxFree.
          apply lookup_delete_ne. congruence. }
        assert (Hrest' : is_list h1 (next c) t).
        { apply (is_list_frame h); [|exact Hrest]. intros x Hx. apply Hsame.
          intros ->. exact (Hi_t Hx). }
        destruct (IH fuel [] None (next c)
                    {| m_list := m_list master; m_free_list := next c |} h1 seen)
          as (master' & h' & Hrun & Hm & Hlist & Href & Hrel & Hframe).
        { exact Hrest'. }
        { exact Hrest'. }
        { intros q Hq. discriminate Hq. }
        { intros _. left. reflexivity. }
        { intros H. congruence. }
        { exact Hsafe. }
        { intros x Hx. cbn [app] in Hx. rewrite <- Hrefs by (right; exact Hx).
          unfold ref_of. rewrite Hsame; [reflexivity|].
          intros ->. exact (Hi_t Hx). }
        { simpl in Hfuel. lia. }
        exists master', h'. split; [exact Hrun|]. split; [exact Hm|].
        split; [exact Hlist|]. split; [exact Href|]. split.
        -- intros x Hx Hx0. apply elem_of_cons in Hx as [->|Hx].
           ++ rewrite Hframe by exact Hi_t. unfold h1, DetectEngineCtxFree.
              apply lookup_delete_eq.
           ++ apply Hrel; assumption.
        -- intros x Hx. rewrite Hframe.
           ++ apply Hsame. intros ->. apply Hx. left.
           ++ intros Hin. apply Hx. right. exact Hin.
    + (* kept *)
      assert (Hnz : refs i <> 0) by lia.
      rewrite decide_False in Hsafe by exact Hnz.
      rewrite decide_True by exact Hnz.
      destruct (IH fuel (pre ++ [i]) (Some i) (next c) master h true)
        as (master' & h' & Hrun & Hm & Hlist & Href & Hrel & Hframe).
      { rewrite <- app_assoc. exact Hall. }
      { exact Hrest. }
      { intros q [= <-]. exists pre. reflexivity. }
      { intros H. discriminate H. }
      { reflexivity. }
      { exact Hsafe. }
      { intros x Hx. apply Hrefs. rewrite <- app_assoc in Hx. exact Hx. }
      { simpl in Hfuel. lia. }
      rewrite <- app_assoc in Hlist, Href. cbn [app] in Hlist, Href.
      exists master', h'. split; [exact Hrun|]. split; [exact Hm|].
      split; [exact Hlist|]. split; [exact Href|]. split.
      * intros x Hx Hx0. apply elem_of_cons in Hx as [->|Hx]; [congruence|].
        apply Hrel; assumption.
      * intros x Hx. apply Hframe. rewrite <- app_assoc. exact Hx.
Qed.

(** The prune is exact on the free lists described by [prune_exact_on]:
    when, once a referenced context has been met, no unreferenced context
    directly follows another unreferenced one, the free list afterwards
    holds exactly the referenced contexts, in their order and with their
    counts, every unreferenced one is released, and the active list is as
    before. *)
Theorem PruneFreeList_exact
    (fuel : nat) (master : DetectEngineMasterCtx) (h : heap)
    (active free : list loc)
    (Hreg : registry_lists master h active free)
    (Hsafe : prune_exact_on (ref_of h) false free)
    (Hfuel : (length free < fuel)%nat) :
  exists master' h',
    DetectEnginePruneFreeList fuel master h = Ret (master', h') /\
    registry_lists master' h' active (referenced (ref_of h) free) /\
    (forall x, x ∈ referenced (ref_of h) free -> ref_of h' x = ref_of h x) /\
    (forall x, x ∈ free -> ref_of h x = 0 -> h' !! x = None).
Proof.
  destruct Hreg as (Hact & Hfree & Hdisj).
  destruct (prune_loop_exact (ref_of h) free fuel [] None (m_free_list master)
              master h false)
    as (master' & h' & Hrun & Hm & Hlist & Href & Hrel & Hframe);
    try assumption.
  - intros p Hp. discriminate Hp.
  - intros _. left. reflexivity.
  - intros H. congruence.
  - reflexivity.
  - exists master', h'. split; [exact Hrun|]. split; [|split; assumption].
    split; [|split; [exact Hlist|]].
    + rewrite Hm. apply (is_list_frame h); [|exact Hact].
      intros x Hx. apply Hframe. intros Hin. exact (Hdisj x Hx Hin).
    + intros x Hx Hx'. apply (Hdisj x Hx).
      unfold referenced in Hx'. apply list_elem_of_filter in Hx' as [_ Hx'].
      exact Hx'.
Qed.

Lemma PruneFreeList_exact_witness :
  exists master' h',
    DetectEnginePruneFreeList 4 prune_mixed_master prune_mixed_heap
    = Ret (master', h') /\
    registry_lists master' h' [4%positive] [2%positive].
Proof.
  destruct (PruneFreeList_exact 4 prune_mixed_master prune_mixed_heap
              [4%positive] [1%positive; 2%positive; 3%positive]
              prune_mixed_lists)
    as (master' & h' & Hrun & Hlists & _).
  - vm_compute. repeat split; discriminate.
  - simpl. lia.
  - exists master', h'. split; [exact Hrun|]. exact Hlists.
Defined.

(** ** The registry steps of a reload *)

Lemma GetCurrent_lists master (h : heap) s rest free :
  registry_lists master h (s :: rest) free ->
  exists c,
    h !! s = Some c /\
    DetectEngineGetCurrent master h
    = Ret (Some s, <[s := set_ref_cnt (wrap_uint32 (ref_cnt c + 1)) c]> h) /\
    registry_lists master
      (<[s := set_ref_cnt (wrap_uint32 (ref_cnt c + 1)) c]> h) (s :: rest) free.
Proof.
  intros (Hact & Hfree & Hdisj). pose proof Hact as [Hhead (c & Hc & _)].
  exists c. split; [exact Hc|]. split.
  - unfold DetectEngineGetCurrent, load. rewrite Hhead, Hc. reflexivity.
  - split; [|split; [|exact Hdisj]].
    + apply (is_list_same_next _ _ _ _ c); [exact Hc|reflexivity|exact Hact].
    + apply (is_list_same_next _ _ _ _ c); [exact Hc|reflexivity|exact Hfree].
Qed.

Lemma MoveToFreeList_second fuel master (h : heap) first s l2 free :
  registry_lists master h (first :: s :: l2) free ->
  (0 < fuel)%nat ->
  exists master' h',
    DetectEngineMoveToFreeList fuel (Some s) master h = Ret (0, master', h') /\
    registry_lists master' h' (first :: l2) (s :: free).
Proof.
  intros (Hact & Hfree & Hdisj) Hfuel.
  pose proof (is_list_NoDup _ _ _ Hact) as Hnd.
  destruct Hact as [Hm (c & Hc & Hrest)].
  assert (Hfs : first <> s).
  { apply NoDup_cons in Hnd as [Hf _]. intros ->. apply Hf. left. }
  unfold DetectEngineMoveToFreeList. rewrite Hm.
  rewrite decide_False by congruence.
  unfold load at 1. rewrite Hc. cbn [obind].
  destruct (unlink_loop_found fuel s h [] l2 first c Hc Hrest Hnd Hfuel)
    as (h1 & Hrun & Hlist & Hframe).
  rewrite Hrun. cbn [obind fst snd]. cbn [app] in Hlist.
  assert (Hs_notin : s ∉ first :: l2).
  { apply NoDup_cons in Hnd as [_ Hnd']. apply NoDup_cons in Hnd' as [Hs _].
    intros Hin. apply elem_of_cons in Hin as [Heq|Hin]; [congruence|].
    exact (Hs Hin). }
  destruct Hrest as [_ (cs & Hcs & _)].
  assert (Hcs1 : h1 !! s = Some cs).
  { rewrite Hframe; [exact Hcs|]. intros Hin.
    apply list_elem_of_singleton in Hin. congruence. }
  assert (Hfree1 : is_list h1 (m_free_list master) free).
  { apply (is_list_frame h); [|exact Hfree]. intros x Hx. apply Hframe.
    intros Hin. apply list_elem_of_singleton in Hin. subst x.
    apply (Hdisj first); [left|exact Hx]. }
  rewrite <- Hm in Hlist.
  destruct (add_to_free_list_lists s master h1 cs (first :: l2) free
              Hcs1 Hlist Hfree1 Hs_notin)
    as (master' & h' & Hadd & _ & _ & Hlists & _).
  - intros Hin. apply (Hdisj s); [right; left|exact Hin].
  - intros x Hx. apply Hdisj.
    apply elem_of_cons in Hx as [->|Hx]; [left|right; right; exact Hx].
  - exists master', h'. split; [exact Hadd|exact Hlists].
Qed.

(** The registry part of a reload: with a current context [a] at the head
    of the active list and a new context [b] that is on no list, it returns
    with [b] where [a] was at the head of the active list, [a] at the head
    of the free list, and the counts of both as they were: the reference
    taken at the start is dropped at the end. *)
Theorem reload_swap_registry
    (fuel : nat) (master : DetectEngineMasterCtx) (h : heap)
    (a : loc) (rest free : list loc) (b : loc) (cb : DetectEngineCtx)
    (Hreg : registry_lists master h (a :: rest) free)
    (Hb : h !! b = Some cb)
    (Hb_active : b ∉ a :: rest) (Hb_free : b ∉ free)
    (Hcount : 0 <= ref_of h a < UINT32_MAX)
    (Hfuel : (0 < fuel)%nat) :
  exists master' h',
    reload_swap fuel b master h = Ret (Some (master', h')) /\
    registry_lists master' h' (b :: rest) (a :: free) /\
    ref_of h' a = ref_of h a /\
    ref_of h' b = ref_cnt cb.
Proof.
  unfold reload_swap.
  destruct (GetCurrent_lists master h a rest free Hreg) as (ca & Hca & Hget & Hreg1).
  rewrite Hget. cbn [obind fst snd].
  assert (Hra : ref_of h a = ref_cnt ca) by (unfold ref_of; rewrite Hca; reflexivity).
  rewrite Hra in Hcount.
  set (h1 := <[a := set_ref_cnt (wrap_uint32 (ref_cnt ca + 1)) ca]> h) in *.
  assert (Hab : a <> b) by (intros ->; apply Hb_active; left).
  assert (Hb1 : h1 !! b = Some cb).
  { unfold h1. rewrite lookup_insert_ne by exact Hab. exact Hb. }
  destruct (AddToMaster_fresh master h1 (a :: rest) free b cb Hreg1 Hb1
              Hb_active Hb_free)
    as (master2 & h2 & Hadd & Hreg2 & Hrb2 & Hframe2).
  { intros H. discriminate H. }
  rewrite Hadd. cbn [obind fst snd].
  destruct (MoveToFreeList_second fuel master2 h2 b a rest free Hreg2 Hfuel)
    as (master3 & h3 & Hmove & Hreg3).
  rewrite Hmove. cbn [obind fst snd].
  pose proof (MoveToFreeList_refs _ _ _ _ _ _ _ Hmove) as Href3.
  assert (Hra3 : ref_of h3 a = ref_cnt ca + 1).
  { rewrite Href3. unfold ref_of. rewrite Hframe2 by congruence.
    unfold h1. rewrite lookup_insert_eq. cbn [set_ref_cnt ref_cnt].
    apply wrap_uint32_succ. exact Hcount. }
  destruct Hreg3 as (Hact3 & Hfree3 & Hdisj3).
  pose proof Hfree3 as [_ (c3 & Hc3 & _)].
  assert (Hr3 : ref_cnt c3 = ref_cnt ca + 1).
  { unfold ref_of in Hra3. rewrite Hc3 in Hra3. exact Hra3. }
  unfold DetectEngineDeReference, load. rewrite Hc3. cbn [obind].
  replace (ref_cnt c3 =? 0) with false by lia.
  eexists _, _. split; [reflexivity|]. split; [|split].
  - split; [|split; [|exact Hdisj3]].
    + apply (is_list_same_next _ _ _ _ c3); [exact Hc3|reflexivity|exact Hact3].
    + apply (is_list_same_next _ _ _ _ c3); [exact Hc3|reflexivity|exact Hfree3].
  - unfold ref_of at 1. rewrite lookup_insert_eq. cbn [set_ref_cnt ref_cnt].
    rewrite Hr3, Hra. replace (ref_cnt ca + 1 - 1) with (ref_cnt ca) by lia.
    unfold wrap_uint32. apply Z.mod_small. unfold UINT32_MAX in Hcount. lia.
  - unfold ref_of at 1. rewrite lookup_insert_ne by exact Hab.
    fold (ref_of h3 b). rewrite Href3. exact Hrb2.
Qed.

Lemma reload_swap_registry_witness :
  exists master' h',
    reload_swap 1 2%positive reload_example_master reload_example_heap
    = Ret (Some (master', h')) /\
    registry_lists master' h' [2%positive] [1%positive] /\
    ref_of h' 1%positive = 1.
Proof.
  destruct (reload_swap_registry 1 reload_example_master reload_example_heap
              1%positive [] [] 2%positive (example_node 0 None)
              reload_example_lists ltac:(vm_compute; reflexivity)
              ltac:(intros H; apply list_elem_of_singleton in H; discriminate H)
              ltac:(intros H; inversion H)
              ltac:(vm_compute; split; [discriminate|reflexivity])
              ltac:(lia))
    as (master' & h' & Hrun & Hlists & Hra & _).
  exists master', h'. split; [exact Hrun|]. split; [exact Hlists|].
  rewrite Hra. vm_compute. reflexivity.
Defined.

(** ** Thread keywords: registration, set-up, lookup and tear-down *)

Lemma ids_below_range n x : x ∈ ids_below n -> 0 <= x < Z.of_nat n.
Proof.
  induction n as [|n IH]; [intros H; inversion H|].
  cbn [ids_below]. intros H. apply elem_of_cons in H as [->|H]; [lia|].
  specialize (IH H). lia.
Qed.

Lemma ids_below_NoDup n : NoDup (ids_below n).
Proof.
  induction n as [|n IH]; [constructor|]. cbn [ids_below]. constructor; [|exact IH].
  intros H. apply ids_below_range in H. lia.
Qed.

(** The three ways a registration returns. *)
Lemma RegisterThreadCtxFuncs_cases malloc_ok c name init data free_fn mode id c' :
  DetectRegisterThreadCtxFuncs malloc_ok (Some c) name init data free_fn mode
  = Ret (id, Some c') ->
  (c' = c /\ mode <> 0 /\
   exists item,
     find (fun item => strcmp_eq name (item_name item)) (keyword_list c) = Some item /\
     item_id item = id) \/
  (c' = c /\ id = -1 /\ malloc_ok = false) \/
  (exists f,
     init = Some f /\ malloc_ok = true /\ id = keyword_id c /\
     c' = set_keywords (keyword_id c + 1)
            ({| InitFunc := f; item_data := data; item_name := name;
                item_id := keyword_id c |} :: keyword_list c) c).
Proof.
  unfold DetectRegisterThreadCtxFuncs. destruct init as [f|]; [|discriminate].
  destruct ((free_fn =? 0) || (data =? 0)); [discriminate|].
  destruct (mode =? 0) eqn:Hmode.
  - destruct malloc_ok; cbn [negb].
    + intros [= <- <-]. right; right. exists f. repeat split; reflexivity.
    + intros [= <- <-]. right; left. repeat split; reflexivity.
  - destruct (find _ (keyword_list c)) as [item|] eqn:Hfind.
    + intros [= <- <-]. left. split; [reflexivity|]. split; [lia|].
      exists item. split; reflexivity.
    + destruct malloc_ok; cbn [negb].
      * intros [= <- <-]. right; right. exists f. repeat split; reflexivity.
      * intros [= <- <-]. right; left. repeat split; reflexivity.
Qed.

Lemma keywords_registered_ids c :
  keywords_registered c ->
  exists n, keyword_id c = Z.of_nat n /\ item_id <$> keyword_list c = ids_below n.
Proof.
  induction 1 as [c H0 Hnil|c m name init data free_fn mode id c' Hreg IH Hcall].
  - exists O. rewrite H0, Hnil. split; reflexivity.
  - destruct IH as (n & Hn & Hids).
    apply RegisterThreadCtxFuncs_cases in Hcall
      as [(-> & _)|[(-> & _)|(f & _ & _ & _ & ->)]].
    + exists n. split; assumption.
    + exists n. split; assumption.
    + exists (S n). cbn [set_keywords keyword_id keyword_list fmap list_fmap].
      split; [lia|]. cbn [ids_below item_id]. rewrite <- Hn. f_equal. exact Hids.
Qed.

Lemma keywords_registered_range c item :
  keywords_registered c -> item ∈ keyword_list c ->
  0 <= item_id item < keyword_id c.
Proof.
  intros Hreg Hin. destruct (keywords_registered_ids c Hreg) as (n & Hn & Hids).
  rewrite Hn. apply ids_below_range. rewrite <- Hids.
  apply list_elem_of_fmap. exists item. split; [reflexivity|exact Hin].
Qed.

Lemma keywords_registered_NoDup c :
  keywords_registered c -> NoDup (item_id <$> keyword_list c).
Proof.
  intros Hreg. destruct (keywords_registered_ids c Hreg) as (n & _ & ->).
  apply ids_below_NoDup.
Qed.

(** A keyword registration hands out ids that identify one item each and
    index the array of [keyword_id] slots: after any registration that
    returns, the ids of the items are pairwise distinct and lie in
    [0, keyword_id); the list is either untouched or has one new item in
    front, whose id is the old [keyword_id], the counter being one more;
    and unless the call failed with [-1], the id it returns is the id of an
    item of that name. *)
Theorem RegisterThreadCtxFuncs_ids
    (c : DetectEngineCtx) (malloc_ok : bool) (name : string)
    (init : option (Z -> Z)) (data free_fn mode id : Z) (c' : DetectEngineCtx)
    (Hreg : keywords_registered c)
    (Hcall : DetectRegisterThreadCtxFuncs malloc_ok (Some c) name init data
               free_fn mode = Ret (id, Some c')) :
  NoDup (item_id <$> keyword_list c') /\
  (forall item, item ∈ keyword_list c' -> 0 <= item_id item < keyword_id c') /\
  ((keyword_list c' = keyword_list c /\ keyword_id c' = keyword_id c) \/
   (exists item, keyword_list c' = item :: keyword_list c /\
                 item_id item = keyword_id c /\ id = keyword_id c /\
                 keyword_id c' = keyword_id c + 1)) /\
  ((id = -1 /\ malloc_ok = false) \/
   (exists item, item ∈ keyword_list c' /\ item_id item = id /\
                 item_name item = name)).
Proof.
  assert (Hreg' : keywords_registered c')
    by (eapply keywords_call; eassumption).
  split; [apply keywords_registered_NoDup; exact Hreg'|].
  split; [intros item; apply keywords_registered_range; exact Hreg'|].
  apply RegisterThreadCtxFuncs_cases in Hcall
    as [(-> & _ & item & Hfind & Hid)|[(-> & Hid & Hm)|(f & _ & _ & -> & ->)]].
  - split; [left; split; reflexivity|]. right. exists item.
    pose proof (find_some _ _ Hfind) as [Hin Hname].
    split; [apply list_elem_of_In; exact Hin|]. split; [exact Hid|].
    apply strcmp_eq_true in Hname. congruence.
  - split; [left; split; reflexivity|]. left. split; assumption.
  - split.
    + right. eexists. split; [reflexivity|]. repeat split; reflexivity.
    + right. eexists. split; [left|]. split; reflexivity.
Qed.

Lemma example_two_keywords_prefix :
  keywords_registered
    (set_keywords 1 [{| InitFunc := fun data => data + 1; item_data := 4096;
                        item_name := "first"; item_id := 0 |}]
                  DetectEngineCtx_zero).
Proof.
  apply (keywords_call DetectEngineCtx_zero true "first"
           (Some (fun data => data + 1)) 4096 8192 1 0).
  - apply keywords_none; reflexivity.
  - reflexivity.
Qed.

Lemma RegisterThreadCtxFuncs_ids_witness :
  NoDup (item_id <$> keyword_list example_two_keywords) /\
  keyword_id example_two_keywords = 2.
Proof.
  split.
  - refine (proj1 (RegisterThreadCtxFuncs_ids _ true "second"
                     (Some (fun data => data + 2)) 4100 8192 0 1
                     example_two_keywords example_two_keywords_prefix _)).
    reflexivity.
  - reflexivity.
Defined.

(** After a registration under some name has returned (its allocation, if
    it made one, succeeding), a registration in shared mode under the same
    name returns the same id and leaves the context as it is, whatever
    functions and data it is given. *)
Theorem RegisterThreadCtxFuncs_shared
    (c : DetectEngineCtx) (name : string) (init : option (Z -> Z))
    (data free_fn mode id : Z) (c1 : DetectEngineCtx)
    (malloc2 : bool) (init2 : Z -> Z) (data2 free2 mode2 : Z)
    (Hcall : DetectRegisterThreadCtxFuncs true (Some c) name init data free_fn
               mode = Ret (id, Some c1))
    (Hmode : mode2 <> 0) (Hfree : free2 <> 0) (Hdata : data2 <> 0) :
  DetectRegisterThreadCtxFuncs malloc2 (Some c1) name (Some init2) data2 free2 mode2
  = Ret (id, Some c1).
Proof.
  assert (Hfind : exists item,
             find (fun item => strcmp_eq name (item_name item)) (keyword_list c1)
             = Some item /\ item_id item = id).
  { apply RegisterThreadCtxFuncs_cases in Hcall
      as [(-> & _ & item & Hfind & Hid)|[(_ & _ & Hm)|(f & _ & _ & -> & ->)]].
    - exists item. split; assumption.
    - discriminate Hm.
    - eexists. cbn [set_keywords keyword_list find item_name].
      rewrite (proj2 (strcmp_eq_true name name) eq_refl).
      split; reflexivity. }
  destruct Hfind as (item & Hfind & Hid).
  unfold DetectRegisterThreadCtxFuncs.
  replace ((free2 =? 0) || (data2 =? 0)) with false
    by (symmetry; apply orb_false_iff; lia).
  replace (mode2 =? 0) with false by lia.
  rewrite Hfind, Hid. reflexivity.
Qed.

Lemma RegisterThreadCtxFuncs_shared_witness :
  DetectRegisterThreadCtxFuncs false (Some example_keyword_ctx) "example"
    (Some (fun data => data)) 1 1 1
  = Ret (0, Some example_keyword_ctx).
Proof.
  apply (RegisterThreadCtxFuncs_shared DetectEngineCtx_zero "example"
           (Some (fun data => data + 1)) 4096 8192 0 0 example_keyword_ctx
           false (fun data => data) 1 1 1).
  - reflexivity.
  - discriminate.
  - discriminate.
  - discriminate.
Defined.

Lemma array_set_get a i v a' j :
  array_set a i v = Ret a' ->
  0 <= j ->
  array_get a' j = if decide (i = j) then Ret v else array_get a j.
Proof.
  unfold array_set, array_get.
  destruct ((i <? 0) || (Z.of_nat (length a) <=? i)) eqn:Hc; [discriminate|].
  apply orb_false_iff in Hc as [H1 H2]. intros [= <-] Hj.
  replace (j <? 0) with false by lia.
  destruct (decide (i = j)) as [->|Hne].
  - rewrite list_lookup_insert_eq by lia. reflexivity.
  - rewrite list_lookup_insert_ne by lia. reflexivity.
Qed.

Lemma array_set_range a i v a' :
  array_set a i v = Ret a' -> 0 <= i < Z.of_nat (length a).
Proof.
  unfold array_set.
  destruct ((i <? 0) || (Z.of_nat (length a) <=? i)) eqn:Hc; [discriminate|].
  apply orb_false_iff in Hc as [H1 H2]. lia.
Qed.

Lemma init_keyword_items_other items a r a' j :
  init_keyword_items items a = Ret (r, a') ->
  0 <= j ->
  (forall item, item ∈ items -> item_id item <> j) ->
  array_get a' j = array_get a j.
Proof.
  revert a. induction items as [|item items IH]; intros a; cbn [init_keyword_items].
  - intros [= <- <-]. reflexivity.
  - intros Hrun Hj Hno. apply obind_Ret in Hrun as (a1 & Hset & Hrun).
    assert (H1 : array_get a1 j = array_get a j).
    { rewrite (array_set_get _ _ _ _ _ Hset Hj).
      rewrite decide_False; [reflexivity|]. apply Hno. left. }
    destruct (InitFunc item (item_data item) =? 0).
    + injection Hrun as <- <-. exact H1.
    + rewrite <- H1. apply IH; [exact Hrun|exact Hj|].
      intros it Hit. apply Hno. right. exact Hit.
Qed.

Lemma init_keyword_items_slots items a a' :
  NoDup (item_id <$> items) ->
  init_keyword_items items a = Ret (TM_ECODE_OK, a') ->
  forall item, item ∈ items ->
    array_get a' (item_id item) = Ret (InitFunc item (item_data item)) /\
    InitFunc item (item_data item) <> 0.
Proof.
  revert a. induction items as [|it items IH]; intros a Hnd Hrun item Hin;
    [inversion Hin|].
  cbn [init_keyword_items] in Hrun. apply obind_Ret in Hrun as (a1 & Hset & Hrun).
  cbn [fmap list_fmap] in Hnd. apply NoDup_cons in Hnd as [Hfresh Hnd].
  destruct (InitFunc it (item_data it) =? 0) eqn:Hz; [discriminate|].
  apply elem_of_cons in Hin as [->|Hin].
  - split; [|lia].
    rewrite (init_keyword_items_other _ _ _ _ _ Hrun).
    + rewrite (array_set_get _ _ _ _ _ Hset).
      * rewrite decide_True by reflexivity. reflexivity.
      * apply array_set_range in Hset. lia.
    + apply array_set_range in Hset. lia.
    + intros it' Hit' Heq. apply Hfresh. apply list_elem_of_fmap.
      exists it'. split; [symmetry; exact Heq|exact Hit'].
  - apply (IH a1 Hnd Hrun item Hin).
Qed.

Lemma init_keyword_items_returns items a :
  (forall item, item ∈ items -> 0 <= item_id item < Z.of_nat (length a)) ->
  exists r a',
    init_keyword_items items a = Ret (r, a') /\
    (r = TM_ECODE_OK \/ r = TM_ECODE_FAILED) /\
    (r = TM_ECODE_OK <->
     forall item, item ∈ items -> InitFunc item (item_data item) <> 0).
Proof.
  revert a. induction items as [|it items IH]; intros a Hrange.
  - exists TM_ECODE_OK, a. split; [reflexivity|]. split; [left; reflexivity|].
    split; [intros _ item H; inversion H|reflexivity].
  - cbn [init_keyword_items].
    assert (Hset : exists a1,
               array_set a (item_id it) (InitFunc it (item_data it)) = Ret a1 /\
               length a1 = length a).
    { unfold array_set. specialize (Hrange it ltac:(left)).
      replace ((item_id it <? 0) || (Z.of_nat (length a) <=? item_id it))
        with false by (symmetry; apply orb_false_iff; lia).
      eexists. split; [reflexivity|]. apply length_insert. }
    destruct Hset as (a1 & -> & Hlen). cbn [obind].
    destruct (InitFunc it (item_data it) =? 0) eqn:Hz.
    + exists TM_ECODE_FAILED, a1. split; [reflexivity|].
      split; [right; reflexivity|]. split; [discriminate|].
      intros Hall. exfalso. apply (Hall it ltac:(left)). lia.
    + destruct (IH a1) as (r & a' & Hrun & Hr & Hiff).
      { intros item Hitem. rewrite Hlen. apply Hrange. right. exact Hitem. }
      exists r, a'. split; [exact Hrun|]. split; [exact Hr|].
      rewrite Hiff. split.
      * intros Hall item Hitem. apply elem_of_cons in Hitem as [->|Hitem];
          [lia|apply Hall; exact Hitem].
      * intros Hall item Hitem. apply Hall. right. exact Hitem.
Qed.

(** Setting up the keyword slots of a thread for an engine whose keywords
    were registered never leaves the array: it always returns, with
    [TM_ECODE_OK] exactly when no init function returned [NULL] (given the
    allocation succeeds), and with [TM_ECODE_FAILED] and an untouched thread
    context when the allocation fails. *)
Theorem InitKeywords_returns
    (c : DetectEngineCtx) (malloc_ok : bool)
    (Hreg : keywords_registered c) :
  exists r det,
    DetectEngineThreadCtxInitKeywords malloc_ok c DetectEngineThreadCtx_zero
    = Ret (r, det) /\
    (r = TM_ECODE_OK \/ r = TM_ECODE_FAILED) /\
    (malloc_ok = true ->
     (r = TM_ECODE_OK <->
      forall item, item ∈ keyword_list c -> InitFunc item (item_data item) <> 0)) /\
    (malloc_ok = false -> keyword_id c > 0 ->
     r = TM_ECODE_FAILED /\ det = DetectEngineThreadCtx_zero).
Proof.
  unfold DetectEngineThreadCtxInitKeywords.
  destruct (keyword_id c >? 0) eqn:Hpos.
  - destruct malloc_ok; cbn [negb].
    + destruct (init_keyword_items_returns (keyword_list c)
                  (replicate (Z.to_nat (keyword_id c)) 0))
        as (r & a' & Hrun & Hr & Hiff).
      { intros item Hitem. rewrite length_replicate.
        pose proof (keywords_registered_range c item Hreg Hitem). lia. }
      rewrite Hrun. cbn [obind fst snd]. eexists _, _.
      split; [reflexivity|]. split; [exact Hr|]. split; [intros _; exact Hiff|].
      discriminate.
    + eexists _, _. split; [reflexivity|]. split; [right; reflexivity|].
      split; [discriminate|]. intros _ _. split; reflexivity.
  - eexists _, _. split; [reflexivity|]. split; [left; reflexivity|]. split.
    + intros _. split; [|reflexivity]. intros _ item Hitem.
      pose proof (keywords_registered_range c item Hreg Hitem). lia.
    + intros _ H. lia.
Qed.

Lemma example_keyword_ctx_registered : keywords_registered example_keyword_ctx.
Proof.
  apply (keywords_call DetectEngineCtx_zero true "example"
           (Some (fun data => data + 1)) 4096 8192 0 0).
  - apply keywords_none; reflexivity.
  - reflexivity.
Qed.

Lemma InitKeywords_returns_witness :
  exists r det,
    DetectEngineThreadCtxInitKeywords false example_keyword_ctx
      DetectEngineThreadCtx_zero = Ret (r, det) /\
    r = TM_ECODE_FAILED /\ det = DetectEngineThreadCtx_zero.
Proof.
  destruct (InitKeywords_returns example_keyword_ctx false
              example_keyword_ctx_registered)
    as (r & det & Hrun & _ & _ & Hfail).
  exists r, det. split; [exact Hrun|]. apply Hfail; reflexivity.
Defined.

(** The round trip of a keyword: once the set-up of a thread has returned
    [TM_ECODE_OK], looking up the id of any registered item gives the
    pointer that this item's init function returned for this item's data,
    and that pointer is not [NULL]. *)
Theorem keyword_ctx_round_trip
    (c : DetectEngineCtx) (det : DetectEngineThreadCtx)
    (Hreg : keywords_registered c)
    (Hinit : DetectEngineThreadCtxInitKeywords true c DetectEngineThreadCtx_zero
             = Ret (TM_ECODE_OK, det)) :
  forall item, item ∈ keyword_list c ->
    DetectThreadCtxGetKeywordThreadCtx det (item_id item)
    = Ret (InitFunc item (item_data item)) /\
    InitFunc item (item_data item) <> 0.
Proof.
  intros item Hitem.
  pose proof (keywords_registered_range c item Hreg Hitem) as Hrange.
  unfold DetectEngineThreadCtxInitKeywords in Hinit.
  replace (keyword_id c >? 0) with true in Hinit by lia. cbn [negb] in Hinit.
  apply obind_Ret in Hinit as ([r a'] & Hrun & Hinit).
  injection Hinit as -> <-. cbn [fst snd] in *.
  destruct (init_keyword_items_slots _ _ _ (keywords_registered_NoDup c Hreg)
              Hrun item Hitem) as [Hget Hnz].
  split; [|exact Hnz].
  unfold DetectThreadCtxGetKeywordThreadCtx.
  cbn [keyword_ctxs_size keyword_ctxs_array].
  replace (item_id item <? 0) with false by lia.
  replace (item_id item >? keyword_id c) with false by lia.
  rewrite bool_decide_eq_false_2 by discriminate. exact Hget.
Qed.

Lemma keyword_ctx_round_trip_witness :
  DetectThreadCtxGetKeywordThreadCtx example_det_ctx 0 = Ret 4097.
Proof.
  apply (proj1 (keyword_ctx_round_trip example_keyword_ctx example_det_ctx
                  example_keyword_ctx_registered eq_refl
                  {| InitFunc := fun data => data + 1; item_data := 4096;
                     item_name := "example"; item_id := 0 |}
                  ltac:(left))).
Defined.

Lemma deinit_keyword_items_all items arr :
  (forall item, item ∈ items ->
     array_get arr (item_id item) = Ret (InitFunc item (item_data item)) /\
     InitFunc item (item_data item) <> 0) ->
  deinit_keyword_items items (Some arr)
  = Ret (map (fun item => (item_id item, InitFunc item (item_data item))) items).
Proof.
  induction items as [|it items IH]; intros Hall; [reflexivity|].
  cbn [deinit_keyword_items map].
  destruct (Hall it ltac:(left)) as [-> Hnz]. cbn [obind].
  rewrite IH by (intros item Hitem; apply Hall; right; exact Hitem).
  cbn [obind]. replace (InitFunc it (item_data it) =? 0) with false by lia.
  reflexivity.
Qed.

(** Tear-down after a successful set-up hands every pointer the init
    functions returned to the free function of its item, each exactly once
    and in list order, and leaves the thread context without array and with
    size 0, so that every later lookup returns [NULL]. *)
Theorem keyword_ctx_init_deinit
    (c : DetectEngineCtx) (det : DetectEngineThreadCtx)
    (Hreg : keywords_registered c)
    (Hinit : DetectEngineThreadCtxInitKeywords true c DetectEngineThreadCtx_zero
             = Ret (TM_ECODE_OK, det)) :
  DetectEngineThreadCtxDeinitKeywords c det
  = Ret (map (fun item => (item_id item, InitFunc item (item_data item)))
             (keyword_list c),
         DetectEngineThreadCtx_zero) /\
  forall id, DetectThreadCtxGetKeywordThreadCtx DetectEngineThreadCtx_zero id = Ret 0.
Proof.
  split.
  - unfold DetectEngineThreadCtxInitKeywords in Hinit.
    unfold DetectEngineThreadCtxDeinitKeywords.
    destruct (keyword_id c >? 0) eqn:Hpos.
    + cbn [negb] in Hinit.
      apply obind_Ret in Hinit as ([r a'] & Hrun & Hinit).
      injection Hinit as -> <-. cbn [fst snd keyword_ctxs_array] in *.
      rewrite deinit_keyword_items_all; [reflexivity|].
      apply (init_keyword_items_slots _ _ _ (keywords_registered_NoDup c Hreg) Hrun).
    + injection Hinit as <-.
      destruct (keywords_registered_ids c Hreg) as (n & Hn & Hids).
      assert (n = O) by lia. subst n. cbn [ids_below] in Hids.
      destruct (keyword_list c); [reflexivity|discriminate Hids].
  - intros id. apply GetKeywordThreadCtx_null. right; right. reflexivity.
Qed.

Lemma keyword_ctx_init_deinit_witness :
  DetectEngineThreadCtxDeinitKeywords example_keyword_ctx example_det_ctx
  = Ret ([(0, 4097)], DetectEngineThreadCtx_zero).
Proof.
  apply (proj1 (keyword_ctx_init_deinit example_keyword_ctx example_det_ctx
                  example_keyword_ctx_registered eq_refl)).
Defined.

(** ** The build: profiles, sharing mode, recursion limit, ids, prefix *)

Lemma lookup_custom_length first keys vs :
  lookup_custom first keys = Ret vs -> length vs = length keys.
Proof.
  revert vs. induction keys as [|k keys IH]; intros vs; cbn [lookup_custom].
  - intros [= <-]. reflexivity.
  - intros H. apply obind_Ret in H as (v & _ & H).
    apply obind_Ret in H as (vs' & Hvs' & H). injection H as <-.
    simpl. f_equal. apply IH. exact Hvs'.
Qed.

Lemma scan_custom_length opts strs strs' :
  scan_custom opts strs = Ret strs' ->
  length strs = 8%nat -> length strs' = 8%nat.
Proof.
  revert strs. induction opts as [|opt opts IH]; intros strs; cbn [scan_custom].
  - intros [= <-]. tauto.
  - destruct (conf_val opt) as [v|]; [|discriminate].
    destruct (strcmp_eq v "custom-values"); [|apply IH].
    intros H _. apply obind_Ret in H as (s1 & Hs1 & H).
    apply (IH _ H). apply lookup_custom_length in Hs1. exact Hs1.
Qed.

Lemma load_custom_limits_length ext strs meds olds :
  length strs = 8%nat -> length meds = 8%nat -> length olds = 8%nat ->
  length (load_custom_limits ext strs meds olds) = 8%nat.
Proof.
  intros H1 H2 H3. rewrite <- H1. rewrite <- H1 in H2, H3. clear H1.
  revert meds olds H2 H3. induction strs as [|s strs IH]; intros meds olds H2 H3.
  - reflexivity.
  - destruct meds as [|m meds]; [discriminate H2|].
    destruct olds as [|o olds]; [discriminate H3|].
    cbn [load_custom_limits length]. f_equal. apply IH.
    + injection H2 as H2. exact H2.
    + injection H3 as H3. exact H3.
Qed.

(** Everything [DetectEngineCtxLoadConf] does, in one shape. *)
Lemma LoadConf_shape ext conf c rc c' :
  DetectEngineCtxLoadConf ext conf c = Ret (rc, c') ->
  exists prof sgh sghv l,
    match ConfGetNode conf "detect-engine" with
    | Some n => scan_profile (conf_head n) None None
    | None => Ret (None, None)
    end = Ret (prof, sgh) /\
    sgh_mpm_context_of ext (mpm_matcher c) sgh = Ret sghv /\
    length l = 8%nat /\
    c' = set_group_limits_list l
           (set_sgh_mpm_context
              (if run_mode_is_unittest ext
               then ENGINE_SGH_MPM_FACTORY_CONTEXT_FULL else sghv) c) /\
    match profile_of prof with
    | ENGINE_PROFILE_UNKNOWN => rc = 0 /\ l = medium_limits
    | ENGINE_PROFILE_LOW => rc = 1 /\ l = low_limits
    | ENGINE_PROFILE_MEDIUM => rc = 1 /\ l = medium_limits
    | ENGINE_PROFILE_HIGH => rc = 1 /\ l = high_limits
    | ENGINE_PROFILE_CUSTOM =>
        rc = 1 /\
        exists n strs,
          ConfGetNode conf "detect-engine" = Some n /\
          scan_custom (conf_head n) (repeat None 8) = Ret strs /\
          l = load_custom_limits ext strs medium_limits (group_limits c)
    end.
Proof.
  unfold DetectEngineCtxLoadConf.
  set (found := match ConfGetNode conf "detect-engine" with
                | Some n => scan_profile (conf_head n) None None
                | None => Ret (None, None)
                end).
  destruct found as [[prof sgh]| | |] eqn:Hfound; cbn [obind fst snd];
    try discriminate.
  fold (sgh_mpm_context_of ext (mpm_matcher c) sgh).
  destruct (sgh_mpm_context_of ext (mpm_matcher c) sgh) as [sghv| | |] eqn:Hsgh;
    cbn [obind]; try discriminate.
  destruct (profile_of prof) eqn:Hprof; cbn [obind].
  - intros [= <- <-]. exists prof, sgh, sghv, medium_limits. rewrite Hprof.
    split; [reflexivity|]. split; [exact Hsgh|]. repeat split; reflexivity.
  - intros [= <- <-]. exists prof, sgh, sghv, low_limits. rewrite Hprof.
    split; [reflexivity|]. split; [exact Hsgh|]. repeat split; reflexivity.
  - intros [= <- <-]. exists prof, sgh, sghv, medium_limits. rewrite Hprof.
    split; [reflexivity|]. split; [exact Hsgh|]. repeat split; reflexivity.
  - intros [= <- <-]. exists prof, sgh, sghv, high_limits. rewrite Hprof.
    split; [reflexivity|]. split; [exact Hsgh|]. repeat split; reflexivity.
  - destruct (ConfGetNode conf "detect-engine") as [n|] eqn:Hn;
      cbn [obind]; [|discriminate].
    destruct (scan_custom (conf_head n) (repeat None 8)) as [strs| | |] eqn:Hs;
      cbn [obind]; try discriminate.
    intros [= <- <-].
    exists prof, sgh, sghv,
      (load_custom_limits ext strs medium_limits (group_limits c)).
    rewrite Hprof. split; [reflexivity|]. split; [exact Hsgh|]. split.
    + apply load_custom_limits_length; try reflexivity.
      apply (scan_custom_length _ _ _ Hs). reflexivity.
    + split; [reflexivity|]. split; [reflexivity|].
      exists n, strs. split; [reflexivity|]. split; [exact Hs|reflexivity].
Qed.

Lemma set_group_limits_list_fields l v c :
  length l = 8%nat ->
  let c' := set_group_limits_list l (set_sgh_mpm_context v c) in
  group_limits c' = l /\ sgh_mpm_context c' = v /\
  minimal c' = minimal c /\ ctx_id c' = ctx_id c /\
  config_prefix c' = config_prefix c /\ failure_fatal c' = failure_fatal c /\
  inspection_recursion_limit c' = inspection_recursion_limit c /\
  mpm_matcher c' = mpm_matcher c /\
  keyword_id c' = keyword_id c /\ keyword_list c' = keyword_list c /\
  ref_cnt c' = ref_cnt c /\ next c' = next c.
Proof.
  intros Hl. do 8 (destruct l as [|? l]; [discriminate Hl|]).
  destruct l; [|discriminate Hl]. repeat split; reflexivity.
Qed.

Lemma scan_profile_absent l a b a' b' :
  Forall (other_key "profile") l ->
  scan_profile l a b = Ret (a', b') -> a' = a.
Proof. apply scan_profile_other. Qed.

(** The profile decides the group limits and the return value of
    [DetectEngineCtxLoadConf]: with the last [profile] entry of the
    [detect-engine] sequence being [low], [medium] or [high] it returns 1
    and stores the limits of that profile; with any other value but
    [custom] it returns 0 and stores the medium limits. *)
Theorem LoadConf_profile
    (ext : externals) (conf : ConfNode) (c : DetectEngineCtx)
    (rc : Z) (c' : DetectEngineCtx)
    (n : ConfNode) (p1 : list ConfNode) (idx v : string) (p2 : list ConfNode)
    (Hload : DetectEngineCtxLoadConf ext conf c = Ret (rc, c'))
    (Hnode : ConfGetNode conf "detect-engine" = Some n)
    (Hprof : conf_head n = p1 ++ yaml_scalar_entry idx "profile" v :: p2)
    (Hlast : Forall (other_key "profile") p2) :
  (v = "low"%string -> rc = 1 /\ group_limits c' = low_limits) /\
  (v = "medium"%string -> rc = 1 /\ group_limits c' = medium_limits) /\
  (v = "high"%string -> rc = 1 /\ group_limits c' = high_limits) /\
  (v <> "low"%string -> v <> "medium"%string -> v <> "high"%string ->
   v <> "custom"%string ->
   rc = 0 /\ group_limits c' = medium_limits).
Proof.
  apply LoadConf_shape in Hload
    as (prof & sgh & sghv & l & Hscan & _ & Hlen & -> & Hcase).
  rewrite Hnode, Hprof in Hscan.
  apply (scan_profile_last _ _ _ _ _ _ _ _ Hlast) in Hscan. subst prof.
  destruct (set_group_limits_list_fields l
              (if run_mode_is_unittest ext
               then ENGINE_SGH_MPM_FACTORY_CONTEXT_FULL else sghv) c Hlen)
    as (-> & _).
  split; [|split; [|split]].
  - intros ->. exact Hcase.
  - intros ->. exact Hcase.
  - intros ->. exact Hcase.
  - intros H1 H2 H3 H4. unfold profile_of in Hcase.
    rewrite (proj2 (strcmp_eq_false _ _) H1), (proj2 (strcmp_eq_false _ _) H2),
      (proj2 (strcmp_eq_false _ _) H3), (proj2 (strcmp_eq_false _ _) H4) in Hcase.
    exact Hcase.
Qed.

Lemma LoadConf_profile_witness :
  match DetectEngineCtxLoadConf example_externals (conf_profile "high")
          DetectEngineCtx_zero with
  | Ret (rc, c') => rc = 1 /\ group_limits c' = high_limits
  | _ => False
  end.
Proof.
  destruct (DetectEngineCtxLoadConf example_externals (conf_profile "high")
              DetectEngineCtx_zero) as [[rc c']| | |] eqn:Hload;
    try (vm_compute in Hload; discriminate Hload).
  apply (proj1 (proj2 (proj2
           (LoadConf_profile example_externals (conf_profile "high")
              DetectEngineCtx_zero rc c'
              (MkConfNode "detect-engine" None
                 [yaml_scalar_entry "0" "profile" "high"])
              [] "0"%string "high"%string [] Hload eq_refl eq_refl
              (Forall_nil_2 _))))).
  reflexivity.
Defined.

(** Without a [detect-engine] node, or without a [profile] entry in it,
    [DetectEngineCtxLoadConf] returns 0 ("no config provided") and stores
    the medium limits. *)
Theorem LoadConf_no_profile
    (ext : externals) (conf : ConfNode) (c : DetectEngineCtx)
    (rc : Z) (c' : DetectEngineCtx)
    (Hload : DetectEngineCtxLoadConf ext conf c = Ret (rc, c'))
    (Habsent : ConfGetNode conf "detect-engine" = None \/
               exists n, ConfGetNode conf "detect-engine" = Some n /\
                         Forall (other_key "profile") (conf_head n)) :
  rc = 0 /\ group_limits c' = medium_limits.
Proof.
  apply LoadConf_shape in Hload
    as (prof & sgh & sghv & l & Hscan & _ & Hlen & -> & Hcase).
  assert (prof = None).
  { destruct Habsent as [Hn|(n & Hn & Hall)]; rewrite Hn in Hscan.
    - congruence.
    - apply (scan_profile_other _ _ _ _ _ Hall Hscan). }
  subst prof.
  destruct (set_group_limits_list_fields l
              (if run_mode_is_unittest ext
               then ENGINE_SGH_MPM_FACTORY_CONTEXT_FULL else sghv) c Hlen)
    as (-> & _).
  exact Hcase.
Qed.

Lemma LoadConf_no_profile_witness :
  match DetectEngineCtxLoadConf example_externals (conf_sgh "auto")
          DetectEngineCtx_zero with
  | Ret (rc, c') => rc = 0 /\ group_limits c' = medium_limits
  | _ => False
  end.
Proof.
  destruct (DetectEngineCtxLoadConf example_externals (conf_sgh "auto")
              DetectEngineCtx_zero) as [[rc c']| | |] eqn:Hload;
    try (vm_compute in Hload; discriminate Hload).
  apply (LoadConf_no_profile example_externals (conf_sgh "auto")
           DetectEngineCtx_zero rc c' Hload).
  right. eexists. split; [reflexivity|].
  repeat constructor. intros H. discriminate H.
Defined.

Lemma scan_profile_other_sgh l a b a' b' :
  Forall (other_key "sgh-mpm-context") l ->
  scan_profile l a b = Ret (a', b') -> b' = b.
Proof.
  intros Hall. revert a. induction Hall as [|opt l Hopt Hall IH]; intros a; simpl.
  - congruence.
  - destruct (conf_val opt) as [v|] eqn:Hv; [|discriminate].
    rewrite (strcmp_eq_other _ _ _ Hopt Hv).
    destruct (strcmp_eq v "profile"); [|apply IH].
    destruct (tqh_first opt); [apply IH|discriminate].
Qed.

Lemma scan_profile_returns l a b :
  Forall entry_ok l -> exists a' b', scan_profile l a b = Ret (a', b').
Proof.
  intros Hall. revert a b. induction Hall as [|opt l [[v Hv] [f Hf]] Hall IH];
    intros a b; simpl.
  - eauto.
  - rewrite Hv, Hf. destruct (strcmp_eq v "profile"); [apply IH|].
    destruct (strcmp_eq v "sgh-mpm-context"); apply IH.
Qed.

Lemma scan_profile_last_sgh p1 idx v p2 a b prof sgh :
  Forall (other_key "sgh-mpm-context") p2 ->
  scan_profile (p1 ++ yaml_scalar_entry idx "sgh-mpm-context" v :: p2) a b
  = Ret (prof, sgh) ->
  sgh = Some v.
Proof.
  intros Hall. rewrite scan_profile_app. intros H.
  apply obind_Ret in H as ([a1 b1] & _ & H). cbn [fst snd] in H.
  change (scan_profile p2 a1 (Some v) = Ret (prof, sgh)) in H.
  apply (scan_profile_other_sgh _ _ _ _ _ Hall H).
Qed.

(** The [sgh-mpm-context] option.  On a well-formed [detect-engine]
    sequence whose last such entry has a value other than [auto], [single]
    or [full], [DetectEngineCtxLoadConf] ends the process.  When it
    returns, the stored mode is [FULL] in the unit-test run mode whatever
    the value; otherwise [single] and [full] store their mode and [auto]
    stores [SINGLE] for the default, AC-GFBS and AC-BS matchers and [FULL]
    for any other. *)
Theorem LoadConf_sgh_mpm_context
    (ext : externals) (conf : ConfNode) (c : DetectEngineCtx)
    (n : ConfNode) (p1 : list ConfNode) (idx v : string) (p2 : list ConfNode)
    (Hnode : ConfGetNode conf "detect-engine" = Some n)
    (Hhead : conf_head n = p1 ++ yaml_scalar_entry idx "sgh-mpm-context" v :: p2)
    (Hlast : Forall (other_key "sgh-mpm-context") p2)
    (Hok : Forall entry_ok (conf_head n)) :
  (v <> "auto"%string -> v <> "single"%string -> v <> "full"%string ->
   DetectEngineCtxLoadConf ext conf c = Exit) /\
  (forall rc c',
      DetectEngineCtxLoadConf ext conf c = Ret (rc, c') ->
      (run_mode_is_unittest ext = true ->
       sgh_mpm_context c' = ENGINE_SGH_MPM_FACTORY_CONTEXT_FULL) /\
      (run_mode_is_unittest ext = false -> v = "single"%string ->
       sgh_mpm_context c' = ENGINE_SGH_MPM_FACTORY_CONTEXT_SINGLE) /\
      (run_mode_is_unittest ext = false -> v = "full"%string ->
       sgh_mpm_context c' = ENGINE_SGH_MPM_FACTORY_CONTEXT_FULL) /\
      (run_mode_is_unittest ext = false -> v = "auto"%string ->
       sgh_mpm_context c' =
       if (mpm_matcher c =? DEFAULT_MPM ext) || (mpm_matcher c =? MPM_AC_GFBS ext) ||
          (mpm_matcher c =? MPM_AC_BS ext)
       then ENGINE_SGH_MPM_FACTORY_CONTEXT_SINGLE
       else ENGINE_SGH_MPM_FACTORY_CONTEXT_FULL)).
Proof.
  split.
  - intros H1 H2 H3.
    destruct (scan_profile_returns (conf_head n) None None Hok) as (prof & sgh & Hscan).
    pose proof Hscan as Hscan'. rewrite Hhead in Hscan'.
    apply (scan_profile_last_sgh _ _ _ _ _ _ _ _ Hlast) in Hscan'. subst sgh.
    unfold DetectEngineCtxLoadConf. rewrite Hnode, Hscan. cbn [obind fst snd].
    rewrite (proj2 (strcmp_eq_false _ _) H1), (proj2 (strcmp_eq_false _ _) H2),
      (proj2 (strcmp_eq_false _ _) H3).
    reflexivity.
  - intros rc c' Hload.
    apply LoadConf_shape in Hload
      as (prof & sgh & sghv & l & Hscan & Hsgh & Hlen & -> & _).
    rewrite Hnode, Hhead in Hscan.
    apply (scan_profile_last_sgh _ _ _ _ _ _ _ _ Hlast) in Hscan. subst sgh.
    destruct (set_group_limits_list_fields l
                (if run_mode_is_unittest ext
                 then ENGINE_SGH_MPM_FACTORY_CONTEXT_FULL else sghv) c Hlen)
      as (_ & -> & _).
    split; [intros ->; reflexivity|].
    split; [|split].
    + intros -> ->. cbn in Hsgh. congruence.
    + intros -> ->. cbn in Hsgh. congruence.
    + intros -> ->. cbn in Hsgh. congruence.
Qed.

Lemma LoadConf_sgh_mpm_context_witness :
  DetectEngineCtxLoadConf example_externals_live (conf_sgh "sometimes")
    DetectEngineCtx_zero = Exit /\
  match DetectEngineCtxLoadConf example_externals_live (conf_sgh "single")
          DetectEngineCtx_zero with
  | Ret (_, c') => sgh_mpm_context c' = ENGINE_SGH_MPM_FACTORY_CONTEXT_SINGLE
  | _ => False
  end.
Proof.
  assert (Hok : forall v, Forall entry_ok
                            [yaml_scalar_entry "0" "sgh-mpm-context" v]).
  { intros v. repeat constructor; eexists; reflexivity. }
  split.
  - apply (proj1 (LoadConf_sgh_mpm_context example_externals_live
                    (conf_sgh "sometimes") DetectEngineCtx_zero
                    (MkConfNode "detect-engine" None
                       [yaml_scalar_entry "0" "sgh-mpm-context" "sometimes"])
                    [] "0"%string "sometimes"%string [] eq_refl eq_refl
                    (Forall_nil_2 _) (Hok _))); discriminate.
  - destruct (DetectEngineCtxLoadConf example_externals_live (conf_sgh "single")
                DetectEngineCtx_zero) as [[rc c']| | |] eqn:Hload;
      try (vm_compute in Hload; discriminate Hload).
    apply (proj1 (proj2 (proj2 (LoadConf_sgh_mpm_context example_externals_live
                    (conf_sgh "single") DetectEngineCtx_zero
                    (MkConfNode "detect-engine" None
                       [yaml_scalar_entry "0" "sgh-mpm-context" "single"])
                    [] "0"%string "single"%string [] eq_refl eq_refl
                    (Forall_nil_2 _) (Hok _)) rc c' Hload))); reflexivity.
Defined.

(** What a full build did, with the prefix it stored. *)
Lemma InitReal_full_prefix ext conf prefix id de_ctx id' :
  DetectEngineCtxInitReal ext conf 0 prefix id = Ret (Some de_ctx, id') ->
  exists r ff rc de1,
    match ConfGetNode conf "detect-engine" with
    | Some n => find_insp_recursion_limit (conf_head n)
    | None => Ret None
    end = Ret r /\
    DetectEngineCtxLoadConf ext conf
      (set_config
         (match prefix with
          | Some p => strlcpy p (sizeof_config_prefix ext)
          | None => EmptyString
          end) ff (limit_of r) (PatternMatchDefaultMatcher ext)
         DetectEngineCtx_zero) = Ret (rc, de1) /\
    de_ctx = set_identity (minimal de1) id de1 /\
    id' = wrap_uint32 (id + 1).
Proof.
  unfold DetectEngineCtxInitReal.
  destruct (malloc_de_ctx_ok ext); [|discriminate].
  cbn [negb Z.eqb].
  set (found := match ConfGetNode conf "detect-engine" with
                | Some n => find_insp_recursion_limit (conf_head n)
                | None => Ret None
                end).
  destruct found as [r| | |] eqn:Hfound; cbn [obind]; try discriminate.
  fold (limit_of r).
  match goal with
  | |- context [DetectEngineCtxLoadConf ext conf ?c] =>
      destruct (DetectEngineCtxLoadConf ext conf c) as [[rc de1]| | |] eqn:Hload
  end; cbn [obind snd]; try discriminate.
  destruct (mpm_pattern_id_store_ok ext); cbn [negb]; [|discriminate].
  destruct (ActionInitConfig ext <? 0); [discriminate|].
  intros [= <- <-].
  eexists r, _, rc, de1. split; [reflexivity|].
  split; [exact Hload|]. split; reflexivity.
Qed.



(** A build consumes an id exactly when it returns a context: a build that
    returns [NULL] leaves the counter [detect_engine_ctx_id] as it was; a
    build that returns a context gives it the current value of the counter
    as its id, advances the counter by one (modulo 2^32), and marks the
    context minimal exactly when a minimal build was asked for. *)
Theorem InitReal_id_counter
    (ext : externals) (conf : ConfNode) (minimal_arg : Z)
    (prefix : option string) (id : Z)
    (r : option DetectEngineCtx) (id' : Z)
    (Hbuild : DetectEngineCtxInitReal ext conf minimal_arg prefix id = Ret (r, id')) :
  match r with
  | None => id' = id
  | Some de_ctx =>
      ctx_id de_ctx = id /\ id' = wrap_uint32 (id + 1) /\
      minimal de_ctx = (if minimal_arg =? 0 then 0 else 1)
  end.
Proof.
  destruct (minimal_arg =? 0) eqn:Hmin.
  - apply Z.eqb_eq in Hmin. subst minimal_arg. destruct r as [de_ctx|].
    + apply InitReal_full_prefix in Hbuild
        as (r & ff & rc & de1 & _ & Hload & -> & ->).
      split; [reflexivity|]. split; [reflexivity|].
      apply LoadConf_shape in Hload
        as (prof & sgh & sghv & l & _ & _ & Hlen & -> & _).
      cbn [set_identity minimal].
      match goal with
      | |- context [set_group_limits_list l (set_sgh_mpm_context ?v ?c0)] =>
          destruct (set_group_limits_list_fields l v c0 Hlen)
            as (_ & _ & Hm & _)
      end.
      rewrite Hm. reflexivity.
    + unfold DetectEngineCtxInitReal in Hbuild.
      destruct (malloc_de_ctx_ok ext); cbn [negb Z.eqb] in Hbuild;
        [|congruence].
      apply obind_Ret in Hbuild as (lim & _ & Hbuild).
      apply obind_Ret in Hbuild as (loaded & _ & Hbuild).
      destruct (mpm_pattern_id_store_ok ext); cbn [negb] in Hbuild; [|congruence].
      destruct (ActionInitConfig ext <? 0); [congruence|discriminate Hbuild].
  - unfold DetectEngineCtxInitReal in Hbuild. rewrite Hmin in Hbuild.
    destruct (malloc_de_ctx_ok ext); cbn [negb] in Hbuild.
    + injection Hbuild as <- <-. repeat split; reflexivity.
    + injection Hbuild as <- <-. reflexivity.
Qed.

Lemma InitReal_id_counter_witness :
  ctx_id (built (DetectEngineCtxInit example_externals conf_test08 7)) = 7.
Proof.
  apply (InitReal_id_counter example_externals conf_test08 0 None 7
           (Some (built (DetectEngineCtxInit example_externals conf_test08 7))) 8).
  vm_compute. reflexivity.
Defined.

Lemma substring_prefix_length n s : (String.length (substring 0 n s) <= n)%nat.
Proof.
  revert s. induction n as [|n IH]; intros s.
  - destruct s; simpl; lia.
  - destruct s as [|ch s]; simpl; [lia|]. specialize (IH s). lia.
Qed.

Lemma substring_prefix_all n s :
  (String.length s <= n)%nat -> substring 0 n s = s.
Proof.
  revert s. induction n as [|n IH]; intros s Hlen.
  - destruct s; [reflexivity|simpl in Hlen; lia].
  - destruct s as [|ch s]; [reflexivity|]. simpl. f_equal. apply IH.
    simpl in Hlen. lia.
Qed.

(** The prefix a build stores always fits its buffer: it is the given
    prefix cut to one character less than the buffer holds, hence the
    prefix itself when that is shorter than the buffer, and empty when no
    prefix or an empty one is given. *)
Theorem InitWithPrefix_config_prefix
    (ext : externals) (conf : ConfNode) (prefix : option string) (id : Z)
    (de_ctx : DetectEngineCtx) (id' : Z)
    (Hbuild : DetectEngineCtxInitWithPrefix ext conf prefix id
              = Ret (Some de_ctx, id')) :
  (String.length (config_prefix de_ctx) <= sizeof_config_prefix ext - 1)%nat /\
  (prefix = None -> config_prefix de_ctx = EmptyString) /\
  (forall p, prefix = Some p ->
             config_prefix de_ctx = substring 0 (sizeof_config_prefix ext - 1) p) /\
  (forall p, prefix = Some p ->
             (String.length p < sizeof_config_prefix ext)%nat ->
             config_prefix de_ctx = p).
Proof.
  assert (Hstored : config_prefix de_ctx =
                    match prefix with
                    | Some p => substring 0 (sizeof_config_prefix ext - 1) p
                    | None => EmptyString
                    end).
  { assert (Hreal : exists prefix',
               DetectEngineCtxInitReal ext conf 0 prefix' id = Ret (Some de_ctx, id') /\
               match prefix' with
               | Some p => strlcpy p (sizeof_config_prefix ext)
               | None => EmptyString
               end =
               match prefix with
               | Some p => substring 0 (sizeof_config_prefix ext - 1) p
               | None => EmptyString
               end).
    { unfold DetectEngineCtxInitWithPrefix, DetectEngineCtxInit in Hbuild.
      destruct prefix as [p|]; [|exists None; split; [exact Hbuild|reflexivity]].
      destruct (Nat.eqb (String.length p) 0) eqn:Hlen.
      - exists None. split; [exact Hbuild|].
        apply Nat.eqb_eq in Hlen. destruct p; [|discriminate Hlen].
        destruct (sizeof_config_prefix ext - 1)%nat; reflexivity.
      - exists (Some p). split; [exact Hbuild|reflexivity]. }
    destruct Hreal as (prefix' & Hreal & <-).
    apply InitReal_full_prefix in Hreal
      as (r & ff & rc & de1 & _ & Hload & -> & _).
    apply LoadConf_shape in Hload
      as (prof & sgh & sghv & l & _ & _ & Hlen & -> & _).
    cbn [set_identity config_prefix].
    match goal with
    | |- context [set_group_limits_list l (set_sgh_mpm_context ?v ?c0)] =>
        destruct (set_group_limits_list_fields l v c0 Hlen)
          as (_ & _ & _ & _ & Hp & _)
    end.
    rewrite Hp. reflexivity. }
  rewrite Hstored. split; [|split; [|split]].
  - destruct prefix as [p|]; [apply substring_prefix_length|simpl; lia].
  - intros ->. reflexivity.
  - intros p ->. reflexivity.
  - intros p -> Hlen. apply substring_prefix_all. lia.
Qed.

Lemma InitWithPrefix_config_prefix_witness :
  config_prefix
    (built (DetectEngineCtxInitWithPrefix example_externals conf_test08
              (Some "detect-engine-reloads.0"%string) 1))
  = "detect-engine-reloads.0"%string.
Proof.
  apply (proj2 (proj2 (proj2
           (InitWithPrefix_config_prefix example_externals conf_test08
              (Some "detect-engine-reloads.0"%string) 1
              (built (DetectEngineCtxInitWithPrefix example_externals conf_test08
                        (Some "detect-engine-reloads.0"%string) 1)) 2
              ltac:(vm_compute; reflexivity))))
           "detect-engine-reloads.0"%string eq_refl).
  vm_compute. lia.
Defined.

(** ** Registrations touch one cell and only extend it *)

Section RegistrationFrame.

Variable FlowGetProtoMapping : Z -> Z.
Variables ALPROTO_UNKNOWN ALPROTO_FAILED : Z.
Variables DETECT_SM_LIST_MATCH DETECT_SM_LIST_MAX : Z.

Local Abbreviation Reg' :=
  (RegisterEngine FlowGetProtoMapping ALPROTO_UNKNOWN ALPROTO_FAILED
                  DETECT_SM_LIST_MATCH DETECT_SM_LIST_MAX).
Local Abbreviation reg_all :=
  (register_all FlowGetProtoMapping ALPROTO_UNKNOWN ALPROTO_FAILED
                DETECT_SM_LIST_MATCH DETECT_SM_LIST_MAX).
Local Abbreviation cell_of := (call_cell FlowGetProtoMapping).
Local Abbreviation after := (cell_after FlowGetProtoMapping).

Lemma Register_cell (c : register_call) (list list' : app_table) p a d :
  Reg' c list = Ret list' ->
  cell list' p a d =
  if decide (cell_of c = (p, a, d)) then chain_after c (cell list p a d)
  else cell list p a d.
Proof.
  intros Hcall. unfold chain_after.
  destruct (Register_cases FlowGetProtoMapping ALPROTO_UNKNOWN ALPROTO_FAILED
              DETECT_SM_LIST_MATCH DETECT_SM_LIST_MAX c list)
    as [HE|[[HR Hal]|(Hal & e & Hd & Hs & Hf & Hcb & Ha & Hi & HR)]].
  - rewrite HE in Hcall. discriminate.
  - rewrite HR in Hcall. injection Hcall as <-.
    destruct (decide (cell_of c = (p, a, d))) as [Hk|_]; [|reflexivity].
    unfold call_cell in Hk. injection Hk as <- <- <-.
    unfold call_chain in Hal. rewrite Hal. reflexivity.
  - rewrite HR in Hcall.
    destruct (append_chain e (call_chain FlowGetProtoMapping c list))
      as [ch| | |] eqn:Happ; try discriminate.
    simpl in Hcall. injection Hcall as <-.
    apply append_chain_Ret in Happ as [-> _].
    rewrite cell_insert. unfold call_cell.
    destruct (decide ((FlowGetProtoMapping (rc_ipproto c), rc_alproto c, rc_dir c)
                      = (p, a, d))) as [Hk|_]; [|reflexivity].
    injection Hk as <- <- <-. unfold call_chain in Hal |- *. rewrite Hal.
    f_equal. f_equal. destruct e; cbn in *. unfold engine_of. congruence.
Qed.

(** A registration that returns changes no cell but its own, and its own
    only by leaving the chain as it is (when the pair of [sm_list] and
    [Callback] is there already) or by putting one node, carrying exactly
    the arguments of the call, after the last node: nodes are never
    removed, replaced or reordered. *)
Theorem Register_extends_own_chain
    (c : register_call) (list list' : app_table)
    (Hcall : Reg' c list = Ret list') :
  (forall p a d, cell_of c <> (p, a, d) -> cell list' p a d = cell list p a d) /\
  (call_chain FlowGetProtoMapping c list' = call_chain FlowGetProtoMapping c list \/
   call_chain FlowGetProtoMapping c list'
   = call_chain FlowGetProtoMapping c list ++ [engine_of c]) /\
  (exists e, e ∈ call_chain FlowGetProtoMapping c list' /\
             sm_list e = rc_sm_list c /\ Callback e = rc_Callback c).
Proof.
  split; [|split].
  - intros p a d Hne. rewrite (Register_cell c list list' p a d Hcall).
    rewrite decide_False by exact Hne. reflexivity.
  - unfold call_chain.
    rewrite (Register_cell c list list' _ _ _ Hcall).
    rewrite decide_True by reflexivity. unfold chain_after.
    destruct (already_registered _ _ _); [left|right]; reflexivity.
  - unfold call_chain.
    rewrite (Register_cell c list list' _ _ _ Hcall).
    rewrite decide_True by reflexivity. unfold chain_after.
    destruct (already_registered _ _ _) eqn:Hal.
    + apply already_registered_true in Hal. exact Hal.
    + exists (engine_of c). split; [|split; reflexivity].
      apply elem_of_app. right. left.
Qed.

Lemma register_all_cell (calls : list register_call) (list list' : app_table) p a d :
  reg_all calls list = Ret list' ->
  cell list' p a d = after (p, a, d) calls (cell list p a d).
Proof.
  revert list. induction calls as [|c calls IH]; intros list; cbn [register_all].
  - intros [= <-]. reflexivity.
  - intros H. apply obind_Ret in H as (list1 & Hc & H).
    rewrite (IH _ H). unfold cell_after. cbn [fold_left].
    rewrite (Register_cell c list list1 p a d Hc). reflexivity.
Qed.

Lemma chain_after_again c ch :
  chain_after c (chain_after c ch) = chain_after c ch.
Proof.
  unfold chain_after at 2 3.
  destruct (already_registered (rc_sm_list c) (rc_Callback c) ch) eqn:Hal.
  - unfold chain_after. rewrite Hal. reflexivity.
  - unfold chain_after.
    replace (already_registered (rc_sm_list c) (rc_Callback c) (ch ++ [engine_of c]))
      with true; [reflexivity|].
    symmetry. apply already_registered_true. exists (engine_of c).
    split; [|split; reflexivity]. apply elem_of_app. right. left.
Qed.

Lemma cell_after_nil key ch : after key [] ch = ch.
Proof. reflexivity. Qed.

Lemma cell_after_skip key c calls ch :
  cell_of c <> key -> after key (c :: calls) ch = after key calls ch.
Proof.
  intros Hne. unfold cell_after. cbn [fold_left].
  rewrite decide_False by exact Hne. reflexivity.
Qed.

Lemma cell_after_hit key c calls ch :
  cell_of c = key -> after key (c :: calls) ch = after key calls (chain_after c ch).
Proof.
  intros Heq. unfold cell_after. cbn [fold_left].
  rewrite decide_True by exact Heq. reflexivity.
Qed.

Lemma call_cell_tmp_t ok ip al sm fl d cb :
  cell_of (tmp_t ok ip al sm fl d cb) = (FlowGetProtoMapping ip, al, d).
Proof. reflexivity. Qed.


End RegistrationFrame.

Lemma Register_extends_own_chain_witness :
  match example_Register (example_call 1 2 1 200) example_table with
  | Ret list' => cell list' 0 1 0 = cell example_table 0 1 0
  | _ => False
  end.
Proof.
  destruct (example_Register (example_call 1 2 1 200) example_table)
    as [list'| | |] eqn:Hcall;
    try (vm_compute in Hcall; discriminate Hcall).
  apply (proj1 (Register_extends_own_chain example_proto_mapping 0 16 0 27
                  (example_call 1 2 1 200) example_table list' Hcall)).
  vm_compute. discriminate.
Defined.


(** ** One reload at a time *)

Lemma latch_not_IDLE_stays ops s :
  ReloadIsDone ∉ ops ->
  state s <> IDLE ->
  Forall (fun e => ev_op e = ReloadStart -> ev_result e = Some (-1))
         (fst (latch_run ops s)) /\
  state (snd (latch_run ops s)) <> IDLE.
Proof.
  revert s. induction ops as [|op ops IH]; intros s Hno Hs.
  - split; [constructor|exact Hs].
  - assert (Hop : op <> ReloadIsDone) by (intros ->; apply Hno; left).
    assert (Hops : ReloadIsDone ∉ ops) by (intros Hin; apply Hno; right; exact Hin).
    rewrite latch_run_cons. cbn [fst snd].
    assert (Hstep : state (snd (latch_step op s)) <> IDLE /\
                    (op = ReloadStart -> fst (latch_step op s) = Some (-1))).
    { destruct s as [st]. cbn [state] in Hs.
      destruct op; [| | |congruence]; destruct st; try congruence;
        split; vm_compute; congruence. }
    destruct Hstep as [Hs' Hres].
    destruct (IH _ Hops Hs') as [Hall Hfinal].
    split; [|exact Hfinal]. constructor; [exact Hres|exact Hall].
Qed.

(** Reload requests exclude each other: after a call of
    [DetectEngineReloadStart], whether it succeeded or not, every further
    call of it fails with [-1] for as long as the poller has not called
    [DetectEngineReloadIsDone], and the latch is not idle at the end of any
    such run. *)
Theorem ReloadStart_exclusive (s : DetectEngineSyncer) (ops : list latch_op)
    (Hno : ReloadIsDone ∉ ops) :
  Forall (fun e => ev_op e = ReloadStart -> ev_result e = Some (-1))
         (fst (latch_run ops (snd (DetectEngineReloadStart s)))) /\
  state (snd (latch_run ops (snd (DetectEngineReloadStart s)))) <> IDLE.
Proof.
  apply latch_not_IDLE_stays; [exact Hno|].
  unfold DetectEngineReloadStart. destruct (decide (state s = IDLE)); cbn.
  - discriminate.
  - assumption.
Qed.

Lemma ReloadStart_exclusive_witness :
  Forall (fun e => ev_op e = ReloadStart -> ev_result e = Some (-1))
         (fst (latch_run [ReloadStart; ReloadSetDone; ReloadStart]
                 (snd (DetectEngineReloadStart detect_sync_init)))) /\
  state (snd (latch_run [ReloadStart; ReloadSetDone; ReloadStart]
                (snd (DetectEngineReloadStart detect_sync_init)))) <> IDLE.
Proof.
  apply (ReloadStart_exclusive detect_sync_init
           [ReloadStart; ReloadSetDone; ReloadStart]).
  intros H.
  repeat (apply elem_of_cons in H as [H|H]; [discriminate H|]).
  inversion H.
Defined.

(** ** Whether detection is enabled *)

(** [DetectEngineEnabled] and [DetectEngineGetCurrent] agree on a well-formed
    registry: the first returns 1 exactly when the active list holds a
    context, and exactly then the second hands out a context, the head of
    that list; with an empty active list the first returns 0, the second
    [NULL] with the heap untouched, and no context can be moved to the free
    list. *)
Theorem Enabled_agrees_GetCurrent
    (master : DetectEngineMasterCtx) (h : heap) (active free : list loc)
    (Hreg : registry_lists master h active free) :
  (active = [] /\
   DetectEngineEnabled master = 0 /\
   DetectEngineGetCurrent master h = Ret (None, h) /\
   forall fuel de_ctx,
     DetectEngineMoveToFreeList fuel de_ctx master h = Ret (-1, master, h)) \/
  (exists first rest h',
     active = first :: rest /\
     DetectEngineEnabled master = 1 /\
     DetectEngineGetCurrent master h = Ret (Some first, h')).
Proof.
  destruct active as [|first rest].
  - left. destruct Hreg as (Hact & _ & _). simpl in Hact.
    unfold DetectEngineEnabled, DetectEngineGetCurrent, DetectEngineMoveToFreeList.
    rewrite Hact. repeat split; reflexivity.
  - right. destruct (GetCurrent_lists master h first rest free Hreg)
      as (c & _ & Hcur & _).
    destruct Hreg as ([Hm _] & _ & _).
    exists first, rest. eexists. split; [reflexivity|]. split; [|exact Hcur].
    unfold DetectEngineEnabled. rewrite Hm. reflexivity.
Qed.

Lemma Enabled_agrees_GetCurrent_witness :
  exists first rest h',
    [1%positive; 2%positive] = first :: rest /\
    DetectEngineEnabled move_example_master = 1 /\
    DetectEngineGetCurrent move_example_master move_example_heap
    = Ret (Some first, h').
Proof.
  destruct (Enabled_agrees_GetCurrent move_example_master move_example_heap
              [1%positive; 2%positive] [3%positive] move_example_lists)
    as [(Hnil & _)|H].
  - discriminate Hnil.
  - exact H.
Defined.

(** Moving the only context of the active list to the free list disables
    detection: the call returns 0, after it [DetectEngineEnabled] returns 0
    and [DetectEngineGetCurrent] returns [NULL], and the context heads the
    free list. *)
Theorem MoveToFreeList_last_disables
    (fuel : nat) (master : DetectEngineMasterCtx) (h : heap)
    (s : loc) (free : list loc)
    (Hreg : registry_lists master h [s] free) :
  exists master' h',
    DetectEngineMoveToFreeList fuel (Some s) master h = Ret (0, master', h') /\
    DetectEngineEnabled master' = 0 /\
    DetectEngineGetCurrent master' h' = Ret (None, h') /\
    registry_lists master' h' [] (s :: free).
Proof.
  destruct Hreg as (Hact & Hfree & Hdisj).
  destruct Hact as [Hm (c & Hc & Hrest)]. simpl in Hrest.
  unfold DetectEngineMoveToFreeList. rewrite Hm.
  rewrite decide_True by reflexivity. unfold load. rewrite Hc. cbn [obind].
  destruct (add_to_free_list_lists s
              {| m_list := next c; m_free_list := m_free_list master |}
              h c [] free Hc) as (master' & h' & Hrun & Hl & _ & Hlists & _).
  - cbn [m_list]. exact Hrest.
  - exact Hfree.
  - intros Hin. inversion Hin.
  - intros Hin. apply (Hdisj s); [left|exact Hin].
  - intros x Hx. inversion Hx.
  - exists master', h'. split; [exact Hrun|].
    cbn [m_list] in Hl. rewrite Hrest in Hl.
    unfold DetectEngineEnabled, DetectEngineGetCurrent. rewrite Hl.
    split; [reflexivity|]. split; [reflexivity|exact Hlists].
Qed.

Lemma MoveToFreeList_last_disables_witness :
  exists master' h',
    DetectEngineMoveToFreeList 0 (Some 1%positive) reload_example_master
      reload_example_heap = Ret (0, master', h') /\
    DetectEngineEnabled master' = 0 /\
    DetectEngineGetCurrent master' h' = Ret (None, h') /\
    registry_lists master' h' [] [1%positive].
Proof.
  exact (MoveToFreeList_last_disables 0 reload_example_master reload_example_heap
           1%positive [] reload_example_lists).
Defined.

(** ** Names of the signature-match lists *)


